(** * Payment hub: cross-provider ingestion and reconciliation

    A shallow embedding of the backend's ingestion and reconciliation core:
    - [app/integrations/vima/normalizer.py], [app/integrations/payshack/normalizer.py]
    - [app/integrations/vima/client.py], [app/integrations/payshack/client.py]
    - [app/etl/vima_sync.py], [app/etl/payshack_sync.py]
    - [app/services/reconciliation_service.py], [app/services/currency.py]
    - [app/models/transaction.py], [app/models/reconciliation.py]

    Python values decoded from JSON are an inductive type, [decimal.Decimal]
    is a coefficient/exponent pair under the default context (28 digits,
    round-half-even), exceptions are an error monad, the database session and
    the remote HTTP servers are explicit state. *)

From Stdlib Require Import ZArith QArith Qabs Qminmax Qpower Qfield Lia.
From Stdlib Require Import Ascii Floats.SpecFloat.
From stdpp Require Import base option list gmap strings pretty.

Open Scope string_scope.
Open Scope Z_scope.

(** ** Exceptions and the error monad *)

Inductive exn : Type :=
| InvalidOperation (msg : string)        (* decimal.InvalidOperation *)
| AttributeError (msg : string)
| TypeError (msg : string)
| IndexError (msg : string)
| KeyError (msg : string)
| DBAPIError (msg : string)              (* sqlalchemy.exc.DBAPIError and subclasses *)
| HTTPStatusError (status_code : Z)      (* httpx, from raise_for_status *)
| TimeoutException (msg : string)        (* httpx, a RequestError *)
| ConnectError (msg : string)            (* httpx, a RequestError *)
| RequestError (msg : string)            (* httpx, any other RequestError *)
| PayShackAPIError (msg : string) (status_code : option Z)
| VimaAPIError (msg : string) (status_code : option Z)
| RetryError (msg : string)              (* tenacity, attempts used up *)
| RecursionError (msg : string)
| JSONDecodeError (msg : string)         (* json, a ValueError: from response.json() *)
| DivisionByZero (msg : string)          (* decimal.DivisionByZero *)
| OSError (msg : string).                (* a stream that cannot be written *)

(** [str(e)] *)
Definition exn_str (e : exn) : string :=
  match e with
  | InvalidOperation m | AttributeError m | TypeError m | IndexError m | KeyError m
  | DBAPIError m | TimeoutException m | ConnectError m | RequestError m
  | PayShackAPIError m _ | VimaAPIError m _ | RetryError m | RecursionError m
  | JSONDecodeError m | DivisionByZero m | OSError m => m
  | HTTPStatusError c => "HTTP status " +:+ pretty c
  end.

Inductive result (A : Type) : Type :=
| Ok (a : A)
| Raise (e : exn).
Arguments Ok {A} a.
Arguments Raise {A} e.

Definition bind {A B} (m : result A) (f : A -> result B) : result B :=
  match m with
  | Ok a => f a
  | Raise e => Raise e
  end.

Notation "'let*' x := m 'in' k" := (bind m (fun x => k))
  (at level 10, x name, m at level 100, k at level 200).

Definition is_ok {A} (r : result A) : bool :=
  match r with Ok _ => true | Raise _ => false end.

(** [s[:n]] *)
Fixpoint str_take (n : nat) (s : string) : string :=
  match n, s with
  | O, _ => EmptyString
  | S _, EmptyString => EmptyString
  | S n', String c s' => String c (str_take n' s')
  end.

(** ** Python values as JSON decoding produces them *)

#[warnings="-register-all"]
Inductive pyval : Type :=
| PNone
| PBool (b : bool)
| PInt (z : Z)
| PFloat (f : spec_float)
| PStr (s : string)
| PList (l : list pyval)
| PDict (kv : list (string * pyval)).

(** Truthiness, as [if v:] and [v or w] test it. *)
Definition float_is_zero (f : spec_float) : bool :=
  match f with S754_zero _ => true | _ => false end.

Definition truthy (v : pyval) : bool :=
  match v with
  | PNone => false
  | PBool b => b
  | PInt z => negb (z =? 0)
  | PFloat f => negb (float_is_zero f)
  | PStr s => negb (String.eqb s "")
  | PList l => match l with [] => false | _ => true end
  | PDict kv => match kv with [] => false | _ => true end
  end.

(** [a or b] *)
Definition py_or (a b : pyval) : pyval := if truthy a then a else b.

Definition is_none (v : pyval) : bool :=
  match v with PNone => true | _ => false end.

(** Lookup in a decoded JSON object; the first binding of a key is the one
    kept here, keys of a decoded object being distinct. *)
Fixpoint assoc (k : string) (kv : list (string * pyval)) : option pyval :=
  match kv with
  | [] => None
  | (k', v) :: rest => if String.eqb k k' then Some v else assoc k rest
  end.

(** [d.get(k, default)]; on a value that is not a dict the attribute [get]
    does not exist. *)
Definition py_get (d : pyval) (k : string) (dflt : pyval) : result pyval :=
  match d with
  | PDict kv => Ok (default dflt (assoc k kv))
  | _ => Raise (AttributeError "object has no attribute 'get'")
  end.

(** Comparison of a float with an integer, exact; [None] for a NaN. *)
Definition float_cmp_int (f : spec_float) (z : Z) : option comparison :=
  match f with
  | S754_nan => None
  | S754_zero _ => Some (0 ?= z)
  | S754_infinity s => Some (if s then Lt else Gt)
  | S754_finite s m e =>
      let v := if s then Z.neg m else Z.pos m in
      Some (if 0 <=? e then (v * 2 ^ e ?= z) else (v ?= z * 2 ^ (- e)))
  end.

Definition as_number (v : pyval) : option (Z + spec_float) :=
  match v with
  | PBool b => Some (inl (if b then 1 else 0))
  | PInt z => Some (inl z)
  | PFloat f => Some (inr f)
  | _ => None
  end.

Definition number_eqb (a b : Z + spec_float) : bool :=
  match a, b with
  | inl x, inl y => x =? y
  | inl x, inr f | inr f, inl x =>
      match float_cmp_int f x with Some Eq => true | _ => false end
  | inr f, inr g => SFeqb f g
  end.

(** [a == b]: numbers by value across bool, int and float, strings and
    None by identity of content, lists element by element, dicts key by
    key. *)
Fixpoint py_eqb (a b : pyval) {struct a} : bool :=
  match a, b with
  | PNone, PNone => true
  | PStr s, PStr t => String.eqb s t
  | PList la, PList lb =>
      (fix all2 (la lb : list pyval) : bool :=
         match la, lb with
         | [], [] => true
         | x :: la', y :: lb' => py_eqb x y && all2 la' lb'
         | _, _ => false
         end) la lb
  | PDict ka, PDict kb =>
      (length ka =? length kb)%nat &&
      (fix every (ka : list (string * pyval)) : bool :=
         match ka with
         | [] => true
         | (k, v) :: ka' =>
             match assoc k kb with
             | Some w => py_eqb v w
             | None => false
             end && every ka'
         end) ka
  | _, _ =>
      match as_number a, as_number b with
      | Some x, Some y => number_eqb x y
      | _, _ => false
      end
  end.

(** ** [decimal.Decimal] under the default context

    A finite decimal is [coef * 10^expo]; the sign of a zero is not tracked
    and the exponent limits of the context (Emax, Emin) are not reached by
    any value here.  Results of arithmetic are rounded to [prec] significant
    digits, ties to even, as [Decimal._fix] does. *)

Module Dec.

Inductive Decimal : Type :=
| Fin (coef : Z) (expo : Z)
| Inf (neg : bool)
| NaN (signaling : bool).

Definition prec : Z := 28.

(** [len(str(n))] for [0 <= n]. *)
Fixpoint ndigits_from (fuel : nat) (k : Z) (n : Z) : Z :=
  match fuel with
  | O => k
  | S fuel' => if n <? 10 ^ k then k else ndigits_from fuel' (k + 1) n
  end.

Definition ndigits (n : Z) : Z := ndigits_from (Z.to_nat (Z.log2 n)) 1 n.

(** Drop the last [k] digits of [c >= 0], rounding half to even. *)
Definition round_half_even (c k : Z) : Z :=
  let p := 10 ^ k in
  let q := c / p in
  let r := c mod p in
  if 2 * r <? p then q
  else if p <? 2 * r then q + 1
  else if Z.even q then q else q + 1.

(** [Decimal._fix(context)] on a finite value. *)
Definition fix_ (c e : Z) : Decimal :=
  if Z.abs c <? 10 ^ prec then Fin c e
  else
    let k := ndigits (Z.abs c) - prec in
    let q := round_half_even (Z.abs c) k in
    if q =? 10 ^ prec
    then Fin (Z.sgn c * 10 ^ (prec - 1)) (e + k + 1)
    else Fin (Z.sgn c * q) (e + k).

Definition invalid {A} : result A := Raise (InvalidOperation "InvalidOperation").

(** [a + b] *)
Definition add (a b : Decimal) : result Decimal :=
  match a, b with
  | NaN true, _ | _, NaN true => invalid
  | NaN false, _ | _, NaN false => Ok (NaN false)
  | Inf s, Inf s' => if Bool.eqb s s' then Ok (Inf s) else invalid
  | Inf s, Fin _ _ | Fin _ _, Inf s => Ok (Inf s)
  | Fin ca ea, Fin cb eb =>
      let e := Z.min ea eb in
      Ok (fix_ (ca * 10 ^ (ea - e) + cb * 10 ^ (eb - e)) e)
  end.

(** [-a], as [copy_negate] inside [__sub__] (no rounding). *)
Definition copy_negate (a : Decimal) : Decimal :=
  match a with
  | Fin c e => Fin (- c) e
  | Inf s => Inf (negb s)
  | NaN s => NaN s
  end.

(** [a - b] *)
Definition sub (a b : Decimal) : result Decimal := add a (copy_negate b).

(** [abs(a)] *)
Definition abs (a : Decimal) : result Decimal :=
  match a with
  | NaN true => invalid
  | NaN false => Ok (NaN false)
  | Inf _ => Ok (Inf false)
  | Fin c e => Ok (fix_ (Z.abs c) e)
  end.

(** [a * b] *)
Definition mul (a b : Decimal) : result Decimal :=
  match a, b with
  | NaN true, _ | _, NaN true => invalid
  | NaN false, _ | _, NaN false => Ok (NaN false)
  | Inf s, Inf s' => Ok (Inf (xorb s s'))
  | Inf s, Fin c _ | Fin c _, Inf s =>
      if c =? 0 then invalid else Ok (Inf (xorb s (c <? 0)))
  | Fin ca ea, Fin cb eb => Ok (fix_ (ca * cb) (ea + eb))
  end.

(** The loop of [__truediv__] on an exact quotient: move towards the ideal
    exponent while the coefficient ends in a zero. *)
Fixpoint strip_zeros (fuel : nat) (coeff exp ideal : Z) : Z * Z :=
  match fuel with
  | O => (coeff, exp)
  | S fuel' =>
      if (exp <? ideal) && (coeff mod 10 =? 0)
      then strip_zeros fuel' (coeff / 10) (exp + 1) ideal
      else (coeff, exp)
  end.

(** [a / b] *)
Definition div (a b : Decimal) : result Decimal :=
  match a, b with
  | NaN true, _ | _, NaN true => invalid
  | NaN false, _ | _, NaN false => Ok (NaN false)
  | Inf _, Inf _ => invalid
  | Inf s, Fin c _ => Ok (Inf (xorb s (c <? 0)))
  | Fin _ _, Inf _ => Ok (Fin 0 (-999999 - (prec - 1)))   (* clamped zero, Etiny *)
  | Fin ca ea, Fin cb eb =>
      if cb =? 0 then
        if ca =? 0 then invalid               (* DivisionUndefined, an InvalidOperation *)
        else Raise (DivisionByZero "DivisionByZero")
      else if ca =? 0 then Ok (fix_ 0 (ea - eb))
      else
        let sg := Z.sgn ca * Z.sgn cb in
        let shift := ndigits (Z.abs cb) - ndigits (Z.abs ca) + prec + 1 in
        let exp := ea - eb - shift in
        let '(coeff, remainder) :=
          if 0 <=? shift
          then (Z.abs ca * 10 ^ shift / Z.abs cb, (Z.abs ca * 10 ^ shift) mod Z.abs cb)
          else (Z.abs ca / (Z.abs cb * 10 ^ (- shift)),
                Z.abs ca mod (Z.abs cb * 10 ^ (- shift))) in
        if remainder =? 0
        then
          let ideal := ea - eb in
          let '(coeff', exp') := strip_zeros (Z.to_nat (ideal - exp)) coeff exp ideal in
          Ok (fix_ (sg * coeff') exp')
        else
          let coeff' := if coeff mod 5 =? 0 then coeff + 1 else coeff in
          Ok (fix_ (sg * coeff') exp)
  end.

(** [a.quantize(Decimal(1).scaleb(target))]: the value at exponent
    [target], rounded half to even; a result of more than [prec] digits is
    an InvalidOperation, and so is an infinity. *)
Definition quantize (a : Decimal) (target : Z) : result Decimal :=
  match a with
  | NaN true => invalid
  | NaN false => Ok (NaN false)
  | Inf _ => invalid
  | Fin c e =>
      if c =? 0 then Ok (fix_ 0 target)
      else if prec <? ndigits (Z.abs c) + e - target then invalid
      else if target <=? e then Ok (Fin (c * 10 ^ (e - target)) target)
      else
        let q := round_half_even (Z.abs c) (target - e) in
        if prec <? ndigits q then invalid else Ok (fix_ (Z.sgn c * q) target)
  end.

(** Three-way comparison of the numerical values, [Decimal._cmp]. *)
Definition cmp_fin (ca ea cb eb : Z) : comparison :=
  let e := Z.min ea eb in
  Z.compare (ca * 10 ^ (ea - e)) (cb * 10 ^ (eb - e)).

(** [a > b]: an ordering comparison that involves a NaN signals
    InvalidOperation, which the default context traps. *)
Definition gt (a b : Decimal) : result bool :=
  match a, b with
  | NaN _, _ | _, NaN _ => invalid
  | Inf s, Inf s' => Ok (negb s && s')
  | Inf s, Fin _ _ => Ok (negb s)
  | Fin _ _, Inf s => Ok s
  | Fin ca ea, Fin cb eb =>
      Ok (match cmp_fin ca ea cb eb with Gt => true | _ => false end)
  end.

(** The builtin [max(a, b)]: [b] when [b > a], else [a]. *)
Definition max (a b : Decimal) : result Decimal :=
  match gt b a with
  | Ok g => Ok (if g then b else a)
  | Raise e => Raise e
  end.

(** [if d:] *)
Definition nonzero (d : Decimal) : bool :=
  match d with Fin c _ => negb (c =? 0) | _ => true end.

(** The mathematical value of a finite decimal. *)
Definition to_Q (c e : Z) : Q := (inject_Z c * 10 ^ e)%Q.

End Dec.

(** ** [Decimal(s)] for a string [s]

    The grammar of the constructor: surrounding whitespace and underscores
    are dropped, then an optional sign, then digits with an optional
    fraction and an optional exponent, or an infinity, or a NaN.  Characters
    are ASCII here. *)

Module DecParse.
Import Dec.

Definition code (c : ascii) : nat := Ascii.nat_of_ascii c.

Definition is_digit (c : ascii) : bool := ((48 <=? code c) && (code c <=? 57))%nat.

Definition is_space (c : ascii) : bool :=
  (((9 <=? code c) && (code c <=? 13)) || ((28 <=? code c) && (code c <=? 32)))%nat.

Definition lower (c : ascii) : ascii :=
  if ((65 <=? code c) && (code c <=? 90))%nat then Ascii.ascii_of_nat (code c + 32) else c.

Definition digits_value (ds : list ascii) : Z :=
  fold_left (fun acc c => 10 * acc + (Z.of_nat (code c) - 48)) ds 0.

Fixpoint span_digits (l : list ascii) : list ascii * list ascii :=
  match l with
  | c :: rest =>
      if is_digit c
      then let '(ds, tl) := span_digits rest in (c :: ds, tl)
      else ([], l)
  | [] => ([], [])
  end.

Fixpoint drop_spaces (l : list ascii) : list ascii :=
  match l with
  | c :: rest => if is_space c then drop_spaces rest else l
  | [] => []
  end.

(** [s.strip().replace("_", "")] *)
Definition clean (l : list ascii) : list ascii :=
  let stripped := rev (drop_spaces (rev (drop_spaces l))) in
  filter (fun c => negb (Ascii.eqb c "_"%char)) stripped.

Definition split_sign (l : list ascii) : bool * list ascii :=
  match l with
  | c :: rest =>
      if Ascii.eqb c "-"%char then (true, rest)
      else if Ascii.eqb c "+"%char then (false, rest)
      else (false, l)
  | [] => (false, [])
  end.

(** The exponent part, [E[-+]?\d+] up to the end of the string. *)
Definition parse_exponent (l : list ascii) : option Z :=
  match l with
  | [] => Some 0
  | c :: rest =>
      if Ascii.eqb (lower c) "e"%char then
        let '(neg, rest') := split_sign rest in
        let '(ds, tl) := span_digits rest' in
        match ds, tl with
        | _ :: _, [] => Some (if neg then - digits_value ds else digits_value ds)
        | _, _ => None
        end
      else None
  end.

Definition parse_number (neg : bool) (l : list ascii) : option Decimal :=
  let '(int_part, tl) := span_digits l in
  let '(frac_part, tl') :=
    match tl with
    | c :: rest => if Ascii.eqb c "."%char then span_digits rest else ([], tl)
    | [] => ([], [])
    end in
  match (int_part ++ frac_part)%list with
  | [] => None
  | ds =>
      e ← parse_exponent tl';
      let c := digits_value ds in
      Some (Fin (if neg then - c else c) (e - Z.of_nat (length frac_part)))
  end.

Definition parse_special (neg : bool) (l : list ascii) : option Decimal :=
  let low := String.string_of_list_ascii (map lower l) in
  if String.eqb low "inf" || String.eqb low "infinity" then Some (Inf neg)
  else
    match map lower l with
    | "n"%char :: "a"%char :: "n"%char :: diag =>
        if forallb is_digit diag then Some (NaN false) else None
    | "s"%char :: "n"%char :: "a"%char :: "n"%char :: diag =>
        if forallb is_digit diag then Some (NaN true) else None
    | _ => None
    end.

(** [Decimal(s)]; a string outside the grammar raises InvalidOperation. *)
Definition of_string (s : string) : result Decimal :=
  let '(neg, body) := split_sign (clean (String.list_ascii_of_string s)) in
  match parse_number neg body with
  | Some d => Ok d
  | None =>
      match parse_special neg body with
      | Some d => Ok d
      | None => Raise (InvalidOperation "ConversionSyntax")
      end
  end.

End DecParse.

(** ** The canonical store's rows ([app/models]) *)

Abbreviation Decimal := Dec.Decimal.

Definition UUID := Z.
(** A timestamp, microseconds since the epoch; a calendar day, days since it. *)
Definition datetime := Z.
Definition date := Z.

(** A row of [transactions]; nullable columns are options. *)
Record Transaction : Type := mkTransaction {
  id : UUID;
  source : string;
  source_id : string;
  reference_id : option string;
  client_operation_id : option string;
  order_id : option string;
  project : option string;
  merchant_id : option string;
  amount : Decimal;
  currency : string;
  fee : option Decimal;
  amount_usd : option Decimal;
  fee_usd : option Decimal;
  exchange_rate : option Decimal;
  status : string;
  original_status : option string;
  user_id : option string;
  user_email : option string;
  user_phone : option string;
  user_name : option string;
  country : option string;
  utr : option string;
  payment_method : option string;
  payment_product : option string;
  created_at : datetime;
  updated_at : option datetime;
  completed_at : option datetime;
  source_create_cursor : option string;
  source_update_cursor : option string;
  raw_data : option pyval;
  data_hash : option string;
  ingested_at : datetime
}.

(** A row of [reconciliation_results]. *)
Record ReconciliationResult : Type := mkResult {
  recon_run_id : UUID;
  recon_date : date;
  vima_txn_id : option UUID;
  payshack_txn_id : option UUID;
  rr_client_operation_id : option string;
  match_status : string;
  discrepancy_type : option string;
  vima_amount : option Decimal;
  payshack_amount : option Decimal;
  amount_diff : option Decimal;
  vima_status : option string;
  payshack_status : option string;
  details : option (list string)
}.

(** A row of [reconciliation_runs]. *)
Record ReconciliationRun : Type := mkRun {
  run_id : UUID;
  run_recon_date : date;
  total_vima : Z;
  total_payshack : Z;
  matched : Z;
  discrepancies : Z;
  missing_vima : Z;
  missing_payshack : Z;
  run_status : string;
  error_message : option string;
  run_started_at : option datetime;
  run_completed_at : option datetime
}.

(** The tables, as committed. *)
Record Database : Type := mkDatabase {
  transactions : list Transaction;
  reconciliation_runs : list ReconciliationRun;
  reconciliation_results : list ReconciliationResult
}.

(** Truthiness of a nullable string column, [if txn.order_id:]. *)
Definition str_truthy (o : option string) : bool :=
  match o with
  | Some s => negb (String.eqb s "")
  | None => false
  end.

(** ** [ReconciliationService] ([app/services/reconciliation_service.py]) *)

Module ReconciliationService.
Import Dec.

(** [Decimal("0.01")], 1 paisa. *)
Definition AMOUNT_TOLERANCE : Decimal := Fin 1 (-2).
(** [Decimal("0.001")], 0.1%. *)
Definition AMOUNT_TOLERANCE_PERCENT : Decimal := Fin 1 (-3).

Definition _compare_transactions (run : UUID) (day : date)
    (vima payshack : Transaction) : result ReconciliationResult :=
  let* d := sub (amount vima) (amount payshack) in
  let* diff := abs d in
  let* scaled := mul (amount vima) AMOUNT_TOLERANCE_PERCENT in
  let* tolerance := max AMOUNT_TOLERANCE scaled in
  let* over := gt diff tolerance in
  let discrepancies :=
    ((if over then ["amount"] else []) ++
     (if negb (String.eqb (status vima) (status payshack)) then ["status"] else []))%list in
  match discrepancies with
  | primary :: _ =>
      Ok {| recon_run_id := run;
            recon_date := day;
            vima_txn_id := Some (id vima);
            payshack_txn_id := Some (id payshack);
            rr_client_operation_id := client_operation_id vima;
            match_status := "discrepancy";
            discrepancy_type := Some primary;
            vima_amount := Some (amount vima);
            payshack_amount := Some (amount payshack);
            amount_diff :=
              if existsb (String.eqb "amount") discrepancies
              then Some diff else None;
            vima_status := Some (status vima);
            payshack_status := Some (status payshack);
            details := Some discrepancies |}
  | [] =>
      Ok {| recon_run_id := run;
            recon_date := day;
            vima_txn_id := Some (id vima);
            payshack_txn_id := Some (id payshack);
            rr_client_operation_id := client_operation_id vima;
            match_status := "matched";
            discrepancy_type := None;
            vima_amount := Some (amount vima);
            payshack_amount := Some (amount payshack);
            amount_diff := None;
            vima_status := Some (status vima);
            payshack_status := Some (status payshack);
            details := None |}
  end.

(** Lines 74-80: the PayShack index, keyed by [order_id], else by
    [client_operation_id]; a later transaction replaces an earlier one under
    the same key. *)
Definition build_index (payshack_txns : list Transaction) : gmap string Transaction :=
  fold_left
    (fun index txn =>
       if str_truthy (order_id txn) then <[default "" (order_id txn) := txn]> index
       else if str_truthy (client_operation_id txn)
       then <[default "" (client_operation_id txn) := txn]> index
       else index)
    payshack_txns ∅.

(** The index with the first branch only: keyed by [order_id] alone. *)
Definition build_index_by_order_id (payshack_txns : list Transaction)
    : gmap string Transaction :=
  fold_left
    (fun index txn =>
       if str_truthy (order_id txn) then <[default "" (order_id txn) := txn]> index
       else index)
    payshack_txns ∅.

Definition missing_payshack_result (run : UUID) (day : date) (vima : Transaction)
    : ReconciliationResult :=
  {| recon_run_id := run;
     recon_date := day;
     vima_txn_id := Some (id vima);
     payshack_txn_id := None;
     rr_client_operation_id := client_operation_id vima;
     match_status := "missing_payshack";
     discrepancy_type := Some "missing";
     vima_amount := Some (amount vima);
     payshack_amount := None;
     amount_diff := None;
     vima_status := Some (status vima);
     payshack_status := None;
     details := None |}.

Definition missing_vima_result (run : UUID) (day : date) (payshack : Transaction)
    : ReconciliationResult :=
  {| recon_run_id := run;
     recon_date := day;
     vima_txn_id := None;
     payshack_txn_id := Some (id payshack);
     rr_client_operation_id :=
       if str_truthy (order_id payshack) then order_id payshack
       else client_operation_id payshack;
     match_status := "missing_vima";
     discrepancy_type := Some "missing";
     vima_amount := None;
     payshack_amount := Some (amount payshack);
     amount_diff := None;
     vima_status := None;
     payshack_status := Some (status payshack);
     details := None |}.

(** Lines 83-115: the loop over the Vima transactions, threading [results]
    and [matched_payshack_ids]; a comparison that raises ends the loop. *)
Fixpoint match_loop (run : UUID) (day : date) (index : gmap string Transaction)
    (vima_txns : list Transaction)
    (results : list ReconciliationResult) (matched_ids : gset UUID)
    : result (list ReconciliationResult * gset UUID) :=
  match vima_txns with
  | [] => Ok (results, matched_ids)
  | vima_txn :: rest =>
      let matching_key := client_operation_id vima_txn in
      if negb (str_truthy matching_key)
      then match_loop run day index rest results matched_ids
      else
        match index !! default "" matching_key with
        | Some payshack_txn =>
            let* r := _compare_transactions run day vima_txn payshack_txn in
            match_loop run day index rest (results ++ [r])%list
                       ({[ id payshack_txn ]} ∪ matched_ids)
        | None =>
            match_loop run day index rest
                       (results ++ [missing_payshack_result run day vima_txn])%list
                       matched_ids
        end
  end.

(** Lines 117-131: PayShack transactions that no Vima transaction matched. *)
Definition missing_vima_results (run : UUID) (day : date)
    (payshack_txns : list Transaction) (matched_ids : gset UUID)
    : list ReconciliationResult :=
  map (missing_vima_result run day)
      (filter (fun txn => id txn ∉ matched_ids) payshack_txns).

(** Lines 74-131 together: every result of one pass. *)
Definition reconcile (run : UUID) (day : date)
    (vima_txns payshack_txns : list Transaction)
    : result (list ReconciliationResult) :=
  let* out := match_loop run day (build_index payshack_txns) vima_txns [] ∅ in
  Ok (out.1 ++ missing_vima_results run day payshack_txns out.2)%list.

(** [sum(1 for r in results if r.match_status == s)] *)
Definition count_status (s : string) (results : list ReconciliationResult) : Z :=
  Z.of_nat (length (filter (fun r => match_status r = s) results)).

(** The session of one pass: the committed tables, the results handed to
    [session.add_all] and not yet flushed, and the in-memory run object. *)
Record Session : Type := mkSession {
  store : Database;
  new_objects : list ReconciliationResult;
  run_object : ReconciliationRun
}.

(** What happens during the [try] block: each awaited operation of the
    database goes through or raises the given exception, and so does what
    follows the commit of the results, the log call and the building of
    the returned summary. *)
Record Faults : Type := mkFaults {
  load_vima_error : option exn;
  load_payshack_error : option exn;
  commit_error : option exn;
  tail_error : option exn      (* lines 153-169: the log call, the returned dict *)
}.

Definition no_faults : Faults := mkFaults None None None None.

Definition usec_per_day : Z := 86400000000.

(** [_load_transactions]: rows of one source created within the day, from
    [datetime.combine(date, min.time())] to [datetime.combine(date, max.time())]. *)
Definition _load_transactions (db : Database) (src : string) (day : date)
    : list Transaction :=
  let start := day * usec_per_day in
  let end_ := day * usec_per_day + (usec_per_day - 1) in
  filter (fun t => source t = src ∧ start ≤ created_at t ∧ created_at t ≤ end_)
         (transactions db).

Definition load (err : option exn) (db : Database) (src : string) (day : date)
    : result (list Transaction) :=
  match err with
  | Some e => Raise e
  | None => Ok (_load_transactions db src day)
  end.

Definition save_run (r : ReconciliationRun) (runs : list ReconciliationRun)
    : list ReconciliationRun :=
  map (fun x => if run_id x =? run_id r then r else x) runs.

(** [await session.commit()] that goes through: the run object and the new
    objects are written. *)
Definition commit (s : Session) : Session :=
  {| store :=
       {| transactions := transactions (store s);
          reconciliation_runs := save_run (run_object s) (reconciliation_runs (store s));
          reconciliation_results :=
            (reconciliation_results (store s) ++ new_objects s)%list |};
     new_objects := [];
     run_object := run_object s |}.

(** A commit that raises rolls the transaction back: the new objects leave
    the session and the run object is the committed row again. *)
Definition rollback (s : Session) : Session :=
  {| store := store s;
     new_objects := [];
     run_object :=
       default (run_object s)
         (List.find (fun x => run_id x =? run_id (run_object s))
                    (reconciliation_runs (store s))) |}.

Inductive Outcome : Type :=
| Completed (run : UUID) (n_matched n_discrepancies n_missing_vima n_missing_payshack : Z)
| Failed (error : string).

(** Lines 51-169, the [try] block: the session it leaves, and the summary
    or the exception.  What follows the commit of the results (the log call
    and the dict that is returned) is still inside the block. *)
Definition try_block (faults : Faults) (day : date) (now : datetime) (s : Session)
    : Session * result Outcome :=
  let run := run_object s in
  match load (load_vima_error faults) (store s) "vima" day with
  | Raise e => (s, Raise e)
  | Ok vima_txns =>
  match load (load_payshack_error faults) (store s) "payshack" day with
  | Raise e => (s, Raise e)
  | Ok payshack_txns =>
  match reconcile (run_id run) day vima_txns payshack_txns with
  | Raise e => (s, Raise e)
  | Ok results =>
      (* session.add_all(results) *)
      let matched_count := count_status "matched" results in
      let discrepancy_count := count_status "discrepancy" results in
      let missing_vima_count := count_status "missing_vima" results in
      let missing_payshack_count := count_status "missing_payshack" results in
      let run' :=
        {| run_id := run_id run;
           run_recon_date := run_recon_date run;
           total_vima := Z.of_nat (length vima_txns);
           total_payshack := Z.of_nat (length payshack_txns);
           matched := matched_count;
           discrepancies := discrepancy_count;
           missing_vima := missing_vima_count;
           missing_payshack := missing_payshack_count;
           run_status := "completed";
           error_message := error_message run;
           run_started_at := run_started_at run;
           run_completed_at := Some now |} in
      let s1 := {| store := store s; new_objects := results; run_object := run' |} in
      match commit_error faults with
      | Some e => (rollback s1, Raise e)
      | None =>
          match tail_error faults with
          | Some e => (commit s1, Raise e)
          | None =>
              (commit s1,
               Ok (Completed (run_id run) matched_count discrepancy_count
                             missing_vima_count missing_payshack_count))
          end
      end
  end end end.

(** [run_for_date]: the run row is created and committed, then the [try]
    block; on an exception the handler marks the run failed and commits.
    [new_id] is the run's [uuid4()], [started] and [now] the two readings of
    the clock. *)
Definition run_for_date (db : Database) (faults : Faults) (new_id : UUID)
    (started now : datetime) (recon_date : date) : Database * Outcome :=
  let run :=
    {| run_id := new_id;
       run_recon_date := recon_date;
       total_vima := 0; total_payshack := 0; matched := 0; discrepancies := 0;
       missing_vima := 0; missing_payshack := 0;
       run_status := "running";
       error_message := None;
       run_started_at := Some started;
       run_completed_at := None |} in
  let s0 :=
    {| store :=
         {| transactions := transactions db;
            reconciliation_runs := (reconciliation_runs db ++ [run])%list;
            reconciliation_results := reconciliation_results db |};
       new_objects := [];
       run_object := run |} in
  match try_block faults recon_date now s0 with
  | (s, Ok out) => (store s, out)
  | (s, Raise e) =>
      let r := run_object s in
      let failed :=
        {| run_id := run_id r;
           run_recon_date := run_recon_date r;
           total_vima := total_vima r;
           total_payshack := total_payshack r;
           matched := matched r;
           discrepancies := discrepancies r;
           missing_vima := missing_vima r;
           missing_payshack := missing_payshack r;
           run_status := "failed";
           error_message := Some (str_take 500 (exn_str e));
           run_started_at := run_started_at r;
           run_completed_at := run_completed_at r |} in
      let s' := commit {| store := store s; new_objects := new_objects s;
                          run_object := failed |} in
      (store s', Failed (exn_str e))
  end.

End ReconciliationService.


(** ** The comparison rule as the specification words it

    Amount mismatch: [|a - b| > max(fixedTolerance, a * proportionalTolerance)]
    over the rationals, with the fixed tolerance 0.01 and the proportional
    tolerance 0.1%. *)

Definition spec_tolerance (a : Q) : Q := Qmax (1 # 100) (a * (1 # 1000)).

Definition spec_amount_mismatch (a b : Q) : Prop :=
  (spec_tolerance a < Qabs (a - b))%Q.


(** The verdict of the amount test on two amounts of scale 4, on their
    integer coefficients. *)
Definition over_b (cv cp : Z) : bool :=
  if 100000 <? cv then cv <? Z.abs (cv - cp) * 1000 else 100 <? Z.abs (cv - cp).


(** ** Sample rows, used by the examples below *)

Module Samples.
Import Dec.

Definition vima_txn (i : UUID) (key : option string) (amt : Decimal) (st : string)
    : Transaction :=
  {| id := i; source := "vima"; source_id := "op-" +:+ pretty i;
     reference_id := None; client_operation_id := key; order_id := None;
     project := Some "monetix"; merchant_id := None;
     amount := amt; currency := "INR"; fee := None;
     amount_usd := None; fee_usd := None; exchange_rate := None;
     status := st; original_status := Some st;
     user_id := None; user_email := None; user_phone := None; user_name := None;
     country := None; utr := None; payment_method := None; payment_product := None;
     created_at := 20000 * 86400000000 + 3600000000;
     updated_at := None; completed_at := None;
     source_create_cursor := Some (pretty i); source_update_cursor := None;
     raw_data := None; data_hash := Some ("hash-v-" +:+ pretty i);
     ingested_at := 20000 * 86400000000 + 7200000000 |}.

Definition payshack_txn (i : UUID) (key : option string) (amt : Decimal) (st : string)
    : Transaction :=
  {| id := i; source := "payshack"; source_id := "txn-" +:+ pretty i;
     reference_id := None; client_operation_id := key; order_id := key;
     project := Some "91game"; merchant_id := None;
     amount := amt; currency := "INR"; fee := None;
     amount_usd := None; fee_usd := None; exchange_rate := Some (Fin 12 (-3));
     status := st; original_status := Some st;
     user_id := None; user_email := None; user_phone := None; user_name := None;
     country := Some "IN"; utr := None; payment_method := Some "UPI";
     payment_product := Some "payin";
     created_at := 20000 * 86400000000 + 3700000000;
     updated_at := None; completed_at := None;
     source_create_cursor := None; source_update_cursor := None;
     raw_data := None; data_hash := Some ("hash-p-" +:+ pretty i);
     ingested_at := 20000 * 86400000000 + 7300000000 |}.

(** 100.0000 against 100.1000: the difference is the tolerance, 0.1. *)
Definition v_100 : Transaction := vima_txn 1 (Some "ord-1") (Fin 1000000 (-4)) "success".
Definition p_100_1 : Transaction := payshack_txn 11 (Some "ord-1") (Fin 1001000 (-4)) "success".
(** 100.1100: the tolerance and one paisa more; and a failed one. *)
Definition p_100_11 : Transaction := payshack_txn 12 (Some "ord-1") (Fin 1001100 (-4)) "success".
Definition p_100_11_failed : Transaction :=
  payshack_txn 13 (Some "ord-1") (Fin 1001100 (-4)) "failed".
(** Rows without a business key. *)
Definition v_keyless : Transaction := vima_txn 2 None (Fin 500000 (-4)) "success".
Definition p_keyless : Transaction := payshack_txn 14 None (Fin 700000 (-4)) "pending".
(** A row whose amount is the NaN that a NUMERIC column can hold. *)
Definition v_2 : Transaction := vima_txn 3 (Some "ord-2") (Fin 250000 (-4)) "success".
Definition p_nan : Transaction := payshack_txn 15 (Some "ord-2") (NaN false) "success".

Definition sample_db : Database :=
  {| transactions := [v_100; v_keyless; v_2; p_100_1; p_keyless; p_nan];
     reconciliation_runs := [];
     reconciliation_results := [] |}.

(** What the matching of one pass over the sample rows (the NaN row left
    out) returns. *)
Definition sample_results : list ReconciliationResult :=
  Eval vm_compute in
    match ReconciliationService.reconcile 99 20000
            [v_100; v_keyless; v_2] [p_100_1; p_keyless] with
    | Ok rs => rs
    | Raise _ => []
    end.

End Samples.


(** ** What the Python runtime supplies to the normalizers

    The text of a float and of a container, the date parser of [dateutil],
    [datetime.isoformat], [Decimal.__str__] and SHA-256 are taken as they
    are; a datetime object is an opaque instant. *)

Record Runtime : Type := mkRuntime {
  float_repr : spec_float -> string;
  container_repr : pyval -> string;
  date_parse : string -> option datetime;   (* [None]: the parser raised *)
  assume_utc : datetime -> datetime;        (* [replace(tzinfo=utc)] when naive *)
  isoformat : datetime -> string;
  decimal_str : Decimal -> string;
  sha256_hex : string -> string
}.

(** [str(v)] *)
Definition py_str (rt : Runtime) (v : pyval) : string :=
  match v with
  | PNone => "None"
  | PBool true => "True"
  | PBool false => "False"
  | PInt z => pretty z
  | PFloat f => float_repr rt f
  | PStr s => s
  | PList _ | PDict _ => container_repr rt v
  end.

(** [s.lower()] and [s.strip()], on ASCII. *)
Definition str_lower (s : string) : string :=
  String.string_of_list_ascii (map DecParse.lower (String.list_ascii_of_string s)).

Definition str_strip (s : string) : string :=
  String.string_of_list_ascii
    (rev (DecParse.drop_spaces (rev (DecParse.drop_spaces (String.list_ascii_of_string s))))).

(** [table.get(key, default)] on a constant table of strings. *)
Fixpoint table_get (table : list (string * string)) (key : string) (dflt : string)
    : string :=
  match table with
  | [] => dflt
  | (k, v) :: rest => if String.eqb key k then v else table_get rest key dflt
  end.

(** [Decimal(str(v))] *)
Definition decimal_of (rt : Runtime) (v : pyval) : result Decimal :=
  DecParse.of_string (py_str rt v).

(** [original_status.lower() if original_status else ""]; only a string has
    the method. *)
Definition status_key (original_status : pyval) : result string :=
  if truthy original_status then
    match original_status with
    | PStr s => Ok (str_lower s)
    | _ => Raise (AttributeError "object has no attribute 'lower'")
    end
  else Ok "".

(** The dict that a normalizer returns, "ready for the Transaction model". *)
Record Normalized : Type := mkNormalized {
  n_source : string;
  n_source_id : pyval;
  n_reference_id : pyval;
  n_client_operation_id : pyval;
  n_order_id : pyval;
  n_project : pyval;
  n_merchant_id : pyval;
  n_amount : Decimal;
  n_currency : pyval;
  n_amount_usd : option Decimal;      (* absent from the Vima dict *)
  n_fee : option Decimal;
  n_fee_usd : option Decimal;         (* absent from the Vima dict *)
  n_exchange_rate : option Decimal;   (* absent from the Vima dict *)
  n_status : string;
  n_original_status : pyval;
  n_user_id : pyval;
  n_user_email : pyval;
  n_user_phone : pyval;
  n_user_name : pyval;
  n_country : pyval;
  n_utr : pyval;
  n_payment_method : pyval;
  n_payment_product : pyval;
  n_created_at : option datetime;
  n_updated_at : option datetime;
  n_completed_at : option datetime;
  n_source_create_cursor : pyval;
  n_source_update_cursor : pyval;
  n_raw_data : pyval;
  n_data_hash : string
}.

(** [_calculate_hash], the same in both normalizers: SHA-256 of
    [source|source_id|amount|currency|created_at]. *)
Definition _calculate_hash (rt : Runtime) (src : string) (sid : pyval)
    (amt : Decimal) (cur : pyval) (created : option datetime) : string :=
  let created_str := match created with Some d => isoformat rt d | None => "" end in
  str_take 64
    (sha256_hex rt
       (src +:+ "|" +:+ py_str rt sid +:+ "|" +:+ decimal_str rt amt +:+ "|"
        +:+ py_str rt cur +:+ "|" +:+ created_str)).

(** ** [VimaNormalizer] ([app/integrations/vima/normalizer.py]) *)

Module VimaNormalizer.
Import Dec.

Definition STATUS_MAP : list (string * string) :=
  [("success", "success"); ("fail", "failed"); ("failed", "failed");
   ("in_process", "pending"); ("in process", "pending");
   ("user_input_required", "pending"); ("pending", "pending")].


Section WithRuntime.
Context (rt : Runtime).

Definition _parse_datetime (value : pyval) : option datetime :=
  if truthy value then date_parse rt (py_str rt value) else None.

(** [_extract_fee]: [charged_fee] of the first [card_finish] entry. *)
Definition _extract_fee (raw : pyval) : result (option Decimal) :=
  let* card_finish := py_get raw "card_finish" (PList []) in
  match card_finish with
  | PList (first :: _) =>
      let* fee := py_get first "charged_fee" PNone in
      if is_none fee then Ok None
      else let* d := decimal_of rt fee in Ok (Some d)
  | _ => Ok None
  end.

(** Lines 54-61: [complete_amount] when it is not [None], else the
    [create_params] amount, which is in minor units. *)
Definition extract_amount (raw amount_data : pyval) : result Decimal :=
  let* amount := py_get raw "complete_amount" PNone in
  if is_none amount then
    let* amount_value := py_get amount_data "value" (PInt 0) in
    let* d := decimal_of rt amount_value in
    div d (Fin 100 0)
  else decimal_of rt amount.

Definition normalize (raw : pyval) : result Normalized :=
  let* create_params := py_get raw "create_params" (PDict []) in
  let* params := py_get create_params "params" (PDict []) in
  let* payment := py_get params "payment" (PDict []) in
  let* payer := py_get payment "payer" (PDict []) in
  let* person := py_get payer "person" (PDict []) in
  let* amount_data := py_get payment "amount" (PDict []) in
  let* client_data := py_get payment "client" (PDict []) in
  let* identifiers := py_get payment "identifiers" (PDict []) in
  let* amount := extract_amount raw amount_data in
  let* complete_currency := py_get raw "complete_currency" PNone in
  let* currency :=
    if truthy complete_currency then Ok complete_currency
    else py_get amount_data "currency" (PStr "INR") in
  let* payment_status := py_get raw "payment_status" PNone in
  let* original_status :=
    if truthy payment_status then Ok payment_status
    else py_get raw "current_status" (PStr "") in
  let* key := status_key original_status in
  let status := table_get STATUS_MAP key "pending" in
  let* operation_created_at := py_get raw "operation_created_at" PNone in
  let* operation_modified_at := py_get raw "operation_modified_at" PNone in
  let* complete_created_at := py_get raw "complete_created_at" PNone in
  let created_at := _parse_datetime operation_created_at in
  let updated_at := _parse_datetime operation_modified_at in
  let completed_at := _parse_datetime complete_created_at in
  let* first_name := py_get person "first_name" (PStr "") in
  let* last_name := py_get person "last_name" (PStr "") in
  let full_name := str_strip (py_str rt first_name +:+ " " +:+ py_str rt last_name) in
  let user_name := if String.eqb full_name "" then PNone else PStr full_name in
  let* raw_c_id := py_get raw "client_operation_id" PNone in
  let* client_op_id :=
    if truthy raw_c_id then Ok raw_c_id
    else let* c_id := py_get identifiers "c_id" (PStr "") in
         Ok (py_or (PStr (py_str rt c_id)) PNone) in
  let* operation_id := py_get raw "operation_id" (PStr "") in
  let* reference_id := py_get raw "reference_id" PNone in
  let* project := py_get raw "project" PNone in
  let* credentials_owner := py_get raw "credentials_owner" PNone in
  let* fee := _extract_fee raw in
  let* raw_user_id := py_get raw "user_id" PNone in
  let* user_id :=
    if truthy raw_user_id then Ok raw_user_id
    else let* account := py_get payer "customer_account" (PDict []) in
         py_get account "id" PNone in
  let* payer_email := py_get payer "email" PNone in
  let* user_email :=
    if truthy payer_email then Ok payer_email else py_get raw "contact" PNone in
  let* user_phone := py_get payer "phone" PNone in
  let* country := py_get client_data "country" PNone in
  let* payment_method_code := py_get raw "payment_method_code" PNone in
  let* payment_product := py_get raw "payment_product" PNone in
  let* operation_create_id := py_get raw "operation_create_id" PNone in
  let* operation_update_id := py_get raw "operation_update_id" PNone in
  Ok {| n_source := "vima";
        n_source_id := operation_id;
        n_reference_id := reference_id;
        n_client_operation_id := client_op_id;
        n_order_id := PNone;
        n_project := project;
        n_merchant_id := credentials_owner;
        n_amount := amount;
        n_currency := currency;
        n_amount_usd := None;
        n_fee := fee;
        n_fee_usd := None;
        n_exchange_rate := None;
        n_status := status;
        n_original_status := original_status;
        n_user_id := user_id;
        n_user_email := user_email;
        n_user_phone := user_phone;
        n_user_name := user_name;
        n_country := country;
        n_utr := PNone;
        n_payment_method := payment_method_code;
        n_payment_product := payment_product;
        n_created_at := created_at;
        n_updated_at := updated_at;
        n_completed_at := completed_at;
        n_source_create_cursor := operation_create_id;
        n_source_update_cursor := operation_update_id;
        n_raw_data := raw;
        n_data_hash := _calculate_hash rt "vima" operation_id amount currency created_at |}.

End WithRuntime.
End VimaNormalizer.


(** ** [CurrencyService.convert_sync] ([app/services/currency.py])

    As the normalizers call it: currency "INR" and the static rate, the
    float 0.012, whose text is [0.012]. *)

Module CurrencyService.
Import Dec.

(** [str(STATIC_RATES_TO_USD["INR"])] *)
Definition inr_rate_str : string := "0.012".

(** [convert_sync(amount, "INR", 0.012)]: the currency is not USD, the rate
    is given and is not zero. *)
Definition convert_sync_inr (amount : Decimal) : result Decimal :=
  let* rate := DecParse.of_string inr_rate_str in
  let* usd := mul amount rate in
  quantize usd (-4).

End CurrencyService.

(** ** [PayShackNormalizer] ([app/integrations/payshack/normalizer.py]) *)

Module PayShackNormalizer.
Import Dec.

Definition STATUS_MAP : list (string * string) :=
  [("success", "success"); ("failed", "failed"); ("initiated", "pending");
   ("pending", "pending"); ("in process", "processing"); ("in_process", "processing");
   ("incomplete", "pending"); ("refunded", "refunded"); ("cb_refunded", "refunded");
   ("tampered", "failed")].

Definition CLIENT_PROJECT_MAP : list (string * string) :=
  [("91G_TECH_PVT_LTD", "91game"); ("91g_tech_pvt_ltd", "91game");
   ("IG Indigate P_Out", "indigate_payout"); ("MNCL_M5_Pvt_Ltd", "mncl_m5");
   ("Mn CL THREE_PVT_LTD", "mncl_three")].

(** [CLIENT_PROJECT_MAP.get(client_name, client_name)]; a list or a dict
    as the key is unhashable. *)
Definition map_project (client_name : pyval) : result pyval :=
  match client_name with
  | PStr s =>
      Ok (match assoc s (map (fun kv => (kv.1, PStr kv.2)) CLIENT_PROJECT_MAP) with
          | Some v => v
          | None => client_name
          end)
  | PList _ | PDict _ => Raise (TypeError "unhashable type")
  | _ => Ok client_name
  end.

Section WithRuntime.
Context (rt : Runtime).

Definition _parse_datetime (value : pyval) : option datetime :=
  if truthy value then assume_utc rt <$> date_parse rt (py_str rt value) else None.

Definition _extract_fee (raw : pyval) : result (option Decimal) :=
  let* commission := py_get raw "totalCommissionAmount" PNone in
  if is_none commission then Ok None
  else let* d := decimal_of rt commission in Ok (Some d).

(** [convert_sync(fee, "INR", inr_rate) if fee else None] *)
Definition fee_to_usd (fee : option Decimal) : result (option Decimal) :=
  match fee with
  | Some f =>
      if nonzero f
      then let* u := CurrencyService.convert_sync_inr f in Ok (Some u)
      else Ok None
  | None => Ok None
  end.

Definition normalize_payin (raw : pyval) : result Normalized :=
  let* raw_amount := py_get raw "amount" (PInt 0) in
  let* amount := decimal_of rt raw_amount in
  let* paid_amount := py_get raw "paidAmount" PNone in
  let* _paid :=
    if is_none paid_amount then Ok None
    else let* d := decimal_of rt paid_amount in Ok (Some d) in
  let* original_status := py_get raw "txnStatus" (PStr "") in
  let* key := status_key original_status in
  let status := table_get STATUS_MAP key "pending" in
  let* createdAt := py_get raw "createdAt" PNone in
  let* modifiedAt := py_get raw "modifiedAt" PNone in
  let created_at := _parse_datetime createdAt in
  let updated_at := _parse_datetime modifiedAt in
  let* client_name := py_get raw "clientName" (PStr "") in
  let* project := map_project client_name in
  let* order_id := py_get raw "orderId" PNone in
  let* fee := _extract_fee raw in
  let* amount_usd := CurrencyService.convert_sync_inr amount in
  let* fee_usd := fee_to_usd fee in
  let* txnId := py_get raw "txnId" (PStr "") in
  let* spTxnId := py_get raw "spTxnId" PNone in
  let* clientId := py_get raw "clientId" PNone in
  let* exchange_rate := DecParse.of_string CurrencyService.inr_rate_str in
  let* payerVpa := py_get raw "payerVpa" PNone in
  let* utr := py_get raw "utr" PNone in
  let* transactionType := py_get raw "transactionType" (PStr "UPI") in
  Ok {| n_source := "payshack";
        n_source_id := txnId;
        n_reference_id := spTxnId;
        n_client_operation_id := order_id;
        n_order_id := order_id;
        n_project := project;
        n_merchant_id := clientId;
        n_amount := amount;
        n_currency := PStr "INR";
        n_amount_usd := Some amount_usd;
        n_fee := fee;
        n_fee_usd := fee_usd;
        n_exchange_rate := Some exchange_rate;
        n_status := status;
        n_original_status := original_status;
        n_user_id := PNone;
        n_user_email := PNone;
        n_user_phone := PNone;
        n_user_name := payerVpa;
        n_country := PStr "IN";
        n_utr := utr;
        n_payment_method := transactionType;
        n_payment_product := PStr "payin";
        n_created_at := created_at;
        n_updated_at := updated_at;
        n_completed_at := if String.eqb status "success" then updated_at else None;
        n_source_create_cursor := PNone;
        n_source_update_cursor := PNone;
        n_raw_data := raw;
        n_data_hash := _calculate_hash rt "payshack" txnId amount (PStr "INR") created_at |}.

Definition normalize_payout (raw : pyval) : result Normalized :=
  let* raw_amount := py_get raw "amount" (PInt 0) in
  let* amount := decimal_of rt raw_amount in
  let* txnStatus := py_get raw "txnStatus" PNone in
  let* original_status :=
    if truthy txnStatus then Ok txnStatus else py_get raw "status" (PStr "") in
  let* key := status_key original_status in
  let status := table_get STATUS_MAP key "pending" in
  let* createdAt := py_get raw "createdAt" PNone in
  let* modifiedAt := py_get raw "modifiedAt" PNone in
  let created_at := _parse_datetime createdAt in
  let updated_at := _parse_datetime modifiedAt in
  let* client_name := py_get raw "clientName" (PStr "") in
  let* project := map_project client_name in
  let* order_id := py_get raw "orderId" PNone in
  let* fee := _extract_fee raw in
  let* amount_usd := CurrencyService.convert_sync_inr amount in
  let* fee_usd := fee_to_usd fee in
  let* txnId := py_get raw "txnId" PNone in
  let* source_id :=
    if truthy txnId then Ok txnId else py_get raw "transactionId" (PStr "") in
  let* clientId := py_get raw "clientId" PNone in
  let* exchange_rate := DecParse.of_string CurrencyService.inr_rate_str in
  let* beneEmail := py_get raw "beneEmail" PNone in
  let* beneName := py_get raw "beneName" PNone in
  let* utr := py_get raw "utr" PNone in
  Ok {| n_source := "payshack";
        n_source_id := source_id;
        n_reference_id := PNone;
        n_client_operation_id := order_id;
        n_order_id := order_id;
        n_project := project;
        n_merchant_id := clientId;
        n_amount := amount;
        n_currency := PStr "INR";
        n_amount_usd := Some amount_usd;
        n_fee := fee;
        n_fee_usd := fee_usd;
        n_exchange_rate := Some exchange_rate;
        n_status := status;
        n_original_status := original_status;
        n_user_id := PNone;
        n_user_email := beneEmail;
        n_user_phone := PNone;
        n_user_name := beneName;
        n_country := PStr "IN";
        n_utr := utr;
        n_payment_method := PStr "payout";
        n_payment_product := PStr "payout";
        n_created_at := created_at;
        n_updated_at := updated_at;
        n_completed_at := if String.eqb status "success" then updated_at else None;
        n_source_create_cursor := PNone;
        n_source_update_cursor := PNone;
        n_raw_data := raw;
        n_data_hash := _calculate_hash rt "payshack" source_id amount (PStr "INR") created_at |}.

End WithRuntime.
End PayShackNormalizer.


(** ** Binding a normalized dict to the columns of [transactions]

    What the driver and PostgreSQL accept for each column type: a text
    column takes a string within its length or NULL, NUMERIC(18,4) rounds
    to four places (half away from zero), holds NaN and refuses an overflow
    or an infinity, a NOT NULL column refuses NULL. *)

Module Columns.
Import Dec.

Definition data_error {A} (msg : string) : result A := Raise (DBAPIError msg).

Definition as_varchar (n : nat) (v : pyval) : result (option string) :=
  match v with
  | PNone => Ok None
  | PStr s =>
      if (String.length s <=? n)%nat then Ok (Some s)
      else data_error "value too long for type character varying"
  | _ => data_error "invalid input for query argument (expected str)"
  end.

Definition not_null {A} (o : option A) : result A :=
  match o with
  | Some a => Ok a
  | None => data_error "null value violates not-null constraint"
  end.

Definition round_half_up (c k : Z) : Z :=
  let p := 10 ^ k in
  if 2 * (c mod p) <? p then c / p else c / p + 1.

Definition as_numeric (precision scale : Z) (d : Decimal) : result Decimal :=
  match d with
  | NaN _ => Ok (NaN false)
  | Inf _ => data_error "numeric field overflow"
  | Fin c e =>
      let scaled :=
        if - scale <=? e then c * 10 ^ (e + scale)
        else Z.sgn c * round_half_up (Z.abs c) (- scale - e) in
      if Z.abs scaled <? 10 ^ precision then Ok (Fin scaled (- scale))
      else data_error "numeric field overflow"
  end.

Definition as_numeric_opt (precision scale : Z) (d : option Decimal)
    : result (option Decimal) :=
  match d with
  | Some x => let* y := as_numeric precision scale x in Ok (Some y)
  | None => Ok None
  end.

(** The proposed row of an INSERT: the dict's values bound to the columns,
    [id] and [ingested_at] from the column defaults. *)
Definition to_row (new_id : UUID) (now : datetime) (n : Normalized)
    : result Transaction :=
  let* c_source := as_varchar 20 (PStr (n_source n)) in
  let* c_source := not_null c_source in
  let* c_source_id := as_varchar 255 (n_source_id n) in
  let* c_source_id := not_null c_source_id in
  let* c_reference_id := as_varchar 255 (n_reference_id n) in
  let* c_client_operation_id := as_varchar 255 (n_client_operation_id n) in
  let* c_order_id := as_varchar 255 (n_order_id n) in
  let* c_project := as_varchar 100 (n_project n) in
  let* c_merchant_id := as_varchar 255 (n_merchant_id n) in
  let* c_amount := as_numeric 18 4 (n_amount n) in
  let* c_currency := as_varchar 3 (n_currency n) in
  let* c_currency := not_null c_currency in
  let* c_fee := as_numeric_opt 18 4 (n_fee n) in
  let* c_amount_usd := as_numeric_opt 18 4 (n_amount_usd n) in
  let* c_fee_usd := as_numeric_opt 18 4 (n_fee_usd n) in
  let* c_exchange_rate := as_numeric_opt 12 8 (n_exchange_rate n) in
  let* c_status := as_varchar 30 (PStr (n_status n)) in
  let* c_status := not_null c_status in
  let* c_original_status := as_varchar 50 (n_original_status n) in
  let* c_user_id := as_varchar 255 (n_user_id n) in
  let* c_user_email := as_varchar 255 (n_user_email n) in
  let* c_user_phone := as_varchar 50 (n_user_phone n) in
  let* c_user_name := as_varchar 255 (n_user_name n) in
  let* c_country := as_varchar 2 (n_country n) in
  let* c_utr := as_varchar 100 (n_utr n) in
  let* c_payment_method := as_varchar 50 (n_payment_method n) in
  let* c_payment_product := as_varchar 100 (n_payment_product n) in
  let* c_created_at := not_null (n_created_at n) in
  let* c_source_create_cursor := as_varchar 100 (n_source_create_cursor n) in
  let* c_source_update_cursor := as_varchar 100 (n_source_update_cursor n) in
  let* c_data_hash := as_varchar 64 (PStr (n_data_hash n)) in
  Ok {| id := new_id;
        source := c_source;
        source_id := c_source_id;
        reference_id := c_reference_id;
        client_operation_id := c_client_operation_id;
        order_id := c_order_id;
        project := c_project;
        merchant_id := c_merchant_id;
        amount := c_amount;
        currency := c_currency;
        fee := c_fee;
        amount_usd := c_amount_usd;
        fee_usd := c_fee_usd;
        exchange_rate := c_exchange_rate;
        status := c_status;
        original_status := c_original_status;
        user_id := c_user_id;
        user_email := c_user_email;
        user_phone := c_user_phone;
        user_name := c_user_name;
        country := c_country;
        utr := c_utr;
        payment_method := c_payment_method;
        payment_product := c_payment_product;
        created_at := c_created_at;
        updated_at := n_updated_at n;
        completed_at := n_completed_at n;
        source_create_cursor := c_source_create_cursor;
        source_update_cursor := c_source_update_cursor;
        raw_data := Some (n_raw_data n);
        data_hash := c_data_hash;
        ingested_at := now |}.

End Columns.


(** ** The upserts of the sync services ([app/etl])

    The table is seen through its unique index on [data_hash]: a finite map
    from the hash to the row.  The values of [uuid.uuid4()] and of the
    clock, for the n-th row or statement, are given. *)

Record Defaults : Type := mkDefaults {
  uuid4 : nat -> UUID;
  utcnow : nat -> datetime
}.

Module VimaSyncService.
Import Columns.

(** The [set_] of [on_conflict_do_update]: six columns from the proposed
    ("excluded") row. *)
Definition on_conflict_set (old excluded : Transaction) : Transaction :=
  {| id := id old;
     source := source old;
     source_id := source_id old;
     reference_id := reference_id old;
     client_operation_id := client_operation_id old;
     order_id := order_id old;
     project := project old;
     merchant_id := merchant_id old;
     amount := amount old;
     currency := currency old;
     fee := fee old;
     amount_usd := amount_usd old;
     fee_usd := fee_usd old;
     exchange_rate := exchange_rate old;
     status := status excluded;
     original_status := original_status excluded;
     user_id := user_id old;
     user_email := user_email old;
     user_phone := user_phone old;
     user_name := user_name old;
     country := country old;
     utr := utr old;
     payment_method := payment_method old;
     payment_product := payment_product old;
     created_at := created_at old;
     updated_at := updated_at excluded;
     completed_at := completed_at excluded;
     source_create_cursor := source_create_cursor old;
     source_update_cursor := source_update_cursor excluded;
     raw_data := raw_data excluded;
     data_hash := data_hash old;
     ingested_at := ingested_at old |}.

(** The rows of the one multi-row INSERT, bound in order. *)
Fixpoint bind_rows (dflt : Defaults) (pos : nat) (transactions : list Normalized)
    : result (list (string * Transaction)) :=
  match transactions with
  | [] => Ok []
  | n :: rest =>
      let* row := to_row (uuid4 dflt pos) (utcnow dflt pos) n in
      let* rows := bind_rows dflt (S pos) rest in
      Ok ((n_data_hash n, row) :: rows)
  end.

(** One INSERT ... ON CONFLICT (data_hash) DO UPDATE over several rows: a
    row of the command that meets a row the same command wrote is an error
    ("cannot affect row a second time"). *)
Fixpoint execute (table : gmap string Transaction) (touched : gset string)
    (rows : list (string * Transaction)) : result (gmap string Transaction) :=
  match rows with
  | [] => Ok table
  | (h, row) :: rest =>
      if decide (h ∈ touched)
      then data_error "ON CONFLICT DO UPDATE command cannot affect row a second time"
      else
        match table !! h with
        | Some old => execute (<[h := on_conflict_set old row]> table) ({[h]} ∪ touched) rest
        | None => execute (<[h := row]> table) ({[h]} ∪ touched) rest
        end
  end.

Definition _upsert_transactions (dflt : Defaults) (table : gmap string Transaction)
    (transactions : list Normalized) : result (gmap string Transaction) :=
  match transactions with
  | [] => Ok table
  | _ =>
      let* rows := bind_rows dflt 0 transactions in
      execute table ∅ rows
  end.

End VimaSyncService.

Module PayShackSyncService.
Import Columns.

(** The [set_] of the PayShack statement: ten columns, nine from the
    record and [ingested_at] from the clock. *)
Definition on_conflict_set (old excluded : Transaction) (now : datetime) : Transaction :=
  {| id := id old;
     source := source old;
     source_id := source_id old;
     reference_id := reference_id old;
     client_operation_id := client_operation_id old;
     order_id := order_id old;
     project := project old;
     merchant_id := merchant_id old;
     amount := amount old;
     currency := currency old;
     fee := fee old;
     amount_usd := amount_usd excluded;
     fee_usd := fee_usd excluded;
     exchange_rate := exchange_rate excluded;
     status := status excluded;
     original_status := original_status excluded;
     user_id := user_id old;
     user_email := user_email old;
     user_phone := user_phone old;
     user_name := user_name old;
     country := country old;
     utr := utr excluded;
     payment_method := payment_method old;
     payment_product := payment_product old;
     created_at := created_at old;
     updated_at := updated_at excluded;
     completed_at := completed_at excluded;
     source_create_cursor := source_create_cursor old;
     source_update_cursor := source_update_cursor old;
     raw_data := raw_data excluded;
     data_hash := data_hash old;
     ingested_at := now |}.

(** One statement per record. *)
Definition upsert_one (dflt : Defaults) (pos : nat) (table : gmap string Transaction)
    (txn : Normalized) : result (gmap string Transaction) :=
  let* row := to_row (uuid4 dflt pos) (utcnow dflt pos) txn in
  match table !! n_data_hash txn with
  | Some old => Ok (<[n_data_hash txn := on_conflict_set old row (utcnow dflt pos)]> table)
  | None => Ok (<[n_data_hash txn := row]> table)
  end.

(** The loop; every statement reports one row, so [inserted] counts them all. *)
Fixpoint upsert_loop (dflt : Defaults) (pos : nat) (table : gmap string Transaction)
    (transactions : list Normalized) (inserted : Z)
    : result (gmap string Transaction * Z) :=
  match transactions with
  | [] => Ok (table, inserted)
  | txn :: rest =>
      let* table' := upsert_one dflt pos table txn in
      upsert_loop dflt (S pos) table' rest (inserted + 1)
  end.

Definition _upsert_transactions (dflt : Defaults) (table : gmap string Transaction)
    (transactions : list Normalized) : result (gmap string Transaction * Z) :=
  match transactions with
  | [] => Ok (table, 0)
  | _ => upsert_loop dflt 0 table transactions 0
  end.

End PayShackSyncService.


(** ** Sample payloads and a sample runtime, used by the examples below *)

Module Payloads.
Import Dec.

(** A runtime whose functions are simple stand-ins: a timestamp is read as
    the length of its text, the digest is the text itself. *)
Definition sample_rt : Runtime :=
  {| float_repr := fun _ => "0.0";
     container_repr := fun _ => "[...]";
     date_parse := fun s => Some (Z.of_nat (String.length s));
     assume_utc := fun d => d;
     isoformat := fun d => pretty d;
     decimal_str :=
       fun d => match d with
                | Fin c e => pretty c +:+ "E" +:+ pretty e
                | Inf _ => "Infinity"
                | NaN _ => "NaN"
                end;
     sha256_hex := fun s => s |}.

Definition nested_amount (value : pyval) : pyval :=
  PDict [("params", PDict [("payment",
    PDict [("amount", PDict [("value", value); ("currency", PStr "INR")]);
           ("identifiers", PDict [("c_id", PStr "ord-1")])])])].

(** Only the minor-unit amount: 12345 paise. *)
Definition vima_minor : pyval :=
  PDict [("operation_id", PStr "op-1");
         ("operation_create_id", PStr "1001");
         ("operation_update_id", PStr "5");
         ("current_status", PStr "in_process");
         ("operation_created_at", PStr "2024-10-04T01:00:00Z");
         ("create_params", nested_amount (PInt 12345))].

(** The major-unit amount as well: 123.45 rupees against a nested 99999. *)
Definition vima_major : pyval :=
  PDict [("operation_id", PStr "op-1");
         ("operation_create_id", PStr "1001");
         ("operation_update_id", PStr "9");
         ("complete_amount", PStr "123.45");
         ("complete_currency", PStr "INR");
         ("payment_status", PStr "success");
         ("operation_created_at", PStr "2024-10-04T01:00:00Z");
         ("operation_modified_at", PStr "2024-10-04T01:05:00.000Z");
         ("create_params", nested_amount (PInt 99999))].

(** A minor-unit amount of 29 digits. *)
Definition vima_huge : pyval :=
  PDict [("operation_id", PStr "op-2");
         ("create_params", nested_amount (PInt (10 ^ 28 + 1)))].

Definition payin_raw : pyval :=
  PDict [("txnId", PStr "T-1"); ("orderId", PStr "ord-1");
         ("amount", PStr "123.45"); ("txnStatus", PStr "Success");
         ("clientName", PStr "91G_TECH_PVT_LTD");
         ("createdAt", PStr "2024-10-04T01:00:02Z");
         ("modifiedAt", PStr "2024-10-04T01:06:00.000Z");
         ("utr", PStr "UTR-77")].

Definition payout_raw : pyval :=
  PDict [("transactionId", PStr "W-1");
         ("amount", PInt 500); ("status", PStr "FAILED");
         ("createdAt", PStr "2024-10-04T02:00:00Z")].

Definition sample_defaults : Defaults :=
  {| uuid4 := fun n => 100 + Z.of_nat n; utcnow := fun n => 5000 + Z.of_nat n |}.

(** The two Vima payloads above normalized: the same operation, first in
    process, then successful. *)
Definition n_minor : list Normalized :=
  match VimaNormalizer.normalize sample_rt vima_minor with
  | Ok n => [n] | Raise _ => [] end.

Definition n_major : list Normalized :=
  match VimaNormalizer.normalize sample_rt vima_major with
  | Ok n => [n] | Raise _ => [] end.

Definition op1_hash : string := "vima|op-1|12345E-2|INR|20".

(** The store after the first record, and after the second. *)
Definition table_after (batches : list (list Normalized)) : gmap string Transaction :=
  fold_left
    (fun table batch =>
       match VimaSyncService._upsert_transactions sample_defaults table batch with
       | Ok table' => table'
       | Raise _ => table
       end)
    batches ∅.

End Payloads.


(** ** The frame of an upsert, as the specification words it and as each
    service has it *)

(** The columns that identify a payment: source, source id, amount,
    currency, creation time, the business keys; with the row id and the
    dedup key. *)
Definition identity_kept (old new : Transaction) : Prop :=
  id new = id old /\ source new = source old /\ source_id new = source_id old /\
  reference_id new = reference_id old /\
  client_operation_id new = client_operation_id old /\
  order_id new = order_id old /\
  amount new = amount old /\ currency new = currency old /\
  created_at new = created_at old /\ data_hash new = data_hash old.

(** The columns that no upsert of either service writes. *)
Definition common_frame (old new : Transaction) : Prop :=
  identity_kept old new /\
  project new = project old /\ merchant_id new = merchant_id old /\
  fee new = fee old /\
  user_id new = user_id old /\ user_email new = user_email old /\
  user_phone new = user_phone old /\ user_name new = user_name old /\
  country new = country old /\
  payment_method new = payment_method old /\
  payment_product new = payment_product old /\
  source_create_cursor new = source_create_cursor old.

(** As worded: only status, original status, updated/completed timestamps,
    derived USD fields and raw payload may differ. *)
Definition spec_frame (old new : Transaction) : Prop :=
  common_frame old new /\
  utr new = utr old /\
  source_update_cursor new = source_update_cursor old /\
  ingested_at new = ingested_at old.

(** Vima: status, original status, updated/completed timestamps, the
    update cursor and the raw payload may differ. *)
Definition vima_frame (old new : Transaction) : Prop :=
  common_frame old new /\
  utr new = utr old /\
  amount_usd new = amount_usd old /\ fee_usd new = fee_usd old /\
  exchange_rate new = exchange_rate old /\
  ingested_at new = ingested_at old.

(** PayShack: status, original status, updated/completed timestamps, UTR,
    the USD fields, the raw payload and the ingestion time may differ. *)
Definition payshack_frame (old new : Transaction) : Prop :=
  common_frame old new /\
  source_update_cursor new = source_update_cursor old.


(** ** HTTP, as the connectors see it

    A request is answered by a status and a body, which decodes as JSON or
    does not, or fails in transport.  The remote side is any function of the requests sent so far;
    the clock is read as a function of them too. *)

Inductive http_reply : Type :=
| Reply (status_code : Z) (body : pyval)
| ReplyText (status_code : Z) (text : string)   (* a body that is not JSON *)
| NetTimeout
| NetConnectError
| NetOtherError.

Record Request : Type := mkRequest {
  method : string;
  url : string;
  params : list (string * pyval);
  auth_token : pyval;        (* the token of the Authorization header *)
  reseller_id : pyval;
  json_body : list (string * pyval)
}.

Record Server : Type := mkServer {
  respond : list Request -> Request -> http_reply;
  clock : list Request -> datetime
}.

(** [await client.get/post(...)], then [response.raise_for_status()], then
    [response.json()]: the decoded body of a 2xx answer; a 2xx answer whose
    body is not JSON makes [json()] raise. *)
Definition checked_body (reply : http_reply) : result pyval :=
  match reply with
  | Reply code body =>
      if (200 <=? code) && (code <? 300) then Ok body else Raise (HTTPStatusError code)
  | ReplyText code _ =>
      if (200 <=? code) && (code <? 300)
      then Raise (JSONDecodeError "Expecting value")
      else Raise (HTTPStatusError code)
  | NetTimeout => Raise (TimeoutException "timed out")
  | NetConnectError => Raise (ConnectError "connection failed")
  | NetOtherError => Raise (RequestError "request failed")
  end.

(** [len(v)] *)
Definition py_len (v : pyval) : result Z :=
  match v with
  | PList l => Ok (Z.of_nat (length l))
  | PDict kv => Ok (Z.of_nat (length kv))
  | PStr s => Ok (Z.of_nat (String.length s))
  | _ => Raise (TypeError "object has no len()")
  end.

(** The [@retry] decorator of both clients, over the client's state: up
    to [attempts] calls, a further one only after a TimeoutException or a
    ConnectError; RetryError when they are used up. *)
Fixpoint retrying {St A} (attempts : nat) (f : St -> St * result A) (c : St)
    : St * result A :=
  match attempts with
  | O => (c, Raise (RetryError "RetryError"))
  | S n =>
      let '(c', r) := f c in
      match r with
      | Raise (TimeoutException _) | Raise (ConnectError _) => retrying n f c'
      | _ => (c', r)
      end
  end.

Definition is_transport (e : exn) : bool :=
  match e with
  | TimeoutException _ | ConnectError _ => true
  | _ => false
  end.

(** What a pagination generator did when run to its end: the batches it
    yielded, the pages it fetched with the cursor or page number asked for,
    the number of calls of the page fetch, and why it stopped. *)
Inductive Stop : Type :=
| EmptyPage
| CursorStalled
| LastPage
| CeilingReached
| Raised (e : exn).

Record Pagination (K : Type) : Type := mkPagination {
  yielded : list pyval;
  trace : list (K * pyval);
  calls : nat;
  stop : Stop
}.
Arguments mkPagination {K} _ _ _ _.
Arguments yielded {K} _.
Arguments trace {K} _.
Arguments calls {K} _.
Arguments stop {K} _.

(** One more fetched page in front of what the rest of the loop did. *)
Definition after_page {K} (key : K) (page : pyval) (rest : Pagination K)
    : Pagination K :=
  {| yielded := page :: yielded rest;
     trace := (key, page) :: trace rest;
     calls := S (calls rest);
     stop := stop rest |}.

(** [page >= total_pages] for an int [page]. *)
Definition int_ge (page : Z) (v : pyval) : result bool :=
  match as_number v with
  | Some (inl z) => Ok (z <=? page)
  | Some (inr f) =>
      Ok (match float_cmp_int f page with Some Lt | Some Eq => true | _ => false end)
  | None => Raise (TypeError "'>=' not supported between instances")
  end.

(** ** [PayShackClient] ([app/integrations/payshack/client.py]) *)

Module PayShackClient.

Record Client : Type := mkClient {
  email : string;
  password : string;
  base_url : string;
  _token : pyval;
  _client_id : pyval;
  _refresh_token : pyval;
  _token_expires_at : option datetime;
  sent : list Request                  (* every request made, oldest first *)
}.

Definition minutes (n : Z) : Z := n * 60000000.

Definition set_sent (c : Client) (l : list Request) : Client :=
  {| email := email c; password := password c; base_url := base_url c;
     _token := _token c; _client_id := _client_id c;
     _refresh_token := _refresh_token c;
     _token_expires_at := _token_expires_at c; sent := l |}.

Definition set_auth (c : Client) (token client_id refresh : pyval)
    (expires : option datetime) : Client :=
  {| email := email c; password := password c; base_url := base_url c;
     _token := token; _client_id := client_id; _refresh_token := refresh;
     _token_expires_at := expires; sent := sent c |}.

Definition send (srv : Server) (c : Client) (req : Request) : Client * http_reply :=
  (set_sent c (sent c ++ [req])%list, respond srv (sent c) req).

Definition login_request (c : Client) : Request :=
  {| method := "POST";
     url := base_url c +:+ "/indigate-user-svc/api/v1/auth/login";
     params := [];
     auth_token := PNone;
     reseller_id := PNone;
     json_body := [("email", PStr (email c)); ("password", PStr (password c))] |}.

(** The body of [login]. *)
Definition login_once (srv : Server) (c : Client) : Client * result pyval :=
  let '(c1, reply) := send srv c (login_request c) in
  match checked_body reply with
  | Ok data =>
      match py_get data "success" PNone with
      | Raise e => (c1, Raise e)
      | Ok success =>
          if negb (truthy success)
          then (c1, Raise (PayShackAPIError "Login failed" None))
          else
            match py_get data "data" (PDict []) with
            | Raise e => (c1, Raise e)
            | Ok auth_data =>
                match py_get auth_data "token" PNone,
                      py_get auth_data "clientId" PNone,
                      py_get auth_data "refreshToken" PNone with
                | Ok token, Ok client_id, Ok refresh =>
                    (set_auth c1 token client_id refresh
                       (Some (clock srv (sent c1) + minutes 30)),
                     Ok auth_data)
                | Raise e, _, _ | _, Raise e, _ | _, _, Raise e => (c1, Raise e)
                end
            end
      end
  | Raise (HTTPStatusError code) =>
      (c1, Raise (PayShackAPIError ("Login HTTP error: " +:+ pretty code) (Some code)))
  | Raise (TimeoutException m) | Raise (ConnectError m) | Raise (RequestError m) =>
      (c1, Raise (PayShackAPIError ("Login request failed: " +:+ m) None))
  | Raise e => (c1, Raise e)
  end.

Definition login (srv : Server) (c : Client) : Client * result pyval :=
  retrying 3 (login_once srv) c.

(** [_is_token_expired], with its five minutes of margin. *)
Definition _is_token_expired (srv : Server) (c : Client) : bool :=
  match _token_expires_at c with
  | None => true
  | Some t => t - minutes 5 <=? clock srv (sent c)
  end.

Definition _ensure_auth (srv : Server) (c : Client) : Client * result unit :=
  if negb (truthy (_token c)) || _is_token_expired srv c
  then let '(c', r) := login srv c in
       (c', match r with Ok _ => Ok tt | Raise e => Raise e end)
  else (c, Ok tt).

(** The two transaction endpoints differ in the path and the filters. *)
Inductive Endpoint : Type := PayIn | PayOut.

Definition endpoint_path (ep : Endpoint) : string :=
  match ep with
  | PayIn => "/indigate-payin-svc/api/v1/payin/transaction/fetch"
  | PayOut => "/indigate-payout-svc/api/v1/wallet/transactions"
  end.

Definition endpoint_name (ep : Endpoint) : string :=
  match ep with PayIn => "Pay-In" | PayOut => "Payout" end.

(** The keyword arguments of a page fetch. *)
Record Query : Type := mkQuery {
  q_page : Z;
  q_limit : Z;
  q_status : pyval;
  q_date_from : pyval;
  q_date_to : pyval;
  q_order_id : pyval;          (* Pay-In only *)
  q_transaction_id : pyval     (* Pay-In only *)
}.

Definition opt_param (name : string) (v : pyval) : list (string * pyval) :=
  if truthy v then [(name, v)] else [].

Definition page_request (ep : Endpoint) (c : Client) (q : Query) : Request :=
  {| method := "GET";
     url := base_url c +:+ endpoint_path ep;
     params :=
       ([("page", PInt (q_page q)); ("limit", PInt (Z.min (q_limit q) 100))]
        ++ opt_param "status" (q_status q)
        ++ opt_param "dateFrom" (q_date_from q)
        ++ opt_param "dateTo" (q_date_to q)
        ++ match ep with
           | PayIn => opt_param "orderId" (q_order_id q)
                      ++ opt_param "transactionId" (q_transaction_id q)
           | PayOut => []
           end)%list;
     auth_token := _token c;
     reseller_id := _client_id c;
     json_body := [] |}.

(** The [try] block of a page fetch, from the checked body on. *)
Definition page_result (ep : Endpoint) (data : pyval) : result pyval :=
  let* success := py_get data "success" PNone in
  if negb (truthy success)
  then Raise (PayShackAPIError ("Fetch failed: " +:+ endpoint_name ep) None)
  else
    let* res := py_get data "data" (PDict []) in
    let* transactions := py_get res "transactions" (PList []) in
    let* _count := py_len transactions in
    Ok res.

(** [get_payin_transactions] and [get_payout_transactions]: the decorated
    method, which on a 401 or 403 drops the token, authenticates and calls
    itself with the same arguments.  [depth] is what is left of the
    interpreter's recursion limit. *)
Fixpoint fetch_page (depth : nat) (srv : Server) (ep : Endpoint) (q : Query)
    (c : Client) : Client * result pyval :=
  match depth with
  | O => (c, Raise (RecursionError "maximum recursion depth exceeded"))
  | S depth' =>
      retrying 3
        (fun c =>
           match _ensure_auth srv c with
           | (c1, Raise e) => (c1, Raise e)
           | (c1, Ok _) =>
               let '(c2, reply) := send srv c1 (page_request ep c1 q) in
               match (let* data := checked_body reply in page_result ep data) with
               | Ok res => (c2, Ok res)
               | Raise (HTTPStatusError code) =>
                   if (code =? 401) || (code =? 403) then
                     let c3 := set_auth c2 PNone (_client_id c2) (_refresh_token c2)
                                        (_token_expires_at c2) in
                     match _ensure_auth srv c3 with
                     | (c4, Raise e) => (c4, Raise e)
                     | (c4, Ok _) => fetch_page depth' srv ep q c4
                     end
                   else
                     (c2, Raise (PayShackAPIError
                                   (endpoint_name ep +:+ " HTTP error: " +:+ pretty code)
                                   (Some code)))
               | Raise (TimeoutException m) | Raise (ConnectError m)
               | Raise (RequestError m) =>
                   (c2, Raise (PayShackAPIError
                                 (endpoint_name ep +:+ " request failed: " +:+ m) None))
               | Raise e => (c2, Raise e)
               end
           end)
        c
  end.

(** One pass through the body of a page fetch, with the recursive call
    left as it is. *)
Definition fetch_body (depth' : nat) (srv : Server) (ep : Endpoint) (q : Query)
    (c : Client) : Client * result pyval :=
  match _ensure_auth srv c with
  | (c1, Raise e) => (c1, Raise e)
  | (c1, Ok _) =>
      let '(c2, reply) := send srv c1 (page_request ep c1 q) in
      match (let* data := checked_body reply in page_result ep data) with
      | Ok res => (c2, Ok res)
      | Raise (HTTPStatusError code) =>
          if (code =? 401) || (code =? 403) then
            let c3 := set_auth c2 PNone (_client_id c2) (_refresh_token c2)
                               (_token_expires_at c2) in
            match _ensure_auth srv c3 with
            | (c4, Raise e) => (c4, Raise e)
            | (c4, Ok _) => fetch_page depth' srv ep q c4
            end
          else
            (c2, Raise (PayShackAPIError
                          (endpoint_name ep +:+ " HTTP error: " +:+ pretty code)
                          (Some code)))
      | Raise (TimeoutException m) | Raise (ConnectError m)
      | Raise (RequestError m) =>
          (c2, Raise (PayShackAPIError
                        (endpoint_name ep +:+ " request failed: " +:+ m) None))
      | Raise e => (c2, Raise e)
      end
  end.


Definition get_payout_transactions (depth : nat) (srv : Server) (q : Query) (c : Client)
    : Client * result pyval := fetch_page depth srv PayOut q c.

Definition with_page (q : Query) (page : Z) : Query :=
  {| q_page := page; q_limit := q_limit q; q_status := q_status q;
     q_date_from := q_date_from q; q_date_to := q_date_to q;
     q_order_id := q_order_id q; q_transaction_id := q_transaction_id q |}.

(** The loop of [get_all_payin_transactions] and
    [get_all_payout_transactions], [while page <= max_pages]; [budget] is
    the number of page numbers from [page] to [max_pages]. *)
Fixpoint pages_loop (budget : nat) (depth : nat) (srv : Server) (ep : Endpoint)
    (filters : Query) (max_pages : Z) (page : Z) (c : Client)
    : Client * Pagination Z :=
  match budget with
  | O => (c, mkPagination [] [] 0 CeilingReached)
  | S budget' =>
      if negb (page <=? max_pages) then (c, mkPagination [] [] 0 CeilingReached)
      else
        match fetch_page depth srv ep (with_page filters page) c with
        | (c1, Raise e) => (c1, mkPagination [] [] 1 (Raised e))
        | (c1, Ok res) =>
            match py_get res "transactions" (PList []) with
            | Raise e => (c1, mkPagination [] [(page, res)] 1 (Raised e))
            | Ok transactions =>
                if negb (truthy transactions)
                then (c1, mkPagination [] [(page, res)] 1 EmptyPage)
                else
                  match (let* total_pages := py_get res "totalPages" (PInt 1) in
                         int_ge page total_pages) with
                  | Raise e =>
                      (c1, mkPagination [transactions] [(page, res)] 1 (Raised e))
                  | Ok true =>
                      (c1, mkPagination [transactions] [(page, res)] 1 LastPage)
                  | Ok false =>
                      let '(c2, rest) :=
                        pages_loop budget' depth srv ep filters max_pages (page + 1) c1 in
                      (c2, {| yielded := transactions :: yielded rest;
                              trace := (page, res) :: trace rest;
                              calls := S (calls rest);
                              stop := stop rest |})
                  end
            end
        end
  end.

Definition get_all_transactions (depth : nat) (srv : Server) (ep : Endpoint)
    (start_page max_pages : Z) (filters : Query) (c : Client)
    : Client * Pagination Z :=
  pages_loop (Z.to_nat (max_pages - start_page + 1)) depth srv ep filters
             max_pages start_page c.

Definition get_all_payin_transactions (depth : nat) (srv : Server)
    (start_page max_pages : Z) (filters : Query) (c : Client) :=
  get_all_transactions depth srv PayIn start_page max_pages filters c.

Definition get_all_payout_transactions (depth : nat) (srv : Server)
    (start_page max_pages : Z) (filters : Query) (c : Client) :=
  get_all_transactions depth srv PayOut start_page max_pages filters c.

End PayShackClient.

(** ** [VimaClient] ([app/integrations/vima/client.py]) *)

Module VimaClient.

Record Client : Type := mkClient {
  api_key : string;
  base_url : string;
  sent : list Request
}.

(** The keyword arguments of [get_operations] other than the cursor; the
    dates are given as their ISO text. *)
Record Filters : Type := mkFilters {
  f_project : pyval;
  f_status : pyval;
  f_date : pyval;
  f_from : pyval;
  f_to : pyval;
  f_update_cursor : pyval
}.

Definition opt_param (name : string) (v : pyval) : list (string * pyval) :=
  if truthy v then [(name, v)] else [].

Definition operations_request (c : Client) (filters : Filters) (count : Z)
    (descending : bool) (cursor : pyval) : Request :=
  {| method := "GET";
     url := base_url c +:+ "/operation";
     params :=
       ([("apikey", PStr (api_key c)); ("count", PInt (Z.min count 100));
         ("descending", PStr (if descending then "true" else "false"))]
        ++ opt_param "project" (f_project filters)
        ++ opt_param "status" (f_status filters)
        ++ opt_param "date" (f_date filters)
        ++ opt_param "from" (f_from filters)
        ++ opt_param "to" (f_to filters)
        ++ opt_param "from_operation_create_id" cursor
        ++ opt_param "from_operation_update_id" (f_update_cursor filters))%list;
     auth_token := PNone;
     reseller_id := PNone;
     json_body := [] |}.

(** The body of [get_operations]: a list as it is, the [operations] of a
    wrapping object, else the empty list. *)
Definition get_operations_once (srv : Server) (filters : Filters) (count : Z)
    (descending : bool) (cursor : pyval) (c : Client) : Client * result pyval :=
  let req := operations_request c filters count descending cursor in
  let c1 := {| api_key := api_key c; base_url := base_url c;
               sent := (sent c ++ [req])%list |} in
  match checked_body (respond srv (sent c) req) with
  | Ok (PList l) => (c1, Ok (PList l))
  | Ok (PDict kv) =>
      (c1, Ok (match assoc "operations" kv with Some ops => ops | None => PList [] end))
  | Ok _ => (c1, Ok (PList []))
  | Raise (HTTPStatusError code) =>
      (c1, Raise (VimaAPIError ("Vima API error: " +:+ pretty code) (Some code)))
  | Raise (TimeoutException m) | Raise (ConnectError m) | Raise (RequestError m) =>
      (c1, Raise (VimaAPIError ("Vima request failed: " +:+ m) None))
  | Raise e => (c1, Raise e)
  end.

Definition get_operations (srv : Server) (filters : Filters) (count : Z)
    (descending : bool) (cursor : pyval) (c : Client) : Client * result pyval :=
  retrying 3 (get_operations_once srv filters count descending cursor) c.

(** [operations[-1].get("operation_create_id")] on a truthy [operations]. *)
Definition last_create_id (operations : pyval) : result pyval :=
  match operations with
  | PList l =>
      match last l with
      | Some last_op => py_get last_op "operation_create_id" PNone
      | None => Raise (IndexError "list index out of range")
      end
  | PStr _ => Raise (AttributeError "'str' object has no attribute 'get'")
  | PDict _ => Raise (KeyError "-1")
  | _ => Raise (TypeError "object is not subscriptable")
  end.

(** The loop of [get_all_operations], [while batch_count < max_batches];
    [budget] is [max_batches - batch_count]. *)
Fixpoint operations_loop (budget : nat) (srv : Server) (filters : Filters)
    (batch_size : Z) (cursor : pyval) (c : Client) : Client * Pagination pyval :=
  match budget with
  | O => (c, mkPagination [] [] 0 CeilingReached)
  | S budget' =>
      match get_operations srv filters batch_size false cursor c with
      | (c1, Raise e) => (c1, mkPagination [] [] 1 (Raised e))
      | (c1, Ok operations) =>
          if negb (truthy operations)
          then (c1, mkPagination [] [(cursor, operations)] 1 EmptyPage)
          else
            match last_create_id operations with
            | Raise e =>
                (c1, mkPagination [operations] [(cursor, operations)] 1 (Raised e))
            | Ok new_cursor =>
                if negb (truthy new_cursor) || py_eqb new_cursor cursor
                then (c1, mkPagination [operations] [(cursor, operations)] 1
                                       CursorStalled)
                else
                  let '(c2, rest) :=
                    operations_loop budget' srv filters batch_size new_cursor c1 in
                  (c2, after_page cursor operations rest)
            end
      end
  end.

Definition get_all_operations (srv : Server) (from_operation_create_id : pyval)
    (batch_size max_batches : Z) (filters : Filters) (c : Client)
    : Client * Pagination pyval :=
  operations_loop (Z.to_nat max_batches) srv filters batch_size
                  from_operation_create_id c.

End VimaClient.


(** ** Sample servers, used by the examples below *)

Module Servers.
Import PayShackClient.

Definition login_ok_body : pyval :=
  PDict [("success", PBool true);
         ("data", PDict [("token", PStr "jwt"); ("clientId", PStr "R-1");
                         ("refreshToken", PStr "rt"); ("role", PStr "reseller")])].

Definition page_ok_body : pyval :=
  PDict [("success", PBool true);
         ("data", PDict [("transactions", PList [Payloads.payin_raw]);
                         ("totalPages", PInt 1); ("totalRecords", PInt 1)])].

Definition count_gets (history : list Request) : nat :=
  length (filter (fun r => method r = "GET") history).

(** Logins always succeed; the first [k] page requests are answered 401,
    the later ones 200. *)
Definition flaky_server (k : nat) : Server :=
  {| respond := fun history req =>
       if String.eqb (method req) "POST" then Reply 200 login_ok_body
       else if (count_gets history <? k)%nat then Reply 401 (PDict [])
       else Reply 200 page_ok_body;
     clock := fun _ => 0 |}.

Definition fresh_client : Client :=
  {| email := "ops@example.com"; password := "secret";
     base_url := "https://api.payshack.in";
     _token := PNone; _client_id := PNone; _refresh_token := PNone;
     _token_expires_at := None; sent := [] |}.

Definition first_page : Query :=
  {| q_page := 1; q_limit := 100; q_status := PNone; q_date_from := PNone;
     q_date_to := PNone; q_order_id := PNone; q_transaction_id := PNone |}.

Definition count_logins (history : list Request) : nat :=
  length (filter (fun r => method r = "POST") history).

(** A PayShack server that never runs out: every page has a transaction
    and the reported total is a million pages. *)
Definition endless_pages : Server :=
  {| respond := fun history req =>
       if String.eqb (method req) "POST" then Reply 200 login_ok_body
       else Reply 200
              (PDict [("success", PBool true);
                      ("data", PDict [("transactions", PList [Payloads.payin_raw]);
                                      ("totalPages", PInt 1000000)])]);
     clock := fun _ => 0 |}.

Definition operation (create_id : pyval) : pyval :=
  PDict [("operation_id", PStr "op"); ("operation_create_id", create_id)].

(** A Vima feed whose cursor advances for ever, and one whose cursor is
    stuck at 7. *)
Definition endless_feed : Server :=
  {| respond := fun history _ =>
       Reply 200 (PList [operation (PInt (Z.of_nat (length history) + 1))]);
     clock := fun _ => 0 |}.

Definition stuck_feed : Server :=
  {| respond := fun _ _ => Reply 200 (PList [operation (PStr "7")]);
     clock := fun _ => 0 |}.

Definition vima_client : VimaClient.Client :=
  {| VimaClient.api_key := "key"; VimaClient.base_url := "https://vima.example/api/v1";
     VimaClient.sent := [] |}.

Definition no_filters : VimaClient.Filters :=
  VimaClient.mkFilters PNone PNone PNone PNone PNone PNone.

End Servers.


(** ** When a pagination loop must stop, as the specification words it *)

(** Vima: the page is empty, or the cursor of its last operation is missing
    or is the cursor that was asked for. *)
Definition vima_must_stop (cursor operations : pyval) : Prop :=
  truthy operations = false \/
  exists new_cursor,
    VimaClient.last_create_id operations = Ok new_cursor /\
    (truthy new_cursor = false \/ py_eqb new_cursor cursor = true).

(** PayShack: the page is empty, or the page number has reached the
    reported total. *)
Definition payshack_must_stop (page : Z) (res : pyval) : Prop :=
  (exists transactions,
     py_get res "transactions" (PList []) = Ok transactions /\
     truthy transactions = false) \/
  (exists total_pages,
     py_get res "totalPages" (PInt 1) = Ok total_pages /\
     int_ge page total_pages = Ok true).


(** ** The matching loop, one Vima transaction at a time

    What lines 86-115 do with a single Vima transaction, given the index:
    nothing when it has no key, a comparison when its key is in the index,
    a [missing_payshack] result when it is not. *)

Definition vima_outcome (run : UUID) (day : date) (index : gmap string Transaction)
    (vima_txn : Transaction) : result (option ReconciliationResult) :=
  if negb (str_truthy (client_operation_id vima_txn)) then Ok None
  else
    match index !! default "" (client_operation_id vima_txn) with
    | Some payshack_txn =>
        let* r := ReconciliationService._compare_transactions run day vima_txn payshack_txn in
        Ok (Some r)
    | None => Ok (Some (ReconciliationService.missing_payshack_result run day vima_txn))
    end.

(** The key under which a PayShack transaction enters the index, if any. *)
Definition index_key (txn : Transaction) : option string :=
  if str_truthy (order_id txn) then order_id txn
  else if str_truthy (client_operation_id txn) then client_operation_id txn
  else None.


(** ** A record bound a second time

    The row that [to_row] gives for the same dict under another id and
    another reading of the clock. *)

Definition rebound (row : Transaction) (new_id : UUID) (now : datetime) : Transaction :=
  {| id := new_id;
     source := source row;
     source_id := source_id row;
     reference_id := reference_id row;
     client_operation_id := client_operation_id row;
     order_id := order_id row;
     project := project row;
     merchant_id := merchant_id row;
     amount := amount row;
     currency := currency row;
     fee := fee row;
     amount_usd := amount_usd row;
     fee_usd := fee_usd row;
     exchange_rate := exchange_rate row;
     status := status row;
     original_status := original_status row;
     user_id := user_id row;
     user_email := user_email row;
     user_phone := user_phone row;
     user_name := user_name row;
     country := country row;
     utr := utr row;
     payment_method := payment_method row;
     payment_product := payment_product row;
     created_at := created_at row;
     updated_at := updated_at row;
     completed_at := completed_at row;
     source_create_cursor := source_create_cursor row;
     source_update_cursor := source_update_cursor row;
     raw_data := raw_data row;
     data_hash := data_hash row;
     ingested_at := now |}.

(** Two rows that agree on the six columns of the Vima [set_]. *)
Definition same_update_columns (a b : Transaction) : Prop :=
  status a = status b /\ original_status a = original_status b /\
  updated_at a = updated_at b /\ completed_at a = completed_at b /\
  source_update_cursor a = source_update_cursor b /\ raw_data a = raw_data b.


(** ** The normalization loops of the sync services

    [sync] and [_sync_date] of [VimaSyncService] (lines 85-95, 350-360) and
    the page loops of [PayShackSyncService] (lines 196-202, 280-286)
    normalize the records of a batch one by one; a record whose
    normalization raises is reported with [raw.get(id_key)] and left out. *)

Definition is_dict (v : pyval) : bool :=
  match v with PDict _ => true | _ => false end.

(** [for raw in records] *)
Definition py_iter (v : pyval) : result (list pyval) :=
  match v with
  | PList l => Ok l
  | PDict kv => Ok (map (fun p => PStr p.1) kv)
  | PStr s =>
      Ok (map (fun c => PStr (String c EmptyString)) (String.list_ascii_of_string s))
  | _ => Raise (TypeError "object is not iterable")
  end.

(** The normalized records, and the skipped ones with what was reported. *)
Fixpoint normalize_each (normalize : pyval -> result Normalized) (id_key : string)
    (records : list pyval) : result (list Normalized * list (pyval * exn)) :=
  match records with
  | [] => Ok ([], [])
  | raw :: rest =>
      match normalize raw with
      | Ok n =>
          let* out := normalize_each normalize id_key rest in
          Ok (n :: out.1, out.2)
      | Raise e =>
          let* ident := py_get raw id_key PNone in
          let* out := normalize_each normalize id_key rest in
          Ok (out.1, (ident, e) :: out.2)
      end
  end.

(** The nested [create_params.params.payment.identifiers] object. *)
Definition create_params_identifiers (raw : pyval) : result pyval :=
  let* create_params := py_get raw "create_params" (PDict []) in
  let* params := py_get create_params "params" (PDict []) in
  let* payment := py_get params "payment" (PDict []) in
  py_get payment "identifiers" (PDict []).


(** ** What a PayShack page fetch can raise

    An API error, an attribute or type error from a body of another shape,
    the decoding error of a 2xx body that is not JSON, or the interpreter's
    recursion error. *)

Definition fetch_error (e : exn) : Prop :=
  match e with
  | PayShackAPIError _ _ | AttributeError _ | TypeError _ | RecursionError _
  | JSONDecodeError _ => True
  | _ => False
  end.

(** The batch that a fetched PayShack page contributes to the generator. *)
Definition page_batch (res : pyval) : option pyval :=
  match py_get res "transactions" (PList []) with
  | Ok transactions => if truthy transactions then Some transactions else None
  | Raise _ => None
  end.


(** ** Decimal numerals

    A plain numeral, as JSON and the providers write an amount: an
    optional minus sign, digits, and a fraction after a point.  It denotes
    the number [digits_number (int_part ++ frac_part)] scaled by ten to the
    minus [length frac_part], negated under the sign. *)

Definition digit_char (d : nat) : ascii := Ascii.ascii_of_nat (48 + d).

Definition digits_number (ds : list nat) : Z :=
  fold_left (fun acc d => 10 * acc + Z.of_nat d) ds 0.

Definition numeral_text (neg : bool) (int_part frac_part : list nat) : string :=
  String.string_of_list_ascii
    ((if neg then ["-"%char] else []) ++ map digit_char int_part ++
     match frac_part with
     | [] => []
     | _ => "."%char :: map digit_char frac_part
     end)%list.

(* ===================================================================== *)
(** * Properties *)
(* ===================================================================== *)

Import Dec ReconciliationService.

(** ** Decimal arithmetic below the context precision *)

Lemma fix_small c e : Z.abs c < 10 ^ 28 -> fix_ c e = Fin c e.
Proof.
  intros H. unfold fix_. change prec with 28.
  destruct (Z.ltb_spec (Z.abs c) (10 ^ 28)); [reflexivity | lia].
Qed.

Lemma gt_fin a ea b eb :
  gt (Fin a ea) (Fin b eb) =
  Ok (b * 10 ^ (eb - Z.min ea eb) <? a * 10 ^ (ea - Z.min ea eb)).
Proof.
  unfold gt, cmp_fin. f_equal.
  rewrite Z.ltb_compare, (Z.compare_antisym (a * _)).
  destruct (_ ?= _); reflexivity.
Qed.

(** ** The comparison of a matched pair *)

Lemma amount_check (A : Type) (k : Decimal -> bool -> result A) cv cp :
  Z.abs cv < 10 ^ 18 -> Z.abs cp < 10 ^ 18 ->
  (let* d := sub (Fin cv (-4)) (Fin cp (-4)) in
   let* diff := abs d in
   let* scaled := mul (Fin cv (-4)) AMOUNT_TOLERANCE_PERCENT in
   let* tolerance := max AMOUNT_TOLERANCE scaled in
   let* over := gt diff tolerance in
   k diff over) = k (Fin (Z.abs (cv - cp)) (-4)) (over_b cv cp).
Proof.
  intros Hv Hp.
  unfold sub, add, copy_negate, AMOUNT_TOLERANCE_PERCENT, AMOUNT_TOLERANCE.
  replace (cv * 10 ^ (-4 - Z.min (-4) (-4)) + - cp * 10 ^ (-4 - Z.min (-4) (-4)))
    with (cv - cp) by (change (10 ^ (-4 - Z.min (-4) (-4))) with 1; lia).
  change (Z.min (-4) (-4)) with (-4).
  rewrite fix_small by lia.
  cbn [bind abs]. rewrite fix_small by lia.
  cbn [bind mul]. rewrite fix_small by lia.
  rewrite Z.mul_1_r. change (-4 + -3) with (-7).
  unfold max. rewrite gt_fin.
  change (10 ^ (-7 - Z.min (-7) (-2))) with 1.
  change (1 * 10 ^ (-2 - Z.min (-7) (-2))) with 100000.
  rewrite Z.mul_1_r. cbn [bind]. unfold over_b.
  destruct (100000 <? cv); cbn [bind]; rewrite gt_fin; f_equal.
  - change (10 ^ (-7 - Z.min (-4) (-7))) with 1.
    change (10 ^ (-4 - Z.min (-4) (-7))) with 1000.
    now rewrite Z.mul_1_r.
  - change (1 * 10 ^ (-2 - Z.min (-4) (-2))) with 100.
    change (10 ^ (-4 - Z.min (-4) (-2))) with 1.
    now rewrite Z.mul_1_r.
Qed.

Lemma over_b_true cv cp :
  over_b cv cp = true <-> spec_amount_mismatch (to_Q cv (-4)) (to_Q cp (-4)).
Proof.
  unfold spec_amount_mismatch, spec_tolerance, to_Q.
  change ((10 ^ (-4))%Q) with (1 # 10000)%Q.
  unfold over_b.
  destruct (Q.max_spec (1 # 100) (inject_Z cv * (1 # 10000) * (1 # 1000)))
    as [[Hlt Heq]|[Hle Heq]];
    rewrite Heq; clear Heq.
  - unfold Qlt in *. cbn in *.
    destruct (Z.ltb_spec 100000 cv); rewrite ?Z.ltb_lt; lia.
  - unfold Qle, Qlt in *. cbn in *.
    destruct (Z.ltb_spec 100000 cv); rewrite ?Z.ltb_lt; lia.
Qed.

(** C2. For a pair of amounts as the store holds them (NUMERIC(18,4): scale
    4, at most 18 digits) the comparison returns a result, and it
    declares an amount mismatch exactly when
    [|amountA - amountB| > max(0.01, amountA * 0.001)] over the rationals.
    A difference equal to the tolerance, with equal statuses, is [matched];
    a difference of the tolerance plus 0.01 is a [discrepancy] of kind
    [amount]. *)
Theorem compare_amount_tolerance run day v p cv cp :
  amount v = Fin cv (-4) -> amount p = Fin cp (-4) ->
  Z.abs cv < 10 ^ 18 -> Z.abs cp < 10 ^ 18 ->
  let a := to_Q cv (-4) in
  let b := to_Q cp (-4) in
  exists r, _compare_transactions run day v p = Ok r /\
    (discrepancy_type r = Some "amount" <-> spec_amount_mismatch a b) /\
    ((Qabs (a - b) == spec_tolerance a)%Q -> status v = status p ->
       match_status r = "matched") /\
    ((Qabs (a - b) == spec_tolerance a + (1 # 100))%Q ->
       match_status r = "discrepancy" /\ discrepancy_type r = Some "amount").
Proof.
  intros Hv Hp Bv Bp a b. unfold _compare_transactions.
  rewrite Hv, Hp, amount_check by assumption.
  pose proof (over_b_true cv cp) as Hover. fold a b in Hover.
  assert (Heq : (Qabs (a - b) == spec_tolerance a)%Q -> over_b cv cp = false).
  { intros E. apply not_true_is_false. intros Ho.
    apply Hover in Ho. unfold spec_amount_mismatch in Ho. rewrite E in Ho.
    apply (Qlt_irrefl _ Ho). }
  assert (Hgt : (Qabs (a - b) == spec_tolerance a + (1 # 100))%Q -> over_b cv cp = true).
  { intros E. apply Hover. unfold spec_amount_mismatch. rewrite E.
    rewrite <- (Qplus_0_r (spec_tolerance a)) at 1.
    apply Qplus_lt_r. reflexivity. }
  destruct (over_b cv cp) eqn:Ho.
  - eexists; split; [reflexivity|]. cbn.
    split; [split; [intros _; apply Hover; reflexivity | reflexivity]|].
    split; [intros E; specialize (Heq E); discriminate | auto].
  - assert (Hno : ~ spec_amount_mismatch a b)
      by (intros M; apply Hover in M; discriminate).
    destruct (String.eqb (status v) (status p)) eqn:Hs; cbn;
      (eexists; split; [reflexivity|]); cbn;
      (split; [split; [discriminate | intros M; destruct (Hno M)]|]);
      (split; [| intros E; specialize (Hgt E); discriminate]).
    + reflexivity.
    + intros _ Est. rewrite Est, String.eqb_refl in Hs. discriminate.
Qed.

(** C3. A pair that differs in amount beyond the tolerance and also in
    canonical status is a [discrepancy] whose kind is [amount], not
    [status]; both differences are kept in the details. *)
Theorem compare_precedence run day v p cv cp :
  amount v = Fin cv (-4) -> amount p = Fin cp (-4) ->
  Z.abs cv < 10 ^ 18 -> Z.abs cp < 10 ^ 18 ->
  spec_amount_mismatch (to_Q cv (-4)) (to_Q cp (-4)) ->
  status v <> status p ->
  exists r, _compare_transactions run day v p = Ok r /\
    match_status r = "discrepancy" /\
    discrepancy_type r = Some "amount" /\
    discrepancy_type r <> Some "status" /\
    details r = Some ["amount"; "status"].
Proof.
  intros Hv Hp Bv Bp Hm Hs. unfold _compare_transactions.
  rewrite Hv, Hp, amount_check by assumption.
  apply over_b_true in Hm. rewrite Hm.
  apply String.eqb_neq in Hs. rewrite Hs. cbn.
  eexists; split; [reflexivity|]. cbn. repeat split; discriminate.
Qed.

(** ** The matching loop *)

Lemma compare_ids run day v p r :
  _compare_transactions run day v p = Ok r ->
  vima_txn_id r = Some (id v) /\ payshack_txn_id r = Some (id p) /\
  (match_status r = "matched" \/ match_status r = "discrepancy").
Proof.
  unfold _compare_transactions, bind. intros H.
  repeat match type of H with
  | match ?x with _ => _ end = _ => destruct x eqn:?; try discriminate
  end;
  inversion H; subst; cbn; auto.
Qed.

Lemma match_loop_skip run day idx l1 v l2 : forall rs m,
  client_operation_id v = None ->
  match_loop run day idx (l1 ++ v :: l2) rs m = match_loop run day idx (l1 ++ l2) rs m.
Proof.
  induction l1 as [|t l1 IH]; intros rs m Hv; cbn [app match_loop].
  - rewrite Hv. reflexivity.
  - destruct (negb (str_truthy (client_operation_id t))); [now apply IH|].
    destruct (idx !! _); [|now apply IH].
    destruct (_compare_transactions run day t t0); cbn [bind]; [now apply IH | reflexivity].
Qed.

(** Where the results and the matched ids of the loop come from. *)
Lemma match_loop_sources run day idx l : forall rs m rs' m',
  match_loop run day idx l rs m = Ok (rs', m') ->
  (forall r, In r rs' ->
     In r rs \/
     (exists t, In t l /\ vima_txn_id r = Some (id t) /\
        (payshack_txn_id r = None \/
         exists k p, idx !! k = Some p /\ payshack_txn_id r = Some (id p)))) /\
  (forall i, i ∈ m' -> i ∈ m \/ exists k p, idx !! k = Some p /\ i = id p).
Proof.
  induction l as [|t l IH]; intros rs m rs' m' H; cbn [match_loop] in H.
  - inversion H; subst. split; auto.
  - destruct (negb (str_truthy (client_operation_id t))).
    { apply IH in H as [H1 H2]. split; [|exact H2].
      intros r Hr. destruct (H1 r Hr) as [?|(t' & ? & ?)]; [auto|].
      right. exists t'. split; [now right | assumption]. }
    destruct (idx !! default "" (client_operation_id t)) as [p|] eqn:Hidx.
    + destruct (_compare_transactions run day t p) as [r0|] eqn:Hc; cbn [bind] in H;
        [|discriminate].
      apply compare_ids in Hc as (Hv & Hp & _).
      apply IH in H as [H1 H2]. split.
      * intros r Hr. destruct (H1 r Hr) as [Hin|(t' & ? & ?)].
        -- apply in_app_or in Hin as [?|[<-|[]]]; [auto|].
           right. exists t. split; [now left|]. split; [assumption|].
           right. eauto.
        -- right. exists t'. split; [now right | assumption].
      * intros i Hi. destruct (H2 i Hi) as [Hin|?]; [|auto].
        apply elem_of_union in Hin as [Hin|?]; [|auto].
        apply elem_of_singleton in Hin. right. eauto.
    + apply IH in H as [H1 H2]. split; [|exact H2].
      intros r Hr. destruct (H1 r Hr) as [Hin|(t' & ? & ?)].
      * apply in_app_or in Hin as [?|[<-|[]]]; [auto|].
        right. exists t. split; [now left|]. cbn. auto.
      * right. exists t'. split; [now right | assumption].
Qed.

(** C7. A Vima transaction loaded for the day whose [client_operation_id]
    is null changes nothing in the pass: the results, and so the matched,
    discrepancies and missing_payshack counts taken from them, are those of
    the pass without it, and no result refers to it. *)
Theorem keyless_vima_excluded run day l1 v l2 ps :
  client_operation_id v = None ->
  reconcile run day (l1 ++ v :: l2) ps = reconcile run day (l1 ++ l2) ps /\
  (forall rs rs' s,
     reconcile run day (l1 ++ v :: l2) ps = Ok rs ->
     reconcile run day (l1 ++ l2) ps = Ok rs' ->
     count_status s rs = count_status s rs') /\
  (~ In (id v) (map id (l1 ++ l2)) ->
   forall rs, reconcile run day (l1 ++ v :: l2) ps = Ok rs ->
   forall r, In r rs -> vima_txn_id r <> Some (id v)).
Proof.
  intros Hv.
  assert (Heq : reconcile run day (l1 ++ v :: l2) ps = reconcile run day (l1 ++ l2) ps)
    by (unfold reconcile; now rewrite match_loop_skip).
  split; [exact Heq|]. split.
  - intros rs rs' s H1 H2. rewrite Heq, H2 in H1. now injection H1 as ->.
  - intros Hfresh rs. unfold reconcile. rewrite match_loop_skip by assumption.
    destruct (match_loop _ _ _ _ _ _) as [[rs1 m1]|] eqn:Hl; cbn [bind]; [|discriminate].
    intros [= <-] r Hr E. cbn [fst snd] in Hr.
    apply in_app_or in Hr as [Hr|Hr].
    + apply match_loop_sources in Hl as [H1 _].
      destruct (H1 r Hr) as [[]|(t & Ht & Hid & _)].
      rewrite Hid in E. injection E as E. apply Hfresh. rewrite <- E.
      now apply in_map.
    + unfold missing_vima_results in Hr. apply in_map_iff in Hr as (t & <- & _).
      discriminate.
Qed.

(** Every transaction in the index came from the list and has a key. *)
Lemma build_index_values ps k t :
  build_index ps !! k = Some t ->
  In t ps /\ (str_truthy (order_id t) = true \/ str_truthy (client_operation_id t) = true).
Proof.
  unfold build_index.
  enough (G : forall l (idx : gmap string Transaction) (seen : list Transaction),
    (forall k t, idx !! k = Some t ->
       In t seen /\ (str_truthy (order_id t) = true \/ str_truthy (client_operation_id t) = true)) ->
    forall k t,
      fold_left
        (fun index txn =>
           if str_truthy (order_id txn) then <[default "" (order_id txn) := txn]> index
           else if str_truthy (client_operation_id txn)
           then <[default "" (client_operation_id txn) := txn]> index
           else index) l idx !! k = Some t ->
      In t (seen ++ l) /\
      (str_truthy (order_id t) = true \/ str_truthy (client_operation_id t) = true)).
  { intros H. eapply (G ps ∅ []); [|exact H]. intros k0 t0 E.
    rewrite lookup_empty in E. discriminate. }
  induction l as [|x l IH]; intros idx seen Hinv k0 t0 E; cbn [fold_left] in E.
  - rewrite app_nil_r. eauto.
  - replace (seen ++ x :: l)%list with ((seen ++ [x]) ++ l)%list
      by (rewrite <- app_assoc; reflexivity).
    eapply IH; [|exact E]. clear E k0 t0.
    intros k1 t1 E.
    assert (Hold : forall k t, idx !! k = Some t ->
      In t (seen ++ [x]) /\
      (str_truthy (order_id t) = true \/ str_truthy (client_operation_id t) = true)).
    { intros k2 t2 E2. destruct (Hinv k2 t2 E2). split; [apply in_or_app|]; auto. }
    destruct (str_truthy (order_id x)) eqn:Ho.
    + destruct (decide (default "" (order_id x) = k1)) as [<-|Hne].
      * rewrite lookup_insert_eq in E. injection E as <-.
        split; [apply in_or_app; right; now left | auto].
      * rewrite lookup_insert_ne in E by assumption. eauto.
    + destruct (str_truthy (client_operation_id x)) eqn:Hc; [|eauto].
      destruct (decide (default "" (client_operation_id x) = k1)) as [<-|Hne].
      * rewrite lookup_insert_eq in E. injection E as <-.
        split; [apply in_or_app; right; now left | auto].
      * rewrite lookup_insert_ne in E by assumption. eauto.
Qed.

Lemma id_unique (ps : list Transaction) p t :
  NoDup (map id ps) -> In p ps -> In t ps -> id t = id p -> t = p.
Proof.
  induction ps as [|x ps IH]; intros Hnd Hp Ht E; [destruct Hp|].
  cbn in Hnd. apply NoDup_cons in Hnd as [Hx Hnd].
  destruct Hp as [->|Hp], Ht as [->|Ht]; auto.
  - exfalso. apply Hx. rewrite <- E. apply list_elem_of_In. now apply in_map.
  - exfalso. apply Hx. rewrite E. apply list_elem_of_In. now apply in_map.
Qed.


Lemma missing_vima_none run day ps (m : gset UUID) i :
  ~ In i (map id ps) ->
  filter (fun r => payshack_txn_id r = Some i) (missing_vima_results run day ps m) = [].
Proof.
  unfold missing_vima_results. induction ps as [|x ps IH]; intros Hni; [reflexivity|].
  cbn in Hni. rewrite filter_cons.
  destruct (decide (id x ∉ m)); [|apply IH; tauto].
  cbn [map]. rewrite filter_cons.
  destruct (decide (payshack_txn_id (missing_vima_result run day x) = Some i)) as [E|_];
    [|apply IH; tauto].
  cbn in E. injection E as E. tauto.
Qed.

Lemma missing_vima_once run day ps (m : gset UUID) p :
  NoDup (map id ps) -> In p ps -> id p ∉ m ->
  filter (fun r => payshack_txn_id r = Some (id p)) (missing_vima_results run day ps m)
  = [missing_vima_result run day p].
Proof.
  induction ps as [|x ps IH]; intros Hnd Hp Hm; [destruct Hp|].
  cbn in Hnd. apply NoDup_cons in Hnd as [Hx Hnd].
  rewrite list_elem_of_In in Hx.
  unfold missing_vima_results in *. rewrite filter_cons.
  destruct Hp as [->|Hp].
  - destruct (decide (id p ∉ m)); [|contradiction].
    cbn [map]. rewrite filter_cons.
    destruct (decide (payshack_txn_id (missing_vima_result run day p) = Some (id p)));
      [|cbn in *; congruence].
    f_equal. now apply missing_vima_none.
  - assert (Hne : id x <> id p).
    { intros E. apply Hx. rewrite E. now apply in_map. }
    destruct (decide (id x ∉ m)); [|now apply IH].
    cbn [map]. rewrite filter_cons.
    destruct (decide (payshack_txn_id (missing_vima_result run day x) = Some (id p))) as [E|_];
      [cbn in E; congruence | now apply IH].
Qed.

Lemma filter_none {A} (P : A -> Prop) `{forall x, Decision (P x)} (l : list A) :
  (forall x, In x l -> ~ P x) -> filter P l = [].
Proof.
  induction l as [|x l IH]; intros Hl; [reflexivity|].
  rewrite filter_cons. destruct (decide (P x)) as [Hp|_].
  - destruct (Hl x (or_introl eq_refl) Hp).
  - apply IH. intros y Hy. apply Hl. now right.
Qed.

(** C10. A PayShack transaction loaded for the day whose [order_id] and
    [client_operation_id] are both null never enters the match index, and a
    pass that completes emits exactly one result for it, a [missing_vima]
    one with no Vima side (ids being the primary key of the loaded rows). *)
Theorem keyless_payshack_missing_vima run day vs ps p rs :
  NoDup (map id ps) -> In p ps ->
  order_id p = None -> client_operation_id p = None ->
  reconcile run day vs ps = Ok rs ->
  (forall k, build_index ps !! k <> Some p) /\
  filter (fun r => payshack_txn_id r = Some (id p)) rs = [missing_vima_result run day p] /\
  (forall r, In r rs -> payshack_txn_id r = Some (id p) ->
     match_status r = "missing_vima" /\ vima_txn_id r = None).
Proof.
  intros Hnd Hp Ho Hc Hrec.
  assert (Hidx : forall k t, build_index ps !! k = Some t -> id t <> id p).
  { intros k t E Eid. apply build_index_values in E as [Ht Hkey].
    assert (t = p) by (now apply (id_unique ps)). subst t.
    rewrite Ho, Hc in Hkey. cbn in Hkey. destruct Hkey; discriminate. }
  unfold reconcile in Hrec.
  destruct (match_loop _ _ _ _ _ _) as [[rs1 m1]|] eqn:Hl; cbn [bind] in Hrec;
    [|discriminate].
  injection Hrec as <-. cbn [fst snd].
  apply match_loop_sources in Hl as [H1 H2].
  assert (Hm : id p ∉ m1).
  { intros Hin. destruct (H2 _ Hin) as [Hin'|(k & t & E & Eid)].
    - now apply not_elem_of_empty in Hin'.
    - now apply (Hidx k t E). }
  assert (Hrs1 : forall r, In r rs1 -> payshack_txn_id r <> Some (id p)).
  { intros r Hr E. destruct (H1 r Hr) as [[]|(t & _ & _ & [En|(k & q & Eq & Ep)])].
    - congruence.
    - rewrite Ep in E. injection E as E. now apply (Hidx k q Eq). }
  assert (Hfilter : filter (fun r => payshack_txn_id r = Some (id p))
                      (rs1 ++ missing_vima_results run day ps m1)%list
                    = [missing_vima_result run day p]).
  { rewrite filter_app, (filter_none _ rs1) by exact Hrs1.
    now apply missing_vima_once. }
  split; [|split].
  - intros k E. now apply (Hidx k p E).
  - exact Hfilter.
  - intros r Hr E.
    assert (Hin : In r [missing_vima_result run day p]).
    { rewrite <- Hfilter. apply list_elem_of_In, list_elem_of_filter.
      split; [exact E | now apply list_elem_of_In]. }
    destruct Hin as [<-|[]]. split; reflexivity.
Qed.

(** ** Failure of a pass *)



Lemma rollback_run_id s :
  run_id (run_object (rollback s)) = run_id (run_object s).
Proof.
  unfold rollback. cbn.
  destruct (find _ _) as [x|] eqn:E; [|reflexivity]. cbn.
  apply find_some in E as [_ E]. now apply Z.eqb_eq in E.
Qed.


(** ** The reconciliation properties on the sample rows *)

Import Samples.

Lemma compare_amount_tolerance_witness :
  exists r, _compare_transactions 7 20000 v_100 p_100_1 = Ok r /\
    (discrepancy_type r = Some "amount" <->
       spec_amount_mismatch (to_Q 1000000 (-4)) (to_Q 1001000 (-4))) /\
    ((Qabs (to_Q 1000000 (-4) - to_Q 1001000 (-4)) == spec_tolerance (to_Q 1000000 (-4)))%Q ->
       status v_100 = status p_100_1 -> match_status r = "matched") /\
    ((Qabs (to_Q 1000000 (-4) - to_Q 1001000 (-4))
        == spec_tolerance (to_Q 1000000 (-4)) + (1 # 100))%Q ->
       match_status r = "discrepancy" /\ discrepancy_type r = Some "amount").
Proof.
  apply (compare_amount_tolerance 7 20000 v_100 p_100_1 1000000 1001000);
    [reflexivity | reflexivity | lia | lia].
Defined.

(** The boundary on the sample rows: 100.0000 against 100.1000 is matched,
    against 100.1100 it is an amount discrepancy. *)
Example tolerance_boundary_matched :
  exists r, _compare_transactions 7 20000 v_100 p_100_1 = Ok r /\
            match_status r = "matched".
Proof. eexists; split; [vm_compute; reflexivity | reflexivity]. Qed.

Example tolerance_boundary_exceeded :
  exists r, _compare_transactions 7 20000 v_100 p_100_11 = Ok r /\
            match_status r = "discrepancy" /\ discrepancy_type r = Some "amount".
Proof. eexists; split; [vm_compute; reflexivity | split; reflexivity]. Qed.

Lemma compare_precedence_witness :
  exists r, _compare_transactions 7 20000 v_100 p_100_11_failed = Ok r /\
    match_status r = "discrepancy" /\
    discrepancy_type r = Some "amount" /\
    discrepancy_type r <> Some "status" /\
    details r = Some ["amount"; "status"].
Proof.
  apply (compare_precedence 7 20000 v_100 p_100_11_failed 1000000 1001100);
    [reflexivity | reflexivity | lia | lia | | discriminate].
  vm_compute. reflexivity.
Defined.

Lemma keyless_vima_excluded_witness :
  reconcile 99 20000 ([v_100] ++ v_keyless :: [v_2]) [p_100_1; p_keyless]
    = reconcile 99 20000 ([v_100] ++ [v_2]) [p_100_1; p_keyless] /\
  (forall rs rs' s,
     reconcile 99 20000 ([v_100] ++ v_keyless :: [v_2]) [p_100_1; p_keyless] = Ok rs ->
     reconcile 99 20000 ([v_100] ++ [v_2]) [p_100_1; p_keyless] = Ok rs' ->
     count_status s rs = count_status s rs') /\
  (~ In (id v_keyless) (map id ([v_100] ++ [v_2])) ->
   forall rs,
     reconcile 99 20000 ([v_100] ++ v_keyless :: [v_2]) [p_100_1; p_keyless] = Ok rs ->
     forall r, In r rs -> vima_txn_id r <> Some (id v_keyless)).
Proof.
  apply (keyless_vima_excluded 99 20000 [v_100] v_keyless [v_2] [p_100_1; p_keyless]).
  reflexivity.
Defined.

Lemma keyless_payshack_missing_vima_witness :
  (forall k, build_index [p_100_1; p_keyless] !! k <> Some p_keyless) /\
  filter (fun r => payshack_txn_id r = Some (id p_keyless)) sample_results
    = [missing_vima_result 99 20000 p_keyless] /\
  (forall r, In r sample_results -> payshack_txn_id r = Some (id p_keyless) ->
     match_status r = "missing_vima" /\ vima_txn_id r = None).
Proof.
  apply (keyless_payshack_missing_vima 99 20000 [v_100; v_keyless; v_2]
           [p_100_1; p_keyless] p_keyless sample_results).
  - apply (bool_decide_unpack _). vm_compute. exact I.
  - right. left. reflexivity.
  - reflexivity.
  - reflexivity.
  - vm_compute. reflexivity.
Defined.

(** A pass over the sample rows stops at the pair whose PayShack amount is
    NaN, after the first pair was compared: the run is failed and no result
    row exists. *)
Example failed_pass_sample :
  let '(db', out) := run_for_date sample_db no_faults 99 5 8 20000 in
  out = Failed "InvalidOperation" /\
  reconciliation_results db' = [] /\
  map run_status (reconciliation_runs db') = ["failed"].
Proof. vm_compute. repeat split. Qed.


Example completed_pass_sample :
  let db := {| transactions := [v_100; v_keyless; v_2; p_100_1; p_keyless];
               reconciliation_runs := []; reconciliation_results := [] |} in
  let '(db', out) := run_for_date db no_faults 99 5 8 20000 in
  out = Completed 99 1 0 1 1 /\
  reconciliation_results db' = sample_results.
Proof. vm_compute. repeat split. Qed.

(** ** Division by 100 below the context precision *)

Lemma ndigits_from_le fuel : forall k n K,
  k <= K -> n < 10 ^ K -> 0 <= k -> k <= ndigits_from fuel k n <= K.
Proof.
  induction fuel as [|fuel IH]; intros k n K Hk Hn H0; cbn [ndigits_from]; [lia|].
  destruct (Z.ltb_spec n (10 ^ k)); [lia|].
  assert (k < K).
  { destruct (Z.lt_ge_cases k K) as [|Hge]; [assumption|].
    pose proof (Z.pow_le_mono_r 10 K k ltac:(lia) Hge). lia. }
  specialize (IH (k + 1) n K ltac:(lia) Hn ltac:(lia)). lia.
Qed.

Lemma ndigits_bounds n : n < 10 ^ 28 -> 1 <= ndigits n <= 28.
Proof. intros H. unfold ndigits. apply ndigits_from_le; lia. Qed.




(** ** The normalizers *)

Lemma bind_ok {A B} (m : result A) (f : A -> result B) b :
  bind m f = Ok b -> exists a, m = Ok a /\ f a = Ok b.
Proof. destruct m as [a|e]; cbn; [eauto | discriminate]. Qed.

Ltac peel H :=
  repeat (let x := fresh "x" in let Hx := fresh "Hx" in
          apply bind_ok in H as (x & Hx & H)).


(** ** Numerals and [Decimal(str(v))] *)

Lemma digit_char_code d : (d < 10)%nat -> DecParse.code (digit_char d) = (48 + d)%nat.
Proof.
  intros H. unfold DecParse.code, digit_char. apply Ascii.nat_ascii_embedding. lia.
Qed.

Lemma digit_char_facts d :
  (d < 10)%nat ->
  DecParse.is_digit (digit_char d) = true /\
  DecParse.is_space (digit_char d) = false /\
  Ascii.eqb (digit_char d) "_"%char = false /\
  Ascii.eqb (digit_char d) "-"%char = false /\
  Ascii.eqb (digit_char d) "+"%char = false.
Proof.
  intros H. do 10 (destruct d as [|d]; [vm_compute; auto|]). lia.
Qed.

Lemma span_digits_numeral ds tl :
  Forall (fun d => (d < 10)%nat) ds ->
  match tl with [] => True | c :: _ => DecParse.is_digit c = false end ->
  DecParse.span_digits (map digit_char ds ++ tl) = (map digit_char ds, tl).
Proof.
  intros Hds Htl. induction Hds as [|d ds Hd _ IH]; cbn [map app].
  - destruct tl as [|c tl]; [reflexivity|]. cbn. now rewrite Htl.
  - cbn [DecParse.span_digits].
    destruct (digit_char_facts d Hd) as (-> & _). now rewrite IH.
Qed.

Lemma digits_value_numeral ds : forall acc,
  Forall (fun d => (d < 10)%nat) ds ->
  fold_left (fun acc c => 10 * acc + (Z.of_nat (DecParse.code c) - 48))
            (map digit_char ds) acc
  = fold_left (fun acc d => 10 * acc + Z.of_nat d) ds acc.
Proof.
  induction ds as [|d ds IH]; intros acc Hds; [reflexivity|].
  apply Forall_cons in Hds as [Hd Hds]. cbn [map fold_left].
  rewrite (digit_char_code d Hd), IH by assumption. f_equal. lia.
Qed.

Lemma drop_spaces_id l :
  match l with [] => True | c :: _ => DecParse.is_space c = false end ->
  DecParse.drop_spaces l = l.
Proof. destruct l as [|c l]; [reflexivity|]. cbn. now intros ->. Qed.

Lemma clean_id l :
  Forall (fun c => DecParse.is_space c = false /\ Ascii.eqb c "_"%char = false) l ->
  DecParse.clean l = l.
Proof.
  intros H. unfold DecParse.clean.
  rewrite (drop_spaces_id l) by (destruct H; tauto).
  rewrite (drop_spaces_id (rev l)).
  2:{ destruct (rev l) as [|c r] eqn:E; [exact I|].
      rewrite Forall_forall in H. apply H.
      apply list_elem_of_In, in_rev. rewrite E. now left. }
  rewrite rev_involutive.
  induction H as [|c l [_ Hc] _ IH]; [reflexivity|].
  rewrite filter_cons, IH. rewrite Hc. reflexivity.
Qed.

Lemma numeral_chars_clean (neg : bool) (ip fp : list nat) :
  Forall (fun d => (d < 10)%nat) ip -> Forall (fun d => (d < 10)%nat) fp ->
  Forall (fun c => DecParse.is_space c = false /\ Ascii.eqb c "_"%char = false)
    ((if neg then ["-"%char] else []) ++ map digit_char ip ++
     match fp with [] => [] | _ => "."%char :: map digit_char fp end)%list.
Proof.
  intros Hip Hfp.
  assert (Hd : forall ds, Forall (fun d => (d < 10)%nat) ds ->
            Forall (fun c => DecParse.is_space c = false /\ Ascii.eqb c "_"%char = false)
                   (map digit_char ds)).
  { intros ds Hds. apply Forall_map. eapply Forall_impl; [exact Hds|].
    intros d Hlt. cbn. destruct (digit_char_facts d Hlt) as (_ & ? & ? & _). auto. }
  apply Forall_app. split; [destruct neg; repeat constructor|].
  apply Forall_app. split; [auto|].
  destruct fp; [constructor|]. constructor; [split; reflexivity | auto].
Qed.

(** The constructor reads a plain numeral as the number it denotes. *)
Lemma of_string_numeral (neg : bool) (ip fp : list nat) :
  Forall (fun d => (d < 10)%nat) ip -> Forall (fun d => (d < 10)%nat) fp ->
  ip <> [] ->
  DecParse.of_string (numeral_text neg ip fp)
  = Ok (Fin (if neg then - digits_number (ip ++ fp) else digits_number (ip ++ fp))
            (- Z.of_nat (length fp))).
Proof.
  intros Hip Hfp Hne. unfold DecParse.of_string, numeral_text.
  rewrite String.list_ascii_of_string_of_list_ascii.
  rewrite clean_id by now apply numeral_chars_clean.
  assert (Hsplit : DecParse.split_sign
            ((if neg then ["-"%char] else []) ++ map digit_char ip ++
             match fp with [] => [] | _ => "."%char :: map digit_char fp end)%list
          = (neg, (map digit_char ip ++
                   match fp with [] => [] | _ => "."%char :: map digit_char fp end)%list)).
  { destruct neg; [reflexivity|]. cbn [app].
    destruct ip as [|d ip]; [contradiction|]. apply Forall_cons in Hip as [Hd _].
    cbn [map app DecParse.split_sign].
    destruct (digit_char_facts d Hd) as (_ & _ & _ & -> & ->). reflexivity. }
  rewrite Hsplit. unfold DecParse.parse_number.
  rewrite span_digits_numeral; [|assumption|destruct fp; [exact I | reflexivity]].
  assert (Hfrac : (match
             match fp with [] => [] | _ => "."%char :: map digit_char fp end
           with
           | c :: rest =>
               if Ascii.eqb c "."%char then DecParse.span_digits rest
               else ([], match fp with [] => [] | _ => "."%char :: map digit_char fp end)
           | [] => ([], [])
           end) = (map digit_char fp, [])).
  { destruct fp as [|f fp]; [reflexivity|].
    change (DecParse.span_digits (map digit_char (f :: fp))
            = (map digit_char (f :: fp), [])).
    rewrite <- (app_nil_r (map digit_char (f :: fp))) at 1.
    apply span_digits_numeral; [assumption | exact I]. }
  rewrite Hfrac. rewrite <- map_app.
  destruct (map digit_char (ip ++ fp)) as [|c0 cs] eqn:Hm.
  { destruct ip; [contradiction | discriminate]. }
  rewrite <- Hm. cbn [DecParse.parse_exponent mbind option_bind].
  unfold DecParse.digits_value.
  rewrite digits_value_numeral by (apply Forall_app; split; assumption).
  rewrite length_map. unfold digits_number.
  destruct neg; do 2 f_equal; lia.
Qed.

Lemma pretty_N_char_digit x :
  (x < 10)%N -> pretty_N_char x = digit_char (N.to_nat x).
Proof.
  intros H.
  assert (x = 0 \/ x = 1 \/ x = 2 \/ x = 3 \/ x = 4 \/ x = 5 \/ x = 6 \/ x = 7
          \/ x = 8 \/ x = 9)%N as Hx by lia.
  destruct Hx as [->|[->|[->|[->|[->|[->|[->|[->|[->| ->]]]]]]]]]; reflexivity.
Qed.

Lemma pretty_N_go_digits x : forall s,
  exists ds,
    Forall (fun d => (d < 10)%nat) ds /\
    String.list_ascii_of_string (pretty_N_go x s)
      = (map digit_char ds ++ String.list_ascii_of_string s)%list /\
    (forall acc, fold_left (fun acc d => 10 * acc + Z.of_nat d) ds acc
                 = acc * 10 ^ Z.of_nat (length ds) + Z.of_N x) /\
    ((0 < x)%N -> ds <> []).
Proof.
  induction (N.lt_wf_0 x) as [x _ IH]. intros s.
  assert (x = 0 \/ 0 < x)%N as [->|Hpos] by lia.
  - exists []. rewrite pretty_N_go_0. cbn. repeat split; [constructor | lia | lia].
  - rewrite pretty_N_go_step by assumption.
    assert (Hmod : (x mod 10 < 10)%N) by (apply N.mod_lt; lia).
    destruct (IH (x / 10)%N ltac:(apply N.div_lt; lia)
                 (String (pretty_N_char (x mod 10)) s))
      as (ds & Hds & Hl & Hv & _).
    exists (ds ++ [N.to_nat (x mod 10)])%list. split; [|split; [|split]].
    + apply Forall_app. split; [assumption|]. constructor; [lia | constructor].
    + rewrite Hl, map_app, <- app_assoc. cbn.
      now rewrite pretty_N_char_digit.
    + intros acc. rewrite fold_left_app, Hv, length_app. cbn [fold_left length].
      rewrite Nat2Z.inj_add, Z.pow_add_r by lia.
      rewrite N_nat_Z, N2Z.inj_mod, N2Z.inj_div.
      pose proof (Z.div_mod (Z.of_N x) 10 ltac:(lia)). change (Z.of_N 10) with 10.
      change (10 ^ Z.of_nat 1) with 10. lia.
    + intros _ E. destruct ds; discriminate E.
Qed.

Lemma pretty_Z_numeral z :
  exists ds,
    Forall (fun d => (d < 10)%nat) ds /\ ds <> [] /\
    pretty z = numeral_text (z <? 0) ds [] /\
    digits_number ds = Z.abs z.
Proof.
  assert (Hpos : forall p : positive,
    exists ds, Forall (fun d => (d < 10)%nat) ds /\ ds <> [] /\
               String.list_ascii_of_string (pretty (N.pos p)) = map digit_char ds /\
               digits_number ds = Z.pos p).
  { intros p. destruct (pretty_N_go_digits (N.pos p) "") as (ds & Hds & Hl & Hv & Hne).
    exists ds. split; [assumption|]. split; [apply Hne; lia|]. split.
    - unfold pretty, pretty_N. destruct (decide (N.pos p = 0%N)); [discriminate|].
      now rewrite Hl, app_nil_r.
    - unfold digits_number. rewrite Hv. reflexivity. }
  destruct z as [|p|p].
  - exists [0%nat]. split; [constructor; [lia | constructor]|].
    split; [discriminate|]. split; reflexivity.
  - destruct (Hpos p) as (ds & Hds & Hne & Hl & Hv). exists ds.
    split; [assumption|]. split; [assumption|]. split; [|exact Hv].
    unfold numeral_text. cbn [app]. rewrite app_nil_r, <- Hl.
    symmetry. apply String.string_of_list_ascii_of_string.
  - destruct (Hpos p) as (ds & Hds & Hne & Hl & Hv). exists ds.
    split; [assumption|]. split; [assumption|]. split; [|exact Hv].
    unfold numeral_text. cbn [app]. rewrite app_nil_r, <- Hl.
    change (pretty (Z.neg p)) with ("-" +:+ pretty (N.pos p)).
    cbn. now rewrite String.string_of_list_ascii_of_string.
Qed.

(** [Decimal(str(z))] for an int [z] is [z]. *)
Lemma decimal_of_int rt z : decimal_of rt (PInt z) = Ok (Fin z 0).
Proof.
  unfold decimal_of. cbn [py_str].
  destruct (pretty_Z_numeral z) as (ds & Hds & Hne & -> & Hv).
  rewrite of_string_numeral by (assumption || constructor).
  rewrite app_nil_r, Hv. cbn [length]. destruct (z <? 0) eqn:E; do 2 f_equal; lia.
Qed.


Import Payloads.


(** The major-unit field, an int or a numeral, is taken as the number it
    is: 250 stays 250, and the text 123.45 is 12345 at two places. *)
Example complete_amount_int rt :
  decimal_of rt (PInt 250) = Ok (Fin 250 0).
Proof. apply decimal_of_int. Qed.

Example complete_amount_numeral :
  numeral_text false [1; 2; 3]%nat [4; 5]%nat = "123.45" /\
  DecParse.of_string "123.45" = Ok (Fin 12345 (-2)).
Proof.
  split; [reflexivity|].
  change "123.45" with (numeral_text false [1; 2; 3]%nat [4; 5]%nat).
  rewrite of_string_numeral; [reflexivity | | | discriminate];
    repeat (constructor; [lia|]); constructor.
Qed.

(** Minor units only: 12345 becomes 123.45.  With the major-unit field
    present the nested value is not consulted: 123.45 stays 123.45. *)
Example vima_minor_units :
  n_amount <$> (match VimaNormalizer.normalize sample_rt vima_minor with
                | Ok n => Some n | Raise _ => None end)
  = Some (Fin 12345 (-2)).
Proof. vm_compute. reflexivity. Qed.

Example vima_major_units :
  n_amount <$> (match VimaNormalizer.normalize sample_rt vima_major with
                | Ok n => Some n | Raise _ => None end)
  = Some (Fin 12345 (-2)).
Proof. vm_compute. reflexivity. Qed.

(** Beyond the context precision the quotient is rounded to 28 digits:
    (10^28 + 1) / 100 comes out as 10^26. *)
Example vima_minor_units_rounded :
  n_amount <$> (match VimaNormalizer.normalize sample_rt vima_huge with
                | Ok n => Some n | Raise _ => None end)
  = Some (Fin (10 ^ 27) (-1)).
Proof. vm_compute. reflexivity. Qed.

Lemma build_index_order_id_only ps :
  Forall (fun t => client_operation_id t = order_id t) ps ->
  build_index ps = build_index_by_order_id ps.
Proof.
  unfold build_index, build_index_by_order_id. generalize (∅ : gmap string Transaction).
  induction ps as [|t ps IH]; intros idx Hall; [reflexivity|].
  apply Forall_cons in Hall as [Ht Hall]. cbn [fold_left].
  rewrite Ht. destruct (str_truthy (order_id t)); now apply IH.
Qed.

(** C9. A record that a PayShack normalizer returns carries the raw
    [orderId] in both matching keys; the stored row has the two columns
    equal, so the index of a pass over such rows is the one keyed by
    [order_id] alone: the fallback branch never supplies another key. *)
Theorem payshack_matching_keys_equal rt raw n :
  PayShackNormalizer.normalize_payin rt raw = Ok n \/
  PayShackNormalizer.normalize_payout rt raw = Ok n ->
  py_get raw "orderId" PNone = Ok (n_order_id n) /\
  n_client_operation_id n = n_order_id n /\
  (forall i now row, Columns.to_row i now n = Ok row ->
     client_operation_id row = order_id row) /\
  (forall ps, Forall (fun t => client_operation_id t = order_id t) ps ->
     build_index ps = build_index_by_order_id ps).
Proof.
  intros H.
  assert (Hkeys : py_get raw "orderId" PNone = Ok (n_order_id n) /\
                  n_client_operation_id n = n_order_id n).
  { destruct H as [H|H].
    - unfold PayShackNormalizer.normalize_payin in H.
      do 8 (let x := fresh "x" in let Hx := fresh "Hx" in
            apply bind_ok in H as (x & Hx & H)).
      apply bind_ok in H as (order_id & Hord & H).
      peel H. injection H as <-. cbn. auto.
    - unfold PayShackNormalizer.normalize_payout in H.
      do 8 (let x := fresh "x" in let Hx := fresh "Hx" in
            apply bind_ok in H as (x & Hx & H)).
      apply bind_ok in H as (order_id & Hord & H).
      peel H. injection H as <-. cbn. auto. }
  destruct Hkeys as [Hget Heq]. repeat split; try assumption.
  - intros i now row Hrow. unfold Columns.to_row in Hrow.
    do 4 (let x := fresh "x" in let Hx := fresh "Hx" in
          apply bind_ok in Hrow as (x & Hx & Hrow)).
    apply bind_ok in Hrow as (ref & Href & Hrow).
    apply bind_ok in Hrow as (cop & Hcop & Hrow).
    apply bind_ok in Hrow as (ord & Hord & Hrow).
    peel Hrow. injection Hrow as <-. cbn.
    rewrite Heq in Hcop. congruence.
  - apply build_index_order_id_only.
Qed.

Lemma payshack_matching_keys_equal_witness :
  exists n, PayShackNormalizer.normalize_payin sample_rt payin_raw = Ok n /\
  py_get payin_raw "orderId" PNone = Ok (n_order_id n) /\
  n_client_operation_id n = n_order_id n /\
  (forall i now row, Columns.to_row i now n = Ok row ->
     client_operation_id row = order_id row) /\
  (forall ps, Forall (fun t => client_operation_id t = order_id t) ps ->
     build_index ps = build_index_by_order_id ps).
Proof.
  eexists. split; [vm_compute; reflexivity|].
  apply (payshack_matching_keys_equal sample_rt payin_raw). left.
  vm_compute. reflexivity.
Defined.

(** ** The upserts *)

Lemma execute_fresh rows : forall table touched table' h row,
  VimaSyncService.execute table touched rows = Ok table' ->
  In (h, row) rows -> h ∉ touched.
Proof.
  induction rows as [|[h0 row0] rows IH]; intros table touched table' h row H Hin;
    [destruct Hin|].
  cbn [VimaSyncService.execute] in H.
  destruct (decide (h0 ∈ touched)) as [|Hn]; [discriminate|].
  destruct Hin as [[= -> ->]|Hin]; [exact Hn|].
  destruct (table !! h0); apply IH with (h := h) (row := row) in H; set_solver.
Qed.

Lemma execute_touched rows : forall table touched table' h,
  VimaSyncService.execute table touched rows = Ok table' ->
  h ∈ touched -> table' !! h = table !! h.
Proof.
  induction rows as [|[h0 row0] rows IH]; intros table touched table' h H Hin;
    cbn [VimaSyncService.execute] in H.
  - now injection H as <-.
  - destruct (decide (h0 ∈ touched)) as [|Hn]; [discriminate|].
    assert (h0 <> h) by (intros ->; contradiction).
    destruct (table !! h0); apply IH with (h := h) in H; try set_solver;
      now rewrite H, lookup_insert_ne.
Qed.

Lemma execute_conflict rows : forall table touched table' h row old,
  VimaSyncService.execute table touched rows = Ok table' ->
  In (h, row) rows -> table !! h = Some old ->
  table' !! h = Some (VimaSyncService.on_conflict_set old row).
Proof.
  induction rows as [|[h0 row0] rows IH]; intros table touched table' h row old H Hin Hold;
    [destruct Hin|].
  cbn [VimaSyncService.execute] in H.
  destruct (decide (h0 ∈ touched)) as [|Hn]; [discriminate|].
  destruct Hin as [[= -> ->]|Hin].
  - rewrite Hold in H. apply execute_touched with (h := h) in H; [|set_solver].
    now rewrite H, lookup_insert_eq.
  - assert (h0 <> h).
    { intros ->. destruct (table !! h);
        apply execute_fresh with (h := h) (row := row) in H; set_solver. }
    destruct (table !! h0); eapply IH in H; eauto; now rewrite lookup_insert_ne.
Qed.

Lemma bind_rows_in dflt batch : forall pos rows n,
  VimaSyncService.bind_rows dflt pos batch = Ok rows -> In n batch ->
  exists p row, Columns.to_row (uuid4 dflt p) (utcnow dflt p) n = Ok row /\
                In (n_data_hash n, row) rows.
Proof.
  induction batch as [|n0 batch IH]; intros pos rows n H Hin; [destruct Hin|].
  cbn [VimaSyncService.bind_rows] in H.
  apply bind_ok in H as (row0 & Hrow0 & H).
  apply bind_ok in H as (rows0 & Hrows0 & H). injection H as <-.
  destruct Hin as [->|Hin].
  - exists pos, row0. split; [assumption | now left].
  - destruct (IH _ _ _ Hrows0 Hin) as (p & row & ? & ?).
    exists p, row. split; [assumption | now right].
Qed.

Lemma vima_upsert_conflict dflt table batch table' n old :
  VimaSyncService._upsert_transactions dflt table batch = Ok table' ->
  In n batch -> table !! n_data_hash n = Some old ->
  exists p excluded,
    Columns.to_row (uuid4 dflt p) (utcnow dflt p) n = Ok excluded /\
    table' !! n_data_hash n = Some (VimaSyncService.on_conflict_set old excluded).
Proof.
  intros H Hin Hold. unfold VimaSyncService._upsert_transactions in H.
  destruct batch as [|n0 batch]; [destruct Hin|].
  apply bind_ok in H as (rows & Hrows & H).
  destruct (bind_rows_in _ _ _ _ _ Hrows Hin) as (p & row & Hrow & Hinr).
  exists p, row. split; [assumption|]. eapply execute_conflict; eauto.
Qed.

Lemma payshack_upsert_conflict dflt pos table table' txn old :
  PayShackSyncService.upsert_one dflt pos table txn = Ok table' ->
  table !! n_data_hash txn = Some old ->
  exists excluded,
    Columns.to_row (uuid4 dflt pos) (utcnow dflt pos) txn = Ok excluded /\
    table' !! n_data_hash txn =
      Some (PayShackSyncService.on_conflict_set old excluded (utcnow dflt pos)).
Proof.
  intros H Hold. unfold PayShackSyncService.upsert_one in H.
  apply bind_ok in H as (row & Hrow & H). rewrite Hold in H. injection H as <-.
  exists row. split; [assumption | apply lookup_insert_eq].
Qed.

(** C1, as the services have it.  An upsert of a record whose [data_hash]
    is in the store leaves every identity and amount column of the row as
    it was.  What it overwrites is, for Vima: status, original status,
    updated/completed timestamps, the update cursor and the raw payload
    (the USD columns stay); for PayShack: status, original status,
    updated/completed timestamps, UTR, the USD columns, the raw payload and
    the ingestion time. *)
Theorem upsert_conflict_frame :
  (forall dflt table batch table' n old,
     VimaSyncService._upsert_transactions dflt table batch = Ok table' ->
     In n batch -> table !! n_data_hash n = Some old ->
     exists p excluded new,
       Columns.to_row (uuid4 dflt p) (utcnow dflt p) n = Ok excluded /\
       table' !! n_data_hash n = Some new /\
       vima_frame old new /\
       status new = status excluded /\
       original_status new = original_status excluded /\
       updated_at new = updated_at excluded /\
       completed_at new = completed_at excluded /\
       source_update_cursor new = source_update_cursor excluded /\
       raw_data new = raw_data excluded) /\
  (forall dflt pos table table' txn old,
     PayShackSyncService.upsert_one dflt pos table txn = Ok table' ->
     table !! n_data_hash txn = Some old ->
     exists excluded new,
       Columns.to_row (uuid4 dflt pos) (utcnow dflt pos) txn = Ok excluded /\
       table' !! n_data_hash txn = Some new /\
       payshack_frame old new /\
       status new = status excluded /\
       original_status new = original_status excluded /\
       updated_at new = updated_at excluded /\
       completed_at new = completed_at excluded /\
       utr new = utr excluded /\
       amount_usd new = amount_usd excluded /\
       fee_usd new = fee_usd excluded /\
       exchange_rate new = exchange_rate excluded /\
       raw_data new = raw_data excluded /\
       ingested_at new = utcnow dflt pos).
Proof.
  split.
  - intros dflt table batch table' n old H Hin Hold.
    destruct (vima_upsert_conflict _ _ _ _ _ _ H Hin Hold) as (p & excluded & Hrow & Hnew).
    exists p, excluded, (VimaSyncService.on_conflict_set old excluded).
    split; [assumption|]. split; [assumption|].
    unfold vima_frame, common_frame, identity_kept. cbn. tauto.
  - intros dflt pos table table' txn old H Hold.
    destruct (payshack_upsert_conflict _ _ _ _ _ _ H Hold) as (excluded & Hrow & Hnew).
    exists excluded, (PayShackSyncService.on_conflict_set old excluded (utcnow dflt pos)).
    split; [assumption|]. split; [assumption|].
    unfold payshack_frame, common_frame, identity_kept. cbn. tauto.
Qed.

(** The claim C1 as worded fails on Vima: the second sight of an operation
    overwrites the row's update cursor, which the wording does not allow. *)
Lemma upsert_overwrites_update_cursor :
  exists n old new,
    n_major = [n] /\ n_data_hash n = op1_hash /\
    VimaSyncService._upsert_transactions sample_defaults (table_after [n_minor]) [n]
      = Ok (table_after [n_minor; n_major]) /\
    table_after [n_minor] !! n_data_hash n = Some old /\
    table_after [n_minor; n_major] !! n_data_hash n = Some new /\
    source_update_cursor old = Some "5" /\
    source_update_cursor new = Some "9" /\
    ~ spec_frame old new.
Proof.
  eexists _, _, _. split; [vm_compute; reflexivity|].
  split; [reflexivity|].
  split; [vm_compute; reflexivity|].
  split; [vm_compute; reflexivity|].
  split; [vm_compute; reflexivity|].
  split; [reflexivity|]. split; [reflexivity|].
  intros (_ & _ & Hcur & _). discriminate Hcur.
Qed.

Lemma upsert_conflict_frame_witness :
  exists n old,
    n_major = [n] /\
    table_after [n_minor] !! n_data_hash n = Some old /\
    exists p excluded new,
       Columns.to_row (uuid4 sample_defaults p) (utcnow sample_defaults p) n = Ok excluded /\
       table_after [n_minor; n_major] !! n_data_hash n = Some new /\
       vima_frame old new /\
       status new = status excluded /\
       original_status new = original_status excluded /\
       updated_at new = updated_at excluded /\
       completed_at new = completed_at excluded /\
       source_update_cursor new = source_update_cursor excluded /\
       raw_data new = raw_data excluded.
Proof.
  eexists _, _. split; [vm_compute; reflexivity|].
  split; [vm_compute; reflexivity|].
  apply (proj1 upsert_conflict_frame sample_defaults (table_after [n_minor]) n_major
           (table_after [n_minor; n_major])).
  - vm_compute. reflexivity.
  - vm_compute. left. reflexivity.
  - vm_compute. reflexivity.
Defined.

(** ** The PayShack client *)

Import PayShackClient Servers.

Lemma retrying_once {St A} (f : St -> St * result A) n c :
  (forall e, (f c).2 = Raise e -> is_transport e = false) ->
  retrying (S n) f c = f c.
Proof.
  intros H. cbn [retrying]. destruct (f c) as [c' [a|e]]; [reflexivity|].
  specialize (H e eq_refl). destruct e; try reflexivity; discriminate.
Qed.

Lemma login_once_no_transport srv c e :
  (login_once srv c).2 = Raise e -> is_transport e = false.
Proof.
  unfold login_once, send. cbn [fst snd].
  destruct (respond srv (sent c) (login_request c)) as [code body|code text| | |];
    cbn [checked_body].
  - destruct ((200 <=? code) && (code <? 300)); cbn.
    + destruct body; cbn; try (intros [= <-]; reflexivity).
      destruct (negb _); cbn; [intros [= <-]; reflexivity|].
      destruct (default (PDict []) (assoc "data" kv)); cbn;
        try (intros [= <-]; reflexivity); discriminate.
    + intros [= <-]. reflexivity.
  - destruct ((200 <=? code) && (code <? 300)); cbn; intros [= <-]; reflexivity.
  - cbn. intros [= <-]. reflexivity.
  - cbn. intros [= <-]. reflexivity.
  - cbn. intros [= <-]. reflexivity.
Qed.

(** The decorator never fires on [login]: its body turns every transport
    error into a PayShackAPIError. *)
Lemma login_is_login_once srv c : login srv c = login_once srv c.
Proof. apply retrying_once. apply login_once_no_transport. Qed.

Lemma ensure_auth_no_transport srv c e :
  (_ensure_auth srv c).2 = Raise e -> is_transport e = false.
Proof.
  unfold _ensure_auth. destruct (_ || _); [|discriminate].
  rewrite login_is_login_once.
  pose proof (login_once_no_transport srv c) as H.
  destruct (login_once srv c) as [c' [a|e']]; cbn in *; [discriminate|].
  intros [= <-]. now apply H.
Qed.

Lemma page_result_raises ep data e :
  page_result ep data = Raise e ->
  match e with
  | AttributeError _ | PayShackAPIError _ _ | TypeError _ => True
  | _ => False
  end.
Proof.
  unfold page_result.
  destruct data; cbn; try (intros [= <-]; exact I).
  destruct (negb _); cbn; [intros [= <-]; exact I|].
  destruct (default (PDict []) (assoc "data" kv)) as [| | | | | |kv']; cbn;
    try (intros [= <-]; exact I).
  destruct (default (PList []) (assoc "transactions" kv')); cbn;
    try (intros [= <-]; exact I); discriminate.
Qed.

Lemma fetch_page_unfold depth srv ep q c :
  fetch_page (S depth) srv ep q c = retrying 3 (fetch_body depth srv ep q) c.
Proof. reflexivity. Qed.

Lemma fetch_body_no_transport depth srv ep q :
  (forall c e, (fetch_page depth srv ep q c).2 = Raise e -> is_transport e = false) ->
  forall c e, (fetch_body depth srv ep q c).2 = Raise e -> is_transport e = false.
Proof.
  intros IH c e. unfold fetch_body.
  pose proof (ensure_auth_no_transport srv c) as Hauth.
  destruct (_ensure_auth srv c) as [c1 [[]|e1]]; cbn [snd] in Hauth;
    [|intros [= <-]; now apply Hauth].
  unfold send.
  destruct (respond srv (sent c1) (page_request ep c1 q)) as [code body|code text| | |];
    cbn [checked_body]; try (cbn; intros [= <-]; reflexivity).
  all: destruct ((200 <=? code) && (code <? 300)); cbn [bind].
  - pose proof (page_result_raises ep body) as Hp.
    destruct (page_result ep body) as [res|e2]; [discriminate|].
    specialize (Hp e2 eq_refl).
    destruct e2; try contradiction; cbn; intros [= <-]; reflexivity.
  - destruct ((code =? 401) || (code =? 403)); [|cbn; intros [= <-]; reflexivity].
    match goal with |- context [_ensure_auth srv ?c3] =>
      pose proof (ensure_auth_no_transport srv c3) as Hauth3;
      destruct (_ensure_auth srv c3) as [c4 [[]|e4]] end; cbn [snd] in Hauth3.
    + apply IH.
    + intros [= <-]. now apply Hauth3.
  - cbn. intros [= <-]. reflexivity.
  - destruct ((code =? 401) || (code =? 403)); [|cbn; intros [= <-]; reflexivity].
    match goal with |- context [_ensure_auth srv ?c3] =>
      pose proof (ensure_auth_no_transport srv c3) as Hauth3;
      destruct (_ensure_auth srv c3) as [c4 [[]|e4]] end; cbn [snd] in Hauth3.
    + apply IH.
    + intros [= <-]. now apply Hauth3.
Qed.

Lemma fetch_page_no_transport depth srv ep q : forall c e,
  (fetch_page depth srv ep q c).2 = Raise e -> is_transport e = false.
Proof.
  induction depth as [|depth IH]; intros c e.
  - cbn. intros [= <-]. reflexivity.
  - rewrite fetch_page_unfold, retrying_once.
    + now apply fetch_body_no_transport.
    + now apply fetch_body_no_transport.
Qed.

(** The decorator never fires on a page fetch either. *)
Lemma fetch_page_body depth srv ep q c :
  fetch_page (S depth) srv ep q c = fetch_body depth srv ep q c.
Proof.
  rewrite fetch_page_unfold. apply retrying_once.
  apply fetch_body_no_transport, fetch_page_no_transport.
Qed.



(** The same on the Pay-Out endpoint. *)
Example second_auth_failure_not_fatal_payout :
  let r := get_payout_transactions 10 (flaky_server 2) first_page fresh_client in
  is_ok r.2 = true /\ count_logins (sent r.1) = 3%nat.
Proof. vm_compute. repeat split. Qed.


(** ** The pagination loops *)

Lemma operations_loop_spec budget : forall srv filters batch_size cursor c,
  let out := (VimaClient.operations_loop budget srv filters batch_size cursor c).2 in
  (calls out <= budget)%nat /\
  (length (yielded out) <= length (trace out) <= calls out)%nat /\
  (forall i cur ops,
     trace out !! i = Some (cur, ops) -> vima_must_stop cur ops ->
     length (trace out) = S i).
Proof.
  induction budget as [|budget IH]; intros srv filters batch_size cursor c;
    cbn [VimaClient.operations_loop].
  { cbn. repeat split; try lia. intros i cur ops H. discriminate. }
  destruct (VimaClient.get_operations srv filters batch_size false cursor c)
    as [c1 [operations|e]].
  2:{ cbn. repeat split; try lia. intros i cur ops H. discriminate. }
  assert (Hsingle : forall (ys : list pyval) (st : Stop),
    (length ys <= 1)%nat ->
    let out := mkPagination ys [(cursor, operations)] 1 st in
    (calls out <= S budget)%nat /\
    (length (yielded out) <= length (trace out) <= calls out)%nat /\
    (forall i cur ops,
       trace out !! i = Some (cur, ops) -> vima_must_stop cur ops ->
       length (trace out) = S i)).
  { intros ys st Hys. cbn. repeat split; try lia.
    intros [|i] cur ops H _; [reflexivity | discriminate]. }
  destruct (truthy operations) eqn:Hops; cbn [negb].
  2:{ apply Hsingle. cbn. lia. }
  destruct (VimaClient.last_create_id operations) as [new_cursor|e] eqn:Hlast.
  2:{ apply Hsingle. cbn. lia. }
  destruct (negb (truthy new_cursor) || py_eqb new_cursor cursor) eqn:Hstall.
  { apply Hsingle. cbn. lia. }
  specialize (IH srv filters batch_size new_cursor c1).
  destruct (VimaClient.operations_loop budget srv filters batch_size new_cursor c1)
    as [c2 rest]. cbn [snd] in *.
  destruct IH as (Hc & Hl & Hstop). cbn. repeat split; try lia.
  intros [|i] cur ops H Hmust; cbn in H.
  - injection H as <- <-. exfalso.
    destruct Hmust as [Hempty|(nc & Hnc & Hbad)]; [congruence|].
    rewrite Hlast in Hnc. injection Hnc as <-.
    apply orb_false_iff in Hstall as [Ht He].
    apply negb_false_iff in Ht. destruct Hbad; congruence.
  - f_equal. now apply (Hstop i cur ops).
Qed.

Lemma pages_loop_spec budget : forall depth srv ep filters max_pages page c,
  let out := (PayShackClient.pages_loop budget depth srv ep filters max_pages page c).2 in
  (calls out <= budget)%nat /\
  (length (yielded out) <= length (trace out) <= calls out)%nat /\
  (forall i p res,
     trace out !! i = Some (p, res) -> payshack_must_stop p res ->
     length (trace out) = S i) /\
  (forall i p res, trace out !! i = Some (p, res) -> p = page + Z.of_nat i).
Proof.
  induction budget as [|budget IH]; intros depth srv ep filters max_pages page c;
    cbn [PayShackClient.pages_loop].
  { cbn. repeat split; try lia; intros i p res H; discriminate. }
  destruct (negb (page <=? max_pages)).
  { cbn. repeat split; try lia; intros i p res H; discriminate. }
  destruct (PayShackClient.fetch_page depth srv ep (PayShackClient.with_page filters page) c)
    as [c1 [res0|e]].
  2:{ cbn. repeat split; try lia; intros i p res H; discriminate. }
  assert (Hsingle : forall (ys : list pyval) (st : Stop),
    (length ys <= 1)%nat ->
    let out := mkPagination ys [(page, res0)] 1 st in
    (calls out <= S budget)%nat /\
    (length (yielded out) <= length (trace out) <= calls out)%nat /\
    (forall i p res,
       trace out !! i = Some (p, res) -> payshack_must_stop p res ->
       length (trace out) = S i) /\
    (forall i p res, trace out !! i = Some (p, res) -> p = page + Z.of_nat i)).
  { intros ys st Hys. cbn. repeat split; try lia.
    - intros [|i] p res H _; [reflexivity | discriminate].
    - intros [|i] p res H; [|discriminate]. injection H as <- <-. lia. }
  destruct (py_get res0 "transactions" (PList [])) as [transactions|e] eqn:Htx.
  2:{ apply Hsingle. cbn. lia. }
  destruct (truthy transactions) eqn:Htruthy; cbn [negb].
  2:{ apply Hsingle. cbn. lia. }
  destruct (let* total_pages := py_get res0 "totalPages" (PInt 1) in
            int_ge page total_pages) as [[|]|e] eqn:Hlastp.
  1,3: apply Hsingle; cbn; lia.
  specialize (IH depth srv ep filters max_pages (page + 1) c1).
  destruct (PayShackClient.pages_loop budget depth srv ep filters max_pages (page + 1) c1)
    as [c2 rest]. cbn [snd] in *.
  destruct IH as (Hc & Hl & Hstop & Hnum). cbn. repeat split; try lia.
  - intros [|i] p res H Hmust; cbn in H.
    + injection H as <- <-. exfalso.
      destruct Hmust as [(txs & Hg & Hf)|(tp & Hg & Hge)].
      * rewrite Htx in Hg. injection Hg as <-. congruence.
      * rewrite Hg in Hlastp. cbn [bind] in Hlastp. congruence.
    + f_equal. now apply (Hstop i p res).
  - intros [|i] p res H; cbn in H.
    + injection H as <- <-. lia.
    + apply Hnum in H. lia.
Qed.

(** C5. Both pagination loops are total functions of what the provider
    answers.  No page is fetched after one that is empty, or whose cursor
    is missing or did not move (Vima), or whose number has reached the
    reported total (PayShack); and the page fetch is called at most
    [max_batches] times (Vima), at most [max_pages] times for a start page
    of 1 or more (PayShack), whatever totals the server reports. *)
Theorem pagination_stops_within_ceiling :
  (forall srv cursor batch_size max_batches filters c,
     let out := (VimaClient.get_all_operations srv cursor batch_size max_batches
                   filters c).2 in
     (Z.of_nat (calls out) <= Z.max 0 max_batches) /\
     (length (yielded out) <= length (trace out) <= calls out)%nat /\
     (forall i cur ops,
        trace out !! i = Some (cur, ops) -> vima_must_stop cur ops ->
        length (trace out) = S i)) /\
  (forall depth srv ep start_page max_pages filters c,
     1 <= start_page ->
     let out := (PayShackClient.get_all_transactions depth srv ep start_page
                   max_pages filters c).2 in
     (Z.of_nat (calls out) <= Z.max 0 max_pages) /\
     (length (yielded out) <= length (trace out) <= calls out)%nat /\
     (forall i p res,
        trace out !! i = Some (p, res) -> payshack_must_stop p res ->
        length (trace out) = S i)).
Proof.
  split.
  - intros srv cursor batch_size max_batches filters c.
    unfold VimaClient.get_all_operations.
    destruct (operations_loop_spec (Z.to_nat max_batches) srv filters batch_size cursor c)
      as (Hc & Hl & Hstop).
    split; [lia|]. split; assumption.
  - intros depth srv ep start_page max_pages filters c Hstart.
    unfold PayShackClient.get_all_transactions.
    destruct (pages_loop_spec (Z.to_nat (max_pages - start_page + 1)) depth srv ep
                filters max_pages start_page c) as (Hc & Hl & Hstop & _).
    split; [lia|]. split; assumption.
Qed.

Lemma pagination_stops_within_ceiling_witness :
  1 <= 1 /\
  let out := (get_all_transactions 10 endless_pages PayIn 1 3 first_page fresh_client).2 in
  (Z.of_nat (calls out) <= Z.max 0 3) /\
  (length (yielded out) <= length (trace out) <= calls out)%nat /\
  (forall i p res,
     trace out !! i = Some (p, res) -> payshack_must_stop p res ->
     length (trace out) = S i).
Proof.
  split; [lia|].
  apply (proj2 pagination_stops_within_ceiling 10%nat endless_pages PayIn 1 3
           first_page fresh_client).
  lia.
Defined.

(** A server that reports a million pages is left after [max_pages]. *)
Example payshack_ceiling :
  let out := (get_all_payin_transactions 10 endless_pages 1 3 first_page fresh_client).2 in
  calls out = 3%nat /\ stop out = CeilingReached /\ length (yielded out) = 3%nat.
Proof. vm_compute. repeat split. Qed.

(** A feed whose cursor always advances is left after [max_batches]. *)
Example vima_ceiling :
  let out := (VimaClient.get_all_operations endless_feed PNone 100 5 no_filters
                vima_client).2 in
  calls out = 5%nat /\ stop out = CeilingReached.
Proof. vm_compute. repeat split. Qed.

(** A feed whose cursor does not move is left at the second page. *)
Example vima_cursor_stalled :
  let out := (VimaClient.get_all_operations stuck_feed PNone 100 100 no_filters
                vima_client).2 in
  calls out = 2%nat /\ stop out = CursorStalled.
Proof. vm_compute. repeat split. Qed.


(* ===================================================================== *)
(** * Further properties of the code *)
(* ===================================================================== *)

(** ** The reconciliation pass, result by result *)

Lemma match_loop_outcomes run day idx vs : forall rs m rs' m',
  match_loop run day idx vs rs m = Ok (rs', m') ->
  exists outs,
    Forall2 (fun v o => vima_outcome run day idx v = Ok o) vs outs /\
    rs' = (rs ++ omap (fun o => o) outs)%list /\
    (forall i, i ∈ m' <->
       i ∈ m \/ exists v p, In v vs /\ str_truthy (client_operation_id v) = true /\
                            idx !! default "" (client_operation_id v) = Some p /\
                            id p = i).
Proof.
  induction vs as [|v vs IH]; intros rs m rs' m' H; cbn [match_loop] in H.
  - injection H as <- <-. exists []. split; [constructor|]. split.
    + cbn. now rewrite app_nil_r.
    + intros i. split; [auto|]. intros [?|(v & p & [] & _)]. assumption.
  - unfold vima_outcome.
    destruct (str_truthy (client_operation_id v)) eqn:Hk; cbn [negb] in H.
    2:{ destruct (IH _ _ _ _ H) as (outs & Hf & -> & Hm).
        exists (None :: outs). split; [constructor; [now rewrite Hk | exact Hf]|].
        split; [reflexivity|].
        intros i. rewrite Hm. split; intros [?|(v' & p & Hin & Hk' & Hidx & Hid)]; auto.
        - right. exists v', p. split; [now right | auto].
        - destruct Hin as [->|Hin]; [congruence|]. right. exists v', p. auto. }
    destruct (idx !! default "" (client_operation_id v)) as [p|] eqn:Hidx.
    + destruct (_compare_transactions run day v p) as [r|e] eqn:Hc; cbn [bind] in H;
        [|discriminate].
      destruct (IH _ _ _ _ H) as (outs & Hf & -> & Hm).
      exists (Some r :: outs). split.
      { constructor; [|exact Hf]. rewrite Hk, Hidx. cbn. now rewrite Hc. }
      split; [now rewrite <- app_assoc|].
      intros i. rewrite Hm, elem_of_union, elem_of_singleton.
      split.
      * intros [[->|?]|(v' & p' & Hin & ?)]; auto.
        -- right. exists v, p. split; [now left | auto].
        -- right. exists v', p'. split; [now right | auto].
      * intros [?|(v' & p' & [->|Hin] & Hk' & Hidx' & Hid)]; auto.
        -- left. left. congruence.
        -- right. exists v', p'. auto.
    + destruct (IH _ _ _ _ H) as (outs & Hf & -> & Hm).
      exists (Some (missing_payshack_result run day v) :: outs). split.
      { constructor; [|exact Hf]. now rewrite Hk, Hidx. }
      split; [now rewrite <- app_assoc|].
      intros i. rewrite Hm. split; intros [?|(v' & p & Hin & Hk' & Hidx' & Hid)]; auto.
      * right. exists v', p. split; [now right | auto].
      * destruct Hin as [->|Hin]; [congruence|]. right. exists v', p. auto.
Qed.

Lemma match_loop_total run day idx vs : forall rs m outs,
  Forall2 (fun v o => vima_outcome run day idx v = Ok o) vs outs ->
  exists m', match_loop run day idx vs rs m = Ok ((rs ++ omap (fun o => o) outs)%list, m').
Proof.
  induction vs as [|v vs IH]; intros rs m outs Hf.
  - apply Forall2_nil_inv_l in Hf as ->. exists m. cbn. now rewrite app_nil_r.
  - apply Forall2_cons_inv_l in Hf as (o & outs' & Ho & Hf & ->).
    cbn [match_loop]. unfold vima_outcome in Ho.
    destruct (negb (str_truthy (client_operation_id v))).
    { injection Ho as <-. cbn. now apply IH. }
    destruct (idx !! default "" (client_operation_id v)) as [p|].
    + destruct (_compare_transactions run day v p) as [r|e]; cbn [bind] in *;
        [|discriminate].
      injection Ho as <-. cbn.
      destruct (IH (rs ++ [r])%list ({[id p]} ∪ m) outs' Hf) as (m' & Hm').
      exists m'. rewrite Hm'. now rewrite <- app_assoc.
    + injection Ho as <-. cbn.
      destruct (IH (rs ++ [missing_payshack_result run day v])%list m outs' Hf)
        as (m' & Hm').
      exists m'. rewrite Hm'. now rewrite <- app_assoc.
Qed.

Lemma match_loop_raises run day idx vs : forall rs m v e,
  In v vs -> vima_outcome run day idx v = Raise e ->
  exists e', match_loop run day idx vs rs m = Raise e'.
Proof.
  induction vs as [|v0 vs IH]; intros rs m v e Hin Hv; [destruct Hin|].
  cbn [match_loop].
  destruct Hin as [->|Hin].
  - unfold vima_outcome in Hv.
    destruct (negb (str_truthy (client_operation_id v))); [discriminate|].
    destruct (idx !! default "" (client_operation_id v)) as [p|]; [|discriminate].
    destruct (_compare_transactions run day v p) as [r|e0]; [discriminate|].
    cbn. eauto.
  - destruct (negb (str_truthy (client_operation_id v0))); [eauto|].
    destruct (idx !! default "" (client_operation_id v0)) as [p|]; [|eauto].
    destruct (_compare_transactions run day v0 p) as [r|e0]; cbn [bind]; eauto.
Qed.

Lemma count_status_app s l1 l2 :
  count_status s (l1 ++ l2) = count_status s l1 + count_status s l2.
Proof.
  unfold count_status. rewrite filter_app, length_app. lia.
Qed.

Lemma count_status_cons s r l :
  count_status s (r :: l) =
  (if decide (match_status r = s) then 1 else 0) + count_status s l.
Proof.
  unfold count_status. rewrite filter_cons.
  destruct (decide (match_status r = s)); cbn [length]; lia.
Qed.

Lemma count_status_nil s : count_status s [] = 0.
Proof. reflexivity. Qed.

Lemma vima_outcome_status run day idx v r :
  vima_outcome run day idx v = Ok (Some r) ->
  recon_run_id r = run /\ recon_date r = day /\
  vima_txn_id r = Some (id v) /\
  str_truthy (client_operation_id v) = true /\
  (match_status r = "matched" \/ match_status r = "discrepancy" \/
   match_status r = "missing_payshack").
Proof.
  unfold vima_outcome.
  destruct (str_truthy (client_operation_id v)); cbn [negb]; [|discriminate].
  destruct (idx !! default "" (client_operation_id v)) as [p|].
  - destruct (_compare_transactions run day v p) as [r0|e] eqn:Hc; [|discriminate].
    cbn. intros [= <-].
    destruct (compare_ids _ _ _ _ _ Hc) as (Hv & _ & Hs).
    unfold _compare_transactions in Hc. peel Hc.
    split; [|split; [|split; [exact Hv|split; [reflexivity|tauto]]]].
    + destruct (_ ++ _)%list; injection Hc as <-; reflexivity.
    + destruct (_ ++ _)%list; injection Hc as <-; reflexivity.
  - intros [= <-]. cbn. auto 10.
Qed.

Lemma vima_outcome_none run day idx v :
  vima_outcome run day idx v = Ok None ->
  str_truthy (client_operation_id v) = false.
Proof.
  unfold vima_outcome.
  destruct (str_truthy (client_operation_id v)); cbn [negb]; [|reflexivity].
  destruct (idx !! default "" (client_operation_id v)) as [p|]; [|discriminate].
  destruct (_compare_transactions run day v p); discriminate.
Qed.

Lemma outcomes_counts run day idx vs outs :
  Forall2 (fun v o => vima_outcome run day idx v = Ok o) vs outs ->
  let rs := omap (fun o => o) outs in
  count_status "matched" rs + count_status "discrepancy" rs
    + count_status "missing_payshack" rs
    = Z.of_nat (length (filter (fun v => str_truthy (client_operation_id v) = true) vs)) /\
  count_status "missing_vima" rs = 0 /\
  Z.of_nat (length rs)
    = Z.of_nat (length (filter (fun v => str_truthy (client_operation_id v) = true) vs)).
Proof.
  induction 1 as [|v o vs outs Ho _ IH]; [cbn; auto|].
  cbn zeta in *. destruct IH as (IH1 & IH2 & IH3).
  rewrite filter_cons. destruct o as [r|]; cbn [omap list_omap].
  - apply vima_outcome_status in Ho as (_ & _ & _ & Hk & Hs).
    destruct (decide (str_truthy (client_operation_id v) = true)); [|contradiction].
    rewrite !count_status_cons. cbn [length].
    destruct Hs as [Hs|[Hs|Hs]]; rewrite Hs;
      repeat (match goal with |- context [decide ?P] => destruct (decide P); try discriminate end);
      try congruence; lia.
  - apply vima_outcome_none in Ho.
    destruct (decide (str_truthy (client_operation_id v) = true)); [congruence|].
    auto.
Qed.

Lemma missing_vima_counts run day ps (m : gset UUID) :
  let rs := missing_vima_results run day ps m in
  count_status "matched" rs = 0 /\ count_status "discrepancy" rs = 0 /\
  count_status "missing_payshack" rs = 0 /\
  count_status "missing_vima" rs = Z.of_nat (length rs) /\
  (length rs <= length ps)%nat.
Proof.
  cbn zeta. unfold missing_vima_results.
  split; [|split; [|split; [|split]]].
  5:{ rewrite length_map. apply length_filter. }
  all: induction (filter _ ps) as [|p l IH]; [reflexivity|];
    cbn [map]; rewrite count_status_cons; cbn [length];
    match goal with |- context [decide ?P] => destruct (decide P) as [E|E] end;
    try discriminate E; try (exfalso; apply E; reflexivity); lia.
Qed.

Lemma reconcile_outcomes run day vs ps rs :
  reconcile run day vs ps = Ok rs ->
  exists outs m,
    Forall2 (fun v o => vima_outcome run day (build_index ps) v = Ok o) vs outs /\
    rs = (omap (fun o => o) outs ++ missing_vima_results run day ps m)%list /\
    (forall i, i ∈ m <->
       exists v p, In v vs /\ str_truthy (client_operation_id v) = true /\
                   build_index ps !! default "" (client_operation_id v) = Some p /\
                   id p = i).
Proof.
  unfold reconcile. intros H. apply bind_ok in H as ([rs0 m] & Hl & H).
  injection H as <-. cbn [fst snd].
  apply match_loop_outcomes in Hl as (outs & Hf & -> & Hm).
  exists outs, m. split; [exact Hf|]. split; [reflexivity|].
  intros i. rewrite Hm. split; [intros [Hi|Hi]; [set_solver|exact Hi]|auto].
Qed.

(** X1. The four counters of a pass add up.  Every Vima transaction with
    a matching key yields exactly one result, which is [matched],
    [discrepancy] or [missing_payshack]; the [missing_vima] results are the
    remaining ones, at most one for each PayShack transaction; so the four
    counters written to the run row sum to the number of result rows. *)
Theorem reconcile_counts run day vs ps rs :
  reconcile run day vs ps = Ok rs ->
  count_status "matched" rs + count_status "discrepancy" rs
    + count_status "missing_payshack" rs
    = Z.of_nat (length (filter (fun v => str_truthy (client_operation_id v) = true) vs)) /\
  count_status "matched" rs + count_status "discrepancy" rs
    + count_status "missing_vima" rs + count_status "missing_payshack" rs
    = Z.of_nat (length rs) /\
  count_status "missing_vima" rs <= Z.of_nat (length ps).
Proof.
  intros H. apply reconcile_outcomes in H as (outs & m & Hf & -> & _).
  destruct (outcomes_counts _ _ _ _ _ Hf) as (H1 & H2 & H3).
  destruct (missing_vima_counts run day ps m) as (M1 & M2 & M3 & M4 & M5).
  rewrite !count_status_app, length_app, M1, M2, M3, M4, H2. lia.
Qed.

Lemma outcomes_in {A B} (f : A -> result B) vs outs v :
  Forall2 (fun v o => f v = Ok o) vs outs -> In v vs ->
  exists o, f v = Ok o /\ In o outs.
Proof.
  induction 1 as [|v0 o vs outs Ho _ IH]; intros Hin; [destruct Hin|].
  destruct Hin as [->|Hin].
  - exists o. split; [exact Ho | now left].
  - destruct (IH Hin) as (o' & ? & ?). exists o'. split; [assumption | now right].
Qed.

Lemma outcomes_from {A B} (f : A -> result B) vs outs o :
  Forall2 (fun v o => f v = Ok o) vs outs -> In o outs ->
  exists v, In v vs /\ f v = Ok o.
Proof.
  induction 1 as [|v0 o0 vs outs Ho _ IH]; intros Hin; [destruct Hin|].
  destruct Hin as [->|Hin].
  - exists v0. split; [now left | exact Ho].
  - destruct (IH Hin) as (v & ? & ?). exists v. split; [now right | assumption].
Qed.

Lemma in_omap_id {A} (l : list (option A)) x :
  In x (omap (fun o => o) l) <-> In (Some x) l.
Proof.
  rewrite <- !list_elem_of_In, list_elem_of_omap. split.
  - intros (y & Hy & ->). exact Hy.
  - intros H. exists (Some x). auto.
Qed.

Lemma in_missing_vima run day ps (m : gset UUID) r :
  In r (missing_vima_results run day ps m) <->
  exists p, In p ps /\ (id p ∉ m) /\ r = missing_vima_result run day p.
Proof.
  unfold missing_vima_results. rewrite in_map_iff. split.
  - intros (p & <- & Hp). apply list_elem_of_In, list_elem_of_filter in Hp as [Hm Hp].
    exists p. rewrite <- list_elem_of_In. auto.
  - intros (p & Hp & Hm & ->). exists p. split; [reflexivity|].
    apply list_elem_of_In, list_elem_of_filter. rewrite list_elem_of_In. auto.
Qed.

(** X2. Every Vima transaction that has a matching key gets its verdict:
    when the key is in the PayShack index the pass holds the comparison of
    the two rows, carrying both ids; when it is not, it holds the
    [missing_payshack] result of that transaction.  A match does not take
    the PayShack row out of the index, so two Vima rows with one key are
    both compared with the same PayShack row. *)
Theorem keyed_vima_verdict run day vs ps rs v :
  reconcile run day vs ps = Ok rs ->
  In v vs -> str_truthy (client_operation_id v) = true ->
  match build_index ps !! default "" (client_operation_id v) with
  | Some p =>
      In p ps /\
      exists r, _compare_transactions run day v p = Ok r /\ In r rs /\
                vima_txn_id r = Some (id v) /\ payshack_txn_id r = Some (id p)
  | None => In (missing_payshack_result run day v) rs
  end.
Proof.
  intros H Hin Hk. apply reconcile_outcomes in H as (outs & m & Hf & -> & _).
  destruct (outcomes_in _ _ _ _ Hf Hin) as (o & Ho & Hino).
  unfold vima_outcome in Ho. rewrite Hk in Ho. cbn [negb] in Ho.
  destruct (build_index ps !! default "" (client_operation_id v)) as [p|] eqn:Hidx.
  - split; [apply (build_index_values _ _ _ Hidx)|].
    destruct (_compare_transactions run day v p) as [r|e] eqn:Hc; [|discriminate].
    injection Ho as <-. exists r. split; [reflexivity|].
    split; [apply in_or_app; left; now apply in_omap_id|].
    destruct (compare_ids _ _ _ _ _ Hc) as (? & ? & _). auto.
  - injection Ho as <-. apply in_or_app. left. now apply in_omap_id.
Qed.

(** X3. The [missing_vima] results of a pass are exactly the PayShack
    transactions whose id is the id of no index row that a Vima key
    reached: each such transaction has its [missing_vima] result among the
    results, and each result with this status is the one of such a
    transaction. *)
Theorem missing_vima_exactly_unmatched run day vs ps rs :
  reconcile run day vs ps = Ok rs ->
  let hit (p : Transaction) :=
    exists v q, In v vs /\ str_truthy (client_operation_id v) = true /\
                build_index ps !! default "" (client_operation_id v) = Some q /\
                id q = id p in
  (forall p, In p ps -> ~ hit p -> In (missing_vima_result run day p) rs) /\
  (forall r, In r rs -> match_status r = "missing_vima" ->
     exists p, In p ps /\ ~ hit p /\ r = missing_vima_result run day p).
Proof.
  intros H hit. apply reconcile_outcomes in H as (outs & m & Hf & -> & Hm).
  split.
  - intros p Hp Hn. apply in_or_app. right. apply in_missing_vima.
    exists p. split; [exact Hp|]. split; [|reflexivity].
    intros Hi. apply Hn. apply Hm in Hi. exact Hi.
  - intros r Hr Hs. apply in_app_or in Hr as [Hr|Hr].
    + apply in_omap_id in Hr.
      destruct (outcomes_from _ _ _ _ Hf Hr) as (v & _ & Hv).
      apply vima_outcome_status in Hv as (_ & _ & _ & _ & [E|[E|E]]);
        rewrite E in Hs; discriminate.
    + apply in_missing_vima in Hr as (p & Hp & Hi & ->).
      exists p. split; [exact Hp|]. split; [|reflexivity].
      intros Hh. apply Hi, Hm. exact Hh.
Qed.

Lemma str_truthy_some o : str_truthy o = true -> o = Some (default "" o).
Proof. destruct o; [reflexivity | discriminate]. Qed.

Lemma index_step (index : gmap string Transaction) txn :
  (if str_truthy (order_id txn) then <[default "" (order_id txn) := txn]> index
   else if str_truthy (client_operation_id txn)
   then <[default "" (client_operation_id txn) := txn]> index
   else index)
  = match index_key txn with Some k => <[k := txn]> index | None => index end.
Proof.
  unfold index_key.
  destruct (str_truthy (order_id txn)) eqn:Ho.
  - now rewrite (str_truthy_some _ Ho) at 2.
  - destruct (str_truthy (client_operation_id txn)) eqn:Hc; [|reflexivity].
    now rewrite (str_truthy_some _ Hc) at 2.
Qed.

Lemma index_fold_lookup ps : forall (index : gmap string Transaction) k,
  fold_left
    (fun index txn =>
       if str_truthy (order_id txn) then <[default "" (order_id txn) := txn]> index
       else if str_truthy (client_operation_id txn)
       then <[default "" (client_operation_id txn) := txn]> index
       else index) ps index !! k
  = match last (filter (fun t => index_key t = Some k) ps) with
    | Some t => Some t
    | None => index !! k
    end.
Proof.
  induction ps as [|p ps IH]; intros index k; [reflexivity|].
  cbn [fold_left]. rewrite IH, index_step, filter_cons.
  destruct (decide (index_key p = Some k)) as [E|E].
  - rewrite last_cons, E, lookup_insert_eq.
    destruct (last (filter _ ps)); reflexivity.
  - destruct (last (filter _ ps)); [reflexivity|].
    destruct (index_key p) as [k'|]; [|reflexivity].
    apply lookup_insert_ne. congruence.
Qed.

(** X4. In the PayShack index the last transaction wins: the entry under
    a key is the last transaction of the list whose own key ([order_id],
    else [client_operation_id]) is that key, and nothing is ever stored
    under the empty key. *)
Theorem index_last_wins ps k :
  build_index ps !! k = last (filter (fun t => index_key t = Some k) ps) /\
  build_index ps !! "" = None.
Proof.
  assert (Hl : forall k, build_index ps !! k
                         = last (filter (fun t => index_key t = Some k) ps)).
  { intros k'. unfold build_index. rewrite index_fold_lookup, lookup_empty.
    destruct (last _); reflexivity. }
  split; [apply Hl|].
  rewrite Hl. apply last_None. apply filter_none.
  intros t _. unfold index_key.
  destruct (str_truthy (order_id t)) eqn:Ho.
  - destruct (order_id t) as [s|]; [|discriminate]. cbn in Ho.
    intros [= ->]. discriminate.
  - destruct (str_truthy (client_operation_id t)) eqn:Hc; [|discriminate].
    destruct (client_operation_id t) as [s|]; [|discriminate]. cbn in Hc.
    intros [= ->]. discriminate.
Qed.

Lemma last_in {A} (l : list A) x : last l = Some x -> In x l.
Proof.
  intros H. apply list_elem_of_In. apply last_Some in H as (l' & ->).
  apply elem_of_app. right. left.
Qed.

Lemma shadowed_not_indexed l1 p1 l2 p2 k key q :
  NoDup (map id (l1 ++ p1 :: l2)) -> In p2 l2 ->
  index_key p1 = Some k -> index_key p2 = Some k ->
  build_index (l1 ++ p1 :: l2) !! key = Some q -> id q <> id p1.
Proof.
  intros Hnd Hp2 Hk1 Hk2 Hidx Hid.
  assert (Hq : In q (l1 ++ p1 :: l2)) by apply (build_index_values _ _ _ Hidx).
  assert (q = p1) as ->.
  { apply (id_unique (l1 ++ p1 :: l2)); auto. apply in_or_app. right. now left. }
  unfold build_index in Hidx. rewrite index_fold_lookup, lookup_empty in Hidx.
  destruct (last _) as [t|] eqn:Hl; [|discriminate]. injection Hidx as ->.
  assert (Hkey : index_key p1 = Some key).
  { apply last_in, list_elem_of_In, list_elem_of_filter in Hl. tauto. }
  assert (key = k) as -> by congruence.
  rewrite filter_app, filter_cons in Hl.
  destruct (decide (index_key p1 = Some k)); [|contradiction].
  assert (Hne : filter (fun t => index_key t = Some k) l2 <> []).
  { intros E. assert (Hin : p2 ∈ filter (fun t => index_key t = Some k) l2).
    { apply list_elem_of_filter. split; [exact Hk2 | now apply list_elem_of_In]. }
    rewrite E in Hin. inversion Hin. }
  rewrite last_app, last_cons in Hl.
  destruct (last (filter (fun t => index_key t = Some k) l2)) as [t|] eqn:Hl2.
  - injection Hl as ->.
    apply last_in, list_elem_of_In, list_elem_of_filter in Hl2 as [_ Hin].
    apply list_elem_of_In in Hin.
    rewrite map_app in Hnd. apply NoDup_app in Hnd as (_ & _ & Hnd).
    cbn [map] in Hnd. apply NoDup_cons in Hnd as [Hnot _].
    apply Hnot. apply list_elem_of_In, in_map, Hin.
  - apply last_None in Hl2. contradiction.
Qed.

(** X5. A PayShack transaction that shares its key with a later one in
    the list is shadowed in the index: whatever Vima holds, it is reported
    [missing_vima], and no result of the pass pairs it with a Vima
    transaction. *)
Theorem shadowed_payshack_reported_missing run day vs l1 p1 l2 p2 k rs :
  NoDup (map id (l1 ++ p1 :: l2)) -> In p2 l2 ->
  index_key p1 = Some k -> index_key p2 = Some k ->
  reconcile run day vs (l1 ++ p1 :: l2) = Ok rs ->
  In (missing_vima_result run day p1) rs /\
  (forall r, In r rs -> payshack_txn_id r = Some (id p1) ->
     match_status r = "missing_vima" /\ vima_txn_id r = None).
Proof.
  intros Hnd Hp2 Hk1 Hk2 H.
  apply reconcile_outcomes in H as (outs & m & Hf & -> & Hm).
  assert (Hnot : id p1 ∉ m).
  { intros Hi. apply Hm in Hi as (v & q & _ & _ & Hidx & Hid).
    exact (shadowed_not_indexed _ _ _ _ _ _ _ Hnd Hp2 Hk1 Hk2 Hidx Hid). }
  split.
  - apply in_or_app. right. apply in_missing_vima. exists p1.
    split; [apply in_or_app; right; now left|]. auto.
  - intros r Hr Hp. apply in_app_or in Hr as [Hr|Hr].
    + exfalso. apply in_omap_id in Hr.
      destruct (outcomes_from _ _ _ _ Hf Hr) as (v & Hv & Ho).
      unfold vima_outcome in Ho.
      destruct (negb (str_truthy (client_operation_id v))); [discriminate|].
      destruct (build_index (l1 ++ p1 :: l2) !! default "" (client_operation_id v))
        as [q|] eqn:Hidx.
      * destruct (_compare_transactions run day v q) as [r0|e] eqn:Hc; [|discriminate].
        injection Ho as ->.
        destruct (compare_ids _ _ _ _ _ Hc) as (_ & Hq & _).
        rewrite Hq in Hp. injection Hp as Hp.
        exact (shadowed_not_indexed _ _ _ _ _ _ _ Hnd Hp2 Hk1 Hk2 Hidx Hp).
      * injection Ho as <-. discriminate Hp.
    + apply in_missing_vima in Hr as (p & _ & _ & ->). auto.
Qed.

(** ** Which passes complete *)

Lemma fix_fin c e : exists c' e', fix_ c e = Fin c' e'.
Proof.
  unfold fix_. destruct (Z.abs c <? 10 ^ prec); [eauto|].
  destruct (_ =? _); eauto.
Qed.

Lemma add_raises a b e : add a b = Raise e -> e = InvalidOperation "InvalidOperation".
Proof.
  unfold add, invalid.
  destruct a as [ca ea|sa|[]], b as [cb eb|sb|[]]; try discriminate;
    try (intros [= <-]; reflexivity).
  destruct (Bool.eqb sa sb); [discriminate | intros [= <-]; reflexivity].
Qed.

Lemma abs_raises a e : abs a = Raise e -> e = InvalidOperation "InvalidOperation".
Proof.
  unfold abs, invalid.
  destruct a as [ca ea|sa|[]]; try discriminate; intros [= <-]; reflexivity.
Qed.

Lemma mul_raises a b e : mul a b = Raise e -> e = InvalidOperation "InvalidOperation".
Proof.
  unfold mul, invalid.
  destruct a as [ca ea|sa|[]], b as [cb eb|sb|[]]; try discriminate;
    try (intros [= <-]; reflexivity);
    match goal with |- context [?c =? 0] => destruct (c =? 0) end;
    try discriminate; intros [= <-]; reflexivity.
Qed.

Lemma gt_raises a b e : gt a b = Raise e -> e = InvalidOperation "InvalidOperation".
Proof.
  unfold gt, invalid.
  destruct a as [ca ea|sa|sa], b as [cb eb|sb|sb]; try discriminate;
    intros [= <-]; reflexivity.
Qed.

Lemma max_raises a b e : max a b = Raise e -> e = InvalidOperation "InvalidOperation".
Proof.
  unfold max. destruct (gt b a) eqn:Hg; [discriminate|].
  intros [= <-]. exact (gt_raises _ _ _ Hg).
Qed.

Lemma bind_raise {A B} (m : result A) (f : A -> result B) e :
  bind m f = Raise e -> m = Raise e \/ exists a, m = Ok a /\ f a = Raise e.
Proof. destruct m as [a|e']; cbn; [eauto | intros [= ->]; auto]. Qed.

Lemma compare_raises run day v p e :
  _compare_transactions run day v p = Raise e -> e = InvalidOperation "InvalidOperation".
Proof.
  unfold _compare_transactions. intros H.
  apply bind_raise in H as [H|(d & _ & H)]; [exact (add_raises _ _ _ H)|].
  apply bind_raise in H as [H|(diff & _ & H)]; [exact (abs_raises _ _ H)|].
  apply bind_raise in H as [H|(scaled & _ & H)]; [exact (mul_raises _ _ _ H)|].
  apply bind_raise in H as [H|(tol & _ & H)]; [exact (max_raises _ _ _ H)|].
  apply bind_raise in H as [H|(over & _ & H)]; [exact (gt_raises _ _ _ H)|].
  destruct (_ ++ _)%list; discriminate.
Qed.

Lemma compare_finite run day v p cv ev cp ep :
  amount v = Fin cv ev -> amount p = Fin cp ep ->
  exists r, _compare_transactions run day v p = Ok r.
Proof.
  intros Hv Hp. unfold _compare_transactions. rewrite Hv, Hp.
  unfold sub, copy_negate, add. cbn [bind].
  destruct (fix_fin (cv * 10 ^ (ev - Z.min ev ep) + - cp * 10 ^ (ep - Z.min ev ep))
                    (Z.min ev ep)) as (cd & ed & ->).
  unfold abs. cbn [bind].
  destruct (fix_fin (Z.abs cd) ed) as (ca & ea & ->).
  unfold mul, AMOUNT_TOLERANCE_PERCENT. cbn [bind].
  destruct (fix_fin (cv * 1) (ev + -3)) as (cs & es & ->).
  unfold max, gt, AMOUNT_TOLERANCE. cbn [bind].
  destruct (match cmp_fin cs es 1 (-2) with Gt => true | _ => false end);
    cbn [bind]; destruct (_ ++ _)%list; eauto.
Qed.

Lemma compare_nan run day v p s :
  amount v = NaN s \/ amount p = NaN s ->
  _compare_transactions run day v p = Raise (InvalidOperation "InvalidOperation").
Proof.
  intros H.
  destruct (_compare_transactions run day v p) as [r|e] eqn:Hc.
  2:{ now rewrite (compare_raises _ _ _ _ _ Hc). }
  exfalso. unfold _compare_transactions in Hc. peel Hc. clear Hc.
  unfold sub in Hx.
  assert (Hd : x = NaN false).
  { destruct H as [H|H]; rewrite H in Hx; unfold add, copy_negate, invalid in Hx.
    - destruct s; [discriminate|].
      destruct (amount p) as [? ?|?|[]]; try discriminate; now injection Hx.
    - destruct s; destruct (amount v) as [? ?|?|[]]; try discriminate; now injection Hx. }
  subst x. injection Hx0 as <-. discriminate Hx3.
Qed.

Lemma match_loop_raise_kind run day idx vs : forall rs m e,
  match_loop run day idx vs rs m = Raise e -> e = InvalidOperation "InvalidOperation".
Proof.
  induction vs as [|v vs IH]; intros rs m e H; cbn [match_loop] in H; [discriminate|].
  destruct (negb (str_truthy (client_operation_id v))); [eauto|].
  destruct (idx !! default "" (client_operation_id v)) as [p|]; [|eauto].
  apply bind_raise in H as [H|(r & _ & H)]; [exact (compare_raises _ _ _ _ _ H)|eauto].
Qed.

Lemma reconcile_finite run day vs ps :
  Forall (fun t => exists c e, amount t = Fin c e) vs ->
  Forall (fun t => exists c e, amount t = Fin c e) ps ->
  exists rs, reconcile run day vs ps = Ok rs.
Proof.
  intros Hvs Hps.
  assert (Hall : exists outs,
            Forall2 (fun v o => vima_outcome run day (build_index ps) v = Ok o) vs outs).
  { induction Hvs as [|v vs (cv & ev & Hv) _ (outs & IH)]; [exists []; constructor|].
    assert (Ho : exists o, vima_outcome run day (build_index ps) v = Ok o).
    { unfold vima_outcome.
      destruct (negb (str_truthy (client_operation_id v))); [eauto|].
      destruct (build_index ps !! default "" (client_operation_id v)) as [p|] eqn:Hidx;
        [|eauto].
      apply build_index_values in Hidx as [Hin _].
      rewrite Forall_forall in Hps. destruct (Hps p) as (cp & ep & Hp).
      { now apply list_elem_of_In. }
      destruct (compare_finite run day v p _ _ _ _ Hv Hp) as (r & ->). cbn. eauto. }
    destruct Ho as (o & Ho). exists (o :: outs). now constructor. }
  destruct Hall as (outs & Hf).
  destruct (match_loop_total run day (build_index ps) vs [] ∅ outs Hf) as (m' & Hm).
  unfold reconcile. rewrite Hm. cbn. eauto.
Qed.

(** X6. A comparison of two finite amounts always returns a result; a
    comparison in which either amount is a NaN (which a NUMERIC column can
    hold) raises [decimal.InvalidOperation], from the ordering test. *)
Theorem compare_fails_only_on_nan run day v p :
  (forall cv ev cp ep, amount v = Fin cv ev -> amount p = Fin cp ep ->
     exists r, _compare_transactions run day v p = Ok r) /\
  (forall s, amount v = NaN s \/ amount p = NaN s ->
     exists m, _compare_transactions run day v p = Raise (InvalidOperation m)).
Proof.
  split.
  - intros cv ev cp ep. apply compare_finite.
  - intros s H. rewrite (compare_nan run day v p s H). eauto.
Qed.

Lemma save_run_fresh r r0 runs :
  run_id r = run_id r0 -> Forall (fun x => run_id x <> run_id r0) runs ->
  save_run r (runs ++ [r0]) = (runs ++ [r])%list.
Proof.
  intros E Hf. unfold save_run. rewrite map_app. cbn [map].
  rewrite E, Z.eqb_refl. f_equal.
  induction Hf as [|x runs Hx _ IH]; [reflexivity|].
  cbn [map]. rewrite IH. apply Z.eqb_neq in Hx. now rewrite Hx.
Qed.

Lemma load_finite db src day :
  Forall (fun t => exists c e, amount t = Fin c e) (transactions db) ->
  Forall (fun t => exists c e, amount t = Fin c e) (_load_transactions db src day).
Proof.
  intros H. unfold _load_transactions. rewrite Forall_forall in *.
  intros t Ht. apply list_elem_of_filter in Ht as [_ Ht]. auto.
Qed.

Lemma reconcile_run_id run day vs ps rs :
  reconcile run day vs ps = Ok rs ->
  Forall (fun r => recon_run_id r = run /\ recon_date r = day) rs.
Proof.
  intros H. apply reconcile_outcomes in H as (outs & m & Hf & -> & _).
  apply Forall_forall. intros r Hr. apply list_elem_of_In, in_app_or in Hr as [Hr|Hr].
  - apply in_omap_id in Hr. destruct (outcomes_from _ _ _ _ Hf Hr) as (v & _ & Hv).
    apply vima_outcome_status in Hv. tauto.
  - apply in_missing_vima in Hr as (p & _ & _ & ->). auto.
Qed.

(** X7. When every stored amount is finite and the database answers, a
    pass completes: the run row, new in the table, is written once with
    status [completed], the numbers of loaded rows and the four counters;
    the results of the pass are appended to [reconciliation_results], each
    carrying the run's id and date; the transactions are untouched. *)
Theorem finite_amounts_pass_completes db new_id started now day :
  Forall (fun t => exists c e, amount t = Fin c e) (transactions db) ->
  Forall (fun r => run_id r <> new_id) (reconciliation_runs db) ->
  let vima_txns := _load_transactions db "vima" day in
  let payshack_txns := _load_transactions db "payshack" day in
  exists rs,
    reconcile new_id day vima_txns payshack_txns = Ok rs /\
    run_for_date db no_faults new_id started now day =
      ({| transactions := transactions db;
          reconciliation_runs :=
            (reconciliation_runs db ++
             [{| run_id := new_id;
                 run_recon_date := day;
                 total_vima := Z.of_nat (length vima_txns);
                 total_payshack := Z.of_nat (length payshack_txns);
                 matched := count_status "matched" rs;
                 discrepancies := count_status "discrepancy" rs;
                 missing_vima := count_status "missing_vima" rs;
                 missing_payshack := count_status "missing_payshack" rs;
                 run_status := "completed";
                 error_message := None;
                 run_started_at := Some started;
                 run_completed_at := Some now |}])%list;
          reconciliation_results := (reconciliation_results db ++ rs)%list |},
       Completed new_id (count_status "matched" rs) (count_status "discrepancy" rs)
                 (count_status "missing_vima" rs) (count_status "missing_payshack" rs)) /\
    count_status "matched" rs + count_status "discrepancy" rs
      + count_status "missing_vima" rs + count_status "missing_payshack" rs
      = Z.of_nat (length rs) /\
    Forall (fun r => recon_run_id r = new_id /\ recon_date r = day) rs.
Proof.
  intros Hfin Hfresh vima_txns payshack_txns.
  destruct (reconcile_finite new_id day vima_txns payshack_txns) as (rs & Hrec);
    [apply load_finite, Hfin | apply load_finite, Hfin |].
  exists rs. split; [exact Hrec|]. split; [|split].
  - unfold run_for_date, try_block, load, no_faults.
    cbn [load_vima_error load_payshack_error commit_error tail_error store run_object
         transactions run_id].
    fold vima_txns payshack_txns.
    replace (_load_transactions _ "vima" day) with vima_txns by reflexivity.
    replace (_load_transactions _ "payshack" day) with payshack_txns by reflexivity.
    rewrite Hrec.
    cbn [commit store new_objects run_object transactions reconciliation_runs
         reconciliation_results run_recon_date error_message run_started_at run_id].
    f_equal. f_equal.
    apply save_run_fresh; [reflexivity | exact Hfresh].
  - apply reconcile_outcomes in Hrec as (outs & m & Hf & -> & _).
    destruct (outcomes_counts _ _ _ _ _ Hf) as (H1 & H2 & H3).
    destruct (missing_vima_counts new_id day payshack_txns m) as (M1 & M2 & M3 & M4 & M5).
    rewrite !count_status_app, length_app, M1, M2, M3, M4, H2. lia.
  - exact (reconcile_run_id _ _ _ _ _ Hrec).
Qed.

(** X8. One NaN amount in a pair that the keys bring together fails the
    whole pass: the matching raises, the pass reports a failure, and no
    result row is written, not even for the pairs compared before. *)
Theorem nan_pair_fails_pass db new_id started now day v p s :
  In v (_load_transactions db "vima" day) ->
  str_truthy (client_operation_id v) = true ->
  build_index (_load_transactions db "payshack" day)
    !! default "" (client_operation_id v) = Some p ->
  amount v = NaN s \/ amount p = NaN s ->
  (exists e, reconcile new_id day (_load_transactions db "vima" day)
                       (_load_transactions db "payshack" day) = Raise e) /\
  (exists err, (run_for_date db no_faults new_id started now day).2 = Failed err) /\
  reconciliation_results (run_for_date db no_faults new_id started now day).1
    = reconciliation_results db.
Proof.
  intros Hin Hk Hidx Hnan.
  assert (Hv : vima_outcome new_id day
                 (build_index (_load_transactions db "payshack" day)) v
               = Raise (InvalidOperation "InvalidOperation")).
  { unfold vima_outcome. rewrite Hk, Hidx. cbn [negb].
    now rewrite (compare_nan _ _ _ _ _ Hnan). }
  destruct (match_loop_raises new_id day _ _ [] ∅ v _ Hin Hv) as (e & He).
  assert (Hrec : reconcile new_id day (_load_transactions db "vima" day)
                   (_load_transactions db "payshack" day) = Raise e).
  { unfold reconcile. now rewrite He. }
  split; [eauto|].
  unfold run_for_date, try_block, load, no_faults.
  cbn [load_vima_error load_payshack_error commit_error tail_error store run_object
       transactions run_id].
  replace (_load_transactions _ "vima" day)
    with (_load_transactions db "vima" day) by reflexivity.
  replace (_load_transactions _ "payshack" day)
    with (_load_transactions db "payshack" day) by reflexivity.
  rewrite Hrec. cbn -[str_take save_run]. split; [eauto|]. apply app_nil_r.
Qed.


Lemma reconcile_counts_witness :
  let vs := [v_100; v_keyless; v_2] in
  let ps := [p_100_1; p_keyless] in
  let rs := sample_results in
  count_status "matched" rs + count_status "discrepancy" rs
    + count_status "missing_payshack" rs
    = Z.of_nat (length (filter (fun v => str_truthy (client_operation_id v) = true) vs)) /\
  count_status "matched" rs + count_status "discrepancy" rs
    + count_status "missing_vima" rs + count_status "missing_payshack" rs
    = Z.of_nat (length rs) /\
  count_status "missing_vima" rs <= Z.of_nat (length ps).
Proof.
  intros vs ps rs. apply (reconcile_counts 99 20000 vs ps rs). reflexivity.
Defined.

Lemma keyed_vima_verdict_witness :
  match build_index [p_100_1; p_keyless] !! default "" (client_operation_id v_100) with
  | Some p =>
      In p [p_100_1; p_keyless] /\
      exists r, _compare_transactions 99 20000 v_100 p = Ok r /\ In r sample_results /\
                vima_txn_id r = Some (id v_100) /\ payshack_txn_id r = Some (id p)
  | None => In (missing_payshack_result 99 20000 v_100) sample_results
  end.
Proof.
  apply (keyed_vima_verdict 99 20000 [v_100; v_keyless; v_2] [p_100_1; p_keyless]
           sample_results v_100);
    [reflexivity | left; reflexivity | reflexivity].
Defined.

Lemma missing_vima_exactly_unmatched_witness :
  let vs := [v_100; v_keyless; v_2] in
  let ps := [p_100_1; p_keyless] in
  let hit (p : Transaction) :=
    exists v q, In v vs /\ str_truthy (client_operation_id v) = true /\
                build_index ps !! default "" (client_operation_id v) = Some q /\
                id q = id p in
  (forall p, In p ps -> ~ hit p -> In (missing_vima_result 99 20000 p) sample_results) /\
  (forall r, In r sample_results -> match_status r = "missing_vima" ->
     exists p, In p ps /\ ~ hit p /\ r = missing_vima_result 99 20000 p).
Proof.
  intros vs ps. apply (missing_vima_exactly_unmatched 99 20000 vs ps sample_results).
  reflexivity.
Defined.

Lemma shadowed_payshack_reported_missing_witness :
  exists rs,
    reconcile 99 20000 [v_100] ([] ++ p_100_1 :: [p_100_11]) = Ok rs /\
    In (missing_vima_result 99 20000 p_100_1) rs /\
    (forall r, In r rs -> payshack_txn_id r = Some (id p_100_1) ->
       match_status r = "missing_vima" /\ vima_txn_id r = None).
Proof.
  eexists. split; [vm_compute; reflexivity|].
  apply (shadowed_payshack_reported_missing 99 20000 [v_100] [] p_100_1 [p_100_11]
           p_100_11 "ord-1").
  - apply (bool_decide_unpack _). vm_compute. exact I.
  - left; reflexivity.
  - reflexivity.
  - reflexivity.
  - vm_compute; reflexivity.
Defined.

Lemma compare_fails_only_on_nan_witness :
  (exists r, _compare_transactions 99 20000 v_100 p_100_1 = Ok r) /\
  (exists m, _compare_transactions 99 20000 v_2 p_nan = Raise (InvalidOperation m)).
Proof.
  split.
  - apply (proj1 (compare_fails_only_on_nan 99 20000 v_100 p_100_1)
             1000000 (-4) 1001000 (-4)); reflexivity.
  - apply (proj2 (compare_fails_only_on_nan 99 20000 v_2 p_nan) false).
    right; reflexivity.
Defined.

Lemma finite_amounts_pass_completes_witness :
  let db := {| transactions := [v_100; v_keyless; v_2; p_100_1; p_keyless];
               reconciliation_runs := []; reconciliation_results := [] |} in
  let vima_txns := _load_transactions db "vima" 20000 in
  let payshack_txns := _load_transactions db "payshack" 20000 in
  exists rs,
    reconcile 99 20000 vima_txns payshack_txns = Ok rs /\
    run_for_date db no_faults 99 5 8 20000 =
      ({| transactions := transactions db;
          reconciliation_runs :=
            (reconciliation_runs db ++
             [{| run_id := 99;
                 run_recon_date := 20000;
                 total_vima := Z.of_nat (length vima_txns);
                 total_payshack := Z.of_nat (length payshack_txns);
                 matched := count_status "matched" rs;
                 discrepancies := count_status "discrepancy" rs;
                 missing_vima := count_status "missing_vima" rs;
                 missing_payshack := count_status "missing_payshack" rs;
                 run_status := "completed";
                 error_message := None;
                 run_started_at := Some 5;
                 run_completed_at := Some 8 |}])%list;
          reconciliation_results := (reconciliation_results db ++ rs)%list |},
       Completed 99 (count_status "matched" rs) (count_status "discrepancy" rs)
                 (count_status "missing_vima" rs) (count_status "missing_payshack" rs)) /\
    count_status "matched" rs + count_status "discrepancy" rs
      + count_status "missing_vima" rs + count_status "missing_payshack" rs
      = Z.of_nat (length rs) /\
    Forall (fun r => recon_run_id r = 99 /\ recon_date r = 20000) rs.
Proof.
  intros db. apply (finite_amounts_pass_completes db 99 5 8 20000).
  - repeat constructor; eexists; eexists; reflexivity.
  - constructor.
Defined.

Lemma nan_pair_fails_pass_witness :
  (exists e, reconcile 99 20000 (_load_transactions sample_db "vima" 20000)
                       (_load_transactions sample_db "payshack" 20000) = Raise e) /\
  (exists err, (run_for_date sample_db no_faults 99 5 8 20000).2 = Failed err) /\
  reconciliation_results (run_for_date sample_db no_faults 99 5 8 20000).1
    = reconciliation_results sample_db.
Proof.
  apply (nan_pair_fails_pass sample_db 99 5 8 20000 v_2 p_nan false).
  - right; right; left; reflexivity.
  - reflexivity.
  - vm_compute; reflexivity.
  - right; reflexivity.
Defined.


(** ** The upserts, beyond the row in conflict *)

Lemma to_row_rebound i now i' now' n row :
  Columns.to_row i now n = Ok row ->
  Columns.to_row i' now' n = Ok (rebound row i' now').
Proof.
  intros H. unfold Columns.to_row in *. peel H. injection H as <-.
  repeat match goal with
         | Hx : ?t = Ok _ |- context [?t] => rewrite Hx; cbn [bind]
         end.
  reflexivity.
Qed.

Lemma to_row_hash i now n row :
  Columns.to_row i now n = Ok row -> data_hash row = Some (n_data_hash n).
Proof.
  intros H. unfold Columns.to_row in H. peel H. injection H as <-. cbn.
  unfold Columns.as_varchar in *.
  match goal with
  | Hh : (if ?c then Ok (Some (n_data_hash n)) else _) = Ok _ |- _ =>
      destruct c; [now injection Hh as <- | discriminate]
  end.
Qed.

Lemma execute_insert rows : forall table touched table' h row,
  VimaSyncService.execute table touched rows = Ok table' ->
  In (h, row) rows -> table !! h = None -> table' !! h = Some row.
Proof.
  induction rows as [|[h0 row0] rows IH]; intros table touched table' h row H Hin Hnone;
    [destruct Hin|].
  cbn [VimaSyncService.execute] in H.
  destruct (decide (h0 ∈ touched)) as [|Hn]; [discriminate|].
  destruct Hin as [[= -> ->]|Hin].
  - rewrite Hnone in H. apply execute_touched with (h := h) in H; [|set_solver].
    now rewrite H, lookup_insert_eq.
  - assert (h0 <> h).
    { intros ->. destruct (table !! h);
        apply execute_fresh with (h := h) (row := row) in H; set_solver. }
    destruct (table !! h0); eapply IH in H; eauto; now rewrite lookup_insert_ne.
Qed.

Lemma execute_other rows : forall table touched table' h,
  VimaSyncService.execute table touched rows = Ok table' ->
  ~ In h (map fst rows) -> table' !! h = table !! h.
Proof.
  induction rows as [|[h0 row0] rows IH]; intros table touched table' h H Hnot;
    cbn [VimaSyncService.execute] in H.
  - now injection H as <-.
  - destruct (decide (h0 ∈ touched)) as [|Hn]; [discriminate|].
    cbn [map fst] in Hnot.
    assert (h0 <> h) by (intros ->; apply Hnot; now left).
    assert (~ In h (map fst rows)) by (intros ?; apply Hnot; now right).
    destruct (table !! h0); apply IH with (h := h) in H; auto;
      now rewrite H, lookup_insert_ne.
Qed.

Lemma execute_nodup rows : forall table touched table',
  VimaSyncService.execute table touched rows = Ok table' ->
  NoDup (map fst rows).
Proof.
  induction rows as [|[h0 row0] rows IH]; intros table touched table' H;
    cbn [VimaSyncService.execute] in H; cbn [map fst]; [constructor|].
  destruct (decide (h0 ∈ touched)) as [|Hn]; [discriminate|].
  apply NoDup_cons. split.
  - intros Hin. apply list_elem_of_In, in_map_iff in Hin as ([h row] & Eh & Hin).
    cbn in Eh. subst h.
    destruct (table !! h0);
      apply execute_fresh with (h := h0) (row := row) in H; set_solver.
  - destruct (table !! h0); eapply IH; eauto.
Qed.

Lemma bind_rows_keys dflt batch : forall pos rows,
  VimaSyncService.bind_rows dflt pos batch = Ok rows ->
  map fst rows = map n_data_hash batch.
Proof.
  induction batch as [|n batch IH]; intros pos rows H; cbn [VimaSyncService.bind_rows] in H.
  - now injection H as <-.
  - apply bind_ok in H as (row0 & _ & H).
    apply bind_ok in H as (rows0 & Hrows0 & H). injection H as <-.
    cbn. f_equal. eauto.
Qed.

Lemma rebound_same_columns row i now : same_update_columns row (rebound row i now).
Proof. repeat split. Qed.

Lemma bind_rows_again d1 d2 batch : forall p1 p2 rows1,
  VimaSyncService.bind_rows d1 p1 batch = Ok rows1 ->
  exists rows2,
    VimaSyncService.bind_rows d2 p2 batch = Ok rows2 /\
    Forall2 (fun a b => a.1 = b.1 /\ same_update_columns a.2 b.2) rows1 rows2.
Proof.
  induction batch as [|n batch IH]; intros p1 p2 rows1 H;
    cbn [VimaSyncService.bind_rows] in *.
  - injection H as <-. exists []. split; [reflexivity | constructor].
  - apply bind_ok in H as (row0 & Hrow0 & H).
    apply bind_ok in H as (rows0 & Hrows0 & H). injection H as <-.
    destruct (IH _ (S p2) _ Hrows0) as (rows2 & Hrows2 & Hf).
    rewrite (to_row_rebound _ _ (uuid4 d2 p2) (utcnow d2 p2) _ _ Hrow0), Hrows2.
    cbn [bind]. eexists. split; [reflexivity|].
    constructor; [|exact Hf]. split; [reflexivity | apply rebound_same_columns].
Qed.

Lemma on_conflict_set_same r row :
  same_update_columns r row -> VimaSyncService.on_conflict_set r row = r.
Proof.
  intros (H1 & H2 & H3 & H4 & H5 & H6). unfold VimaSyncService.on_conflict_set.
  rewrite <- H1, <- H2, <- H3, <- H4, <- H5, <- H6. now destruct r.
Qed.

Lemma execute_noop rows : forall (t : gmap string Transaction) touched,
  NoDup (map fst rows) ->
  (forall h row, In (h, row) rows ->
     (h ∉ touched) /\ exists r, t !! h = Some r /\ same_update_columns r row) ->
  VimaSyncService.execute t touched rows = Ok t.
Proof.
  induction rows as [|[h row] rows IH]; intros t touched Hnd Hall; [reflexivity|].
  cbn [VimaSyncService.execute]. cbn [map fst] in Hnd.
  apply NoDup_cons in Hnd as [Hh Hnd].
  destruct (Hall h row (or_introl eq_refl)) as (Hnt & r & Hr & Hsame).
  destruct (decide (h ∈ touched)); [contradiction|].
  rewrite Hr, (on_conflict_set_same _ _ Hsame), (insert_id _ _ _ Hr).
  apply IH; [exact Hnd|].
  intros h' row' Hin. destruct (Hall h' row' (or_intror Hin)) as (Hnt' & Hex).
  split; [|exact Hex].
  assert (h' <> h).
  { intros ->. apply Hh. apply list_elem_of_In, in_map_iff. exists (h, row'). auto. }
  intros [Hs|Ht]%elem_of_union; [apply elem_of_singleton in Hs|]; contradiction.
Qed.

Lemma execute_columns rows table table' h row :
  VimaSyncService.execute table ∅ rows = Ok table' ->
  In (h, row) rows ->
  exists r, table' !! h = Some r /\ same_update_columns r row.
Proof.
  intros H Hin. destruct (table !! h) as [old|] eqn:Hold.
  - exists (VimaSyncService.on_conflict_set old row).
    split; [eapply execute_conflict; eauto | repeat split].
  - exists row. split; [eapply execute_insert; eauto | repeat split].
Qed.

(** X9. The Vima upsert outside the rows in conflict: a row whose hash is
    not in the batch is left as it was, no row is deleted, and a record
    whose hash was not in the table is inserted as its bound row, under
    its own hash. *)
Theorem vima_upsert_other_rows dflt table batch table' :
  VimaSyncService._upsert_transactions dflt table batch = Ok table' ->
  (forall h, ~ In h (map n_data_hash batch) -> table' !! h = table !! h) /\
  (forall h, is_Some (table !! h) -> is_Some (table' !! h)) /\
  (forall n, In n batch -> table !! n_data_hash n = None ->
     exists p row, Columns.to_row (uuid4 dflt p) (utcnow dflt p) n = Ok row /\
                   table' !! n_data_hash n = Some row /\
                   data_hash row = Some (n_data_hash n)).
Proof.
  intros H. unfold VimaSyncService._upsert_transactions in H.
  destruct batch as [|n0 batch].
  { injection H as <-. split; [auto|]. split; [auto|]. intros n []. }
  apply bind_ok in H as (rows & Hrows & H).
  pose proof (bind_rows_keys _ _ _ _ Hrows) as Hkeys.
  split; [|split].
  - intros h Hh. rewrite <- Hkeys in Hh. eapply execute_other; eauto.
  - intros h [old Hold].
    destruct (decide (h ∈ map fst rows)) as [Hin|Hnot].
    + apply list_elem_of_In, in_map_iff in Hin as ([h' row] & Eh & Hin). cbn in Eh. subst h'.
      rewrite (execute_conflict _ _ _ _ _ _ _ H Hin Hold). eauto.
    + rewrite list_elem_of_In in Hnot.
      rewrite (execute_other _ _ _ _ _ H Hnot), Hold. eauto.
  - intros n Hin Hnone.
    destruct (bind_rows_in _ _ _ _ _ Hrows Hin) as (p & row & Hrow & Hinr).
    exists p, row. split; [exact Hrow|].
    split; [eapply execute_insert; eauto | eapply to_row_hash; eauto].
Qed.

Lemma to_row_binds i now i' now' n :
  (exists row, Columns.to_row i now n = Ok row) ->
  exists row, Columns.to_row i' now' n = Ok row.
Proof. intros (row & H). rewrite (to_row_rebound _ _ i' now' _ _ H). eauto. Qed.

Lemma bind_rows_total dflt batch : forall pos,
  Forall (fun n => exists row, Columns.to_row 0 0 n = Ok row) batch ->
  exists rows, VimaSyncService.bind_rows dflt pos batch = Ok rows.
Proof.
  induction batch as [|n batch IH]; intros pos Hall; cbn [VimaSyncService.bind_rows];
    [eauto|].
  apply Forall_cons in Hall as [Hn Hall].
  destruct (to_row_binds 0 0 (uuid4 dflt pos) (utcnow dflt pos) n Hn) as (row & ->).
  destruct (IH (S pos) Hall) as (rows & ->). cbn. eauto.
Qed.

Lemma bind_rows_each dflt batch : forall pos rows,
  VimaSyncService.bind_rows dflt pos batch = Ok rows ->
  Forall (fun n => exists row, Columns.to_row 0 0 n = Ok row) batch.
Proof.
  induction batch as [|n batch IH]; intros pos rows H; [constructor|].
  cbn [VimaSyncService.bind_rows] in H.
  apply bind_ok in H as (row0 & Hrow0 & H).
  apply bind_ok in H as (rows0 & Hrows0 & _).
  constructor; [|eauto]. eapply to_row_binds; eauto.
Qed.

Lemma execute_total rows : forall (table : gmap string Transaction) touched,
  NoDup (map fst rows) -> (forall h, In h (map fst rows) -> h ∉ touched) ->
  exists table', VimaSyncService.execute table touched rows = Ok table'.
Proof.
  induction rows as [|[h row] rows IH]; intros table touched Hnd Hfresh;
    cbn [VimaSyncService.execute]; [eauto|].
  cbn [map fst] in *. apply NoDup_cons in Hnd as [Hh Hnd].
  destruct (decide (h ∈ touched)) as [Hin|_].
  { exfalso. apply (Hfresh h); [now left | exact Hin]. }
  assert (Hrest : forall h', In h' (map fst rows) -> h' ∉ {[h]} ∪ touched).
  { intros h' Hin [Hs|Ht]%elem_of_union.
    - apply elem_of_singleton in Hs. subst h'. apply Hh, list_elem_of_In, Hin.
    - apply (Hfresh h'); [now right | exact Ht]. }
  destruct (table !! h); apply IH; auto.
Qed.

(** X10. The Vima upsert, one INSERT for the whole batch, goes through
    exactly when every record binds to the columns and no two records of
    the batch share a [data_hash]: a repeated hash makes the statement
    fail for the whole batch. *)
Theorem vima_upsert_succeeds_iff dflt table batch :
  (exists table', VimaSyncService._upsert_transactions dflt table batch = Ok table') <->
  Forall (fun n => exists row, Columns.to_row 0 0 n = Ok row) batch /\
  NoDup (map n_data_hash batch).
Proof.
  unfold VimaSyncService._upsert_transactions. split.
  - intros (table' & H). destruct batch as [|n0 batch]; [split; constructor|].
    apply bind_ok in H as (rows & Hrows & H). split.
    + eapply bind_rows_each; eauto.
    + rewrite <- (bind_rows_keys _ _ _ _ Hrows). eapply execute_nodup; eauto.
  - intros [Hall Hnd]. destruct batch as [|n0 batch]; [eauto|].
    destruct (bind_rows_total dflt (n0 :: batch) 0%nat Hall) as (rows & Hrows).
    rewrite Hrows. cbn [bind]. apply execute_total.
    + now rewrite (bind_rows_keys _ _ _ _ Hrows).
    + intros h _. apply not_elem_of_empty.
Qed.

(** X11. Replaying a Vima batch changes nothing: after an upsert of a
    batch, an upsert of the same batch, under any other ids and clock
    readings, goes through and leaves the table as it is. *)
Theorem vima_upsert_replay d1 d2 table batch table' :
  VimaSyncService._upsert_transactions d1 table batch = Ok table' ->
  VimaSyncService._upsert_transactions d2 table' batch = Ok table'.
Proof.
  intros H. unfold VimaSyncService._upsert_transactions in *.
  destruct batch as [|n0 batch]; [reflexivity|].
  apply bind_ok in H as (rows1 & Hrows1 & H).
  destruct (bind_rows_again d1 d2 _ 0%nat 0%nat _ Hrows1) as (rows2 & Hrows2 & Hf).
  rewrite Hrows2. cbn [bind].
  assert (Hkeys : map fst rows2 = map fst rows1).
  { clear -Hf. induction Hf as [|a b l1 l2 [E _] _ IH]; [reflexivity|].
    cbn. now rewrite IH, E. }
  apply execute_noop.
  - rewrite Hkeys. eapply execute_nodup; eauto.
  - intros h row2 Hin. split; [set_solver|].
    assert (Hex : exists row1, In (h, row1) rows1 /\ same_update_columns row1 row2).
    { clear -Hf Hin. induction Hf as [|[h1 r1] [h2 r2] l1 l2 [E Hs] _ IH]; [destruct Hin|].
      cbn in E, Hs. subst h2. destruct Hin as [[= -> ->]|Hin].
      - exists r1. split; [now left | exact Hs].
      - destruct (IH Hin) as (row1 & ? & ?). exists row1. split; [now right | assumption]. }
    destruct Hex as (row1 & Hin1 & Hs).
    destruct (execute_columns _ _ _ _ _ H Hin1) as (r & Hr & Hsr).
    exists r. split; [exact Hr|].
    destruct Hsr as (A1 & A2 & A3 & A4 & A5 & A6), Hs as (B1 & B2 & B3 & B4 & B5 & B6).
    repeat split; congruence.
Qed.

Lemma upsert_one_lookup dflt pos table txn table' h :
  PayShackSyncService.upsert_one dflt pos table txn = Ok table' ->
  h <> n_data_hash txn -> table' !! h = table !! h.
Proof.
  intros H Hne. unfold PayShackSyncService.upsert_one in H.
  apply bind_ok in H as (row & _ & H).
  destruct (table !! n_data_hash txn); injection H as <-; now apply lookup_insert_ne.
Qed.

Lemma upsert_one_written dflt pos table txn table' :
  PayShackSyncService.upsert_one dflt pos table txn = Ok table' ->
  is_Some (table' !! n_data_hash txn).
Proof.
  intros H. unfold PayShackSyncService.upsert_one in H.
  apply bind_ok in H as (row & _ & H).
  destruct (table !! n_data_hash txn); injection H as <-;
    rewrite lookup_insert_eq; eauto.
Qed.

Lemma upsert_one_keeps dflt pos table txn table' h :
  PayShackSyncService.upsert_one dflt pos table txn = Ok table' ->
  is_Some (table !! h) -> is_Some (table' !! h).
Proof.
  intros H Hs. destruct (decide (h = n_data_hash txn)) as [->|Hne].
  - eapply upsert_one_written; eauto.
  - now rewrite (upsert_one_lookup _ _ _ _ _ _ H Hne).
Qed.

Lemma upsert_loop_spec dflt batch : forall pos table inserted table' k,
  PayShackSyncService.upsert_loop dflt pos table batch inserted = Ok (table', k) ->
  k = inserted + Z.of_nat (length batch) /\
  (forall h, ~ In h (map n_data_hash batch) -> table' !! h = table !! h) /\
  (forall h, is_Some (table !! h) -> is_Some (table' !! h)) /\
  (forall h, In h (map n_data_hash batch) -> is_Some (table' !! h)).
Proof.
  induction batch as [|n batch IH]; intros pos table inserted table' k H;
    cbn [PayShackSyncService.upsert_loop] in H.
  - injection H as <- <-. cbn. split; [lia|]. split; [auto|]. split; [auto|]. intros h [].
  - apply bind_ok in H as (t1 & H1 & H).
    destruct (IH _ _ _ _ _ H) as (Hk & Hother & Hkeep & Hin).
    split; [cbn [length]; lia|]. split; [|split].
    + intros h Hh. cbn [map] in Hh. rewrite Hother by (intros ?; apply Hh; now right).
      eapply upsert_one_lookup; eauto. intros ->. apply Hh. now left.
    + intros h Hs. apply Hkeep. eapply upsert_one_keeps; eauto.
    + intros h [<-|Hh]; [|auto]. apply Hkeep. eapply upsert_one_written; eauto.
Qed.

(** X12. The PayShack upsert reports every record as inserted: the
    [inserted] count is the length of the batch, also when every hash was
    already in the table and no row was added.  Rows under other hashes
    are left as they were and no row is deleted. *)
Theorem payshack_upsert_counts_every_row dflt table batch table' inserted :
  PayShackSyncService._upsert_transactions dflt table batch = Ok (table', inserted) ->
  inserted = Z.of_nat (length batch) /\
  (forall h, ~ In h (map n_data_hash batch) -> table' !! h = table !! h) /\
  (forall h, is_Some (table' !! h) <->
             is_Some (table !! h) \/ In h (map n_data_hash batch)) /\
  (Forall (fun n => is_Some (table !! n_data_hash n)) batch -> dom table' = dom table).
Proof.
  intros H. unfold PayShackSyncService._upsert_transactions in H.
  assert (Hl : PayShackSyncService.upsert_loop dflt 0 table batch 0 = Ok (table', inserted)).
  { destruct batch; [|exact H]. exact H. }
  clear H. destruct (upsert_loop_spec _ _ _ _ _ _ _ Hl) as (Hk & Hother & Hkeep & Hin).
  assert (Hdom : forall h, is_Some (table' !! h) <->
                           is_Some (table !! h) \/ In h (map n_data_hash batch)).
  { intros h. split; [|intros [?|?]; auto].
    intros Hs. destruct (decide (h ∈ map n_data_hash batch)) as [Hi|Hn].
    - right. now apply list_elem_of_In.
    - left. rewrite list_elem_of_In in Hn. now rewrite <- (Hother h Hn). }
  split; [lia|]. split; [exact Hother|]. split; [exact Hdom|].
  intros Hall. apply set_eq. intros h. rewrite !elem_of_dom, Hdom.
  split; [|auto]. intros [?|Hh]; [assumption|].
  apply in_map_iff in Hh as (n & <- & Hn).
  rewrite Forall_forall in Hall. apply Hall. now apply list_elem_of_In.
Qed.

Lemma upsert_loop_total dflt batch : forall pos table inserted,
  Forall (fun n => exists row, Columns.to_row 0 0 n = Ok row) batch ->
  exists out, PayShackSyncService.upsert_loop dflt pos table batch inserted = Ok out.
Proof.
  induction batch as [|n batch IH]; intros pos table inserted Hall;
    cbn [PayShackSyncService.upsert_loop]; [eauto|].
  apply Forall_cons in Hall as [Hn Hall].
  unfold PayShackSyncService.upsert_one.
  destruct (to_row_binds 0 0 (uuid4 dflt pos) (utcnow dflt pos) n Hn) as (row & ->).
  cbn [bind]. destruct (table !! n_data_hash n); cbn [bind]; apply IH; exact Hall.
Qed.

Lemma upsert_loop_each dflt batch : forall pos table inserted out,
  PayShackSyncService.upsert_loop dflt pos table batch inserted = Ok out ->
  Forall (fun n => exists row, Columns.to_row 0 0 n = Ok row) batch.
Proof.
  induction batch as [|n batch IH]; intros pos table inserted out H; [constructor|].
  cbn [PayShackSyncService.upsert_loop] in H.
  apply bind_ok in H as (t1 & H1 & H).
  constructor; [|eauto].
  unfold PayShackSyncService.upsert_one in H1. apply bind_ok in H1 as (row & Hrow & _).
  eapply to_row_binds; eauto.
Qed.

(** X13. The PayShack upsert, one statement per record, goes through
    exactly when every record binds to the columns; records of one batch
    that share a [data_hash] are accepted. *)
Theorem payshack_upsert_succeeds_iff dflt table batch :
  (exists out, PayShackSyncService._upsert_transactions dflt table batch = Ok out) <->
  Forall (fun n => exists row, Columns.to_row 0 0 n = Ok row) batch.
Proof.
  unfold PayShackSyncService._upsert_transactions. split.
  - intros (out & H). destruct batch as [|n batch]; [constructor|].
    eapply upsert_loop_each; eauto.
  - intros Hall. destruct batch as [|n batch]; [eauto|].
    now apply upsert_loop_total.
Qed.

(** X14. Replaying a PayShack record changes its ingestion time and
    nothing else: after an upsert of a record, a second upsert of the same
    record leaves its row as it is, with [ingested_at] set to the new
    reading of the clock. *)
Theorem payshack_upsert_replay d1 p1 d2 p2 table txn t1 :
  PayShackSyncService.upsert_one d1 p1 table txn = Ok t1 ->
  exists r1,
    t1 !! n_data_hash txn = Some r1 /\
    PayShackSyncService.upsert_one d2 p2 t1 txn
      = Ok (<[n_data_hash txn :=
                PayShackSyncService.on_conflict_set r1 r1 (utcnow d2 p2)]> t1).
Proof.
  intros H. unfold PayShackSyncService.upsert_one in *.
  apply bind_ok in H as (row & Hrow & H).
  rewrite (to_row_rebound _ _ (uuid4 d2 p2) (utcnow d2 p2) _ _ Hrow). cbn [bind].
  destruct (table !! n_data_hash txn) as [old|]; injection H as <-;
    rewrite lookup_insert_eq; eexists; (split; [reflexivity|]); reflexivity.
Qed.


Lemma vima_upsert_other_rows_witness :
  let table' := table_after [n_minor] in
  (forall h, ~ In h (map n_data_hash n_minor) -> table' !! h = (∅ : gmap string Transaction) !! h) /\
  (forall h, is_Some ((∅ : gmap string Transaction) !! h) -> is_Some (table' !! h)) /\
  (forall n, In n n_minor -> (∅ : gmap string Transaction) !! n_data_hash n = None ->
     exists p row,
       Columns.to_row (uuid4 sample_defaults p) (utcnow sample_defaults p) n = Ok row /\
       table' !! n_data_hash n = Some row /\
       data_hash row = Some (n_data_hash n)).
Proof.
  intros table'. apply (vima_upsert_other_rows sample_defaults ∅ n_minor table').
  vm_compute. reflexivity.
Defined.

Lemma vima_upsert_replay_witness :
  VimaSyncService._upsert_transactions
    {| uuid4 := fun n => 900 + Z.of_nat n; utcnow := fun _ => 7777 |}
    (table_after [n_minor; n_major]) n_major
  = Ok (table_after [n_minor; n_major]).
Proof.
  apply (vima_upsert_replay sample_defaults _ (table_after [n_minor]) n_major).
  vm_compute. reflexivity.
Defined.

Lemma payshack_upsert_counts_every_row_witness :
  let batch := match PayShackNormalizer.normalize_payin sample_rt payin_raw with
               | Ok n => [n; n] | Raise _ => [] end in
  exists table' inserted,
    PayShackSyncService._upsert_transactions sample_defaults ∅ batch = Ok (table', inserted) /\
    inserted = Z.of_nat (length batch) /\
    (forall h, ~ In h (map n_data_hash batch) -> table' !! h = (∅ : gmap string Transaction) !! h) /\
    (forall h, is_Some (table' !! h) <->
               is_Some ((∅ : gmap string Transaction) !! h) \/ In h (map n_data_hash batch)) /\
    (Forall (fun n => is_Some ((∅ : gmap string Transaction) !! n_data_hash n)) batch ->
     dom table' = dom (∅ : gmap string Transaction)).
Proof.
  intros batch. eexists. eexists. split; [vm_compute; reflexivity|].
  apply (payshack_upsert_counts_every_row sample_defaults ∅ batch).
  vm_compute. reflexivity.
Defined.

Lemma payshack_upsert_replay_witness :
  exists txn t1 r1,
    PayShackNormalizer.normalize_payin sample_rt payin_raw = Ok txn /\
    PayShackSyncService.upsert_one sample_defaults 0 ∅ txn = Ok t1 /\
    t1 !! n_data_hash txn = Some r1 /\
    PayShackSyncService.upsert_one sample_defaults 7 t1 txn
      = Ok (<[n_data_hash txn :=
                PayShackSyncService.on_conflict_set r1 r1 (utcnow sample_defaults 7)]> t1).
Proof.
  assert (H : exists txn t1,
            PayShackNormalizer.normalize_payin sample_rt payin_raw = Ok txn /\
            PayShackSyncService.upsert_one sample_defaults 0 ∅ txn = Ok t1).
  { eexists. eexists. split; [vm_compute; reflexivity|]. vm_compute. reflexivity. }
  destruct H as (txn & t1 & H1 & H2).
  destruct (payshack_upsert_replay sample_defaults 0 sample_defaults 7 _ _ _ H2)
    as (r1 & Hr1 & Hrep).
  exists txn, t1, r1. split; [exact H1|]. split; [exact H2|]. split; [exact Hr1 | exact Hrep].
Defined.


(** ** The normalizers *)

Lemma vima_status_values k :
  In (table_get VimaNormalizer.STATUS_MAP k "pending") ["success"; "failed"; "pending"].
Proof.
  unfold VimaNormalizer.STATUS_MAP, table_get.
  repeat match goal with |- context [String.eqb k ?s] => destruct (String.eqb k s) end;
    cbn; tauto.
Qed.

Lemma payshack_status_values k :
  In (table_get PayShackNormalizer.STATUS_MAP k "pending")
     ["success"; "failed"; "pending"; "processing"; "refunded"].
Proof.
  unfold PayShackNormalizer.STATUS_MAP, table_get.
  repeat match goal with |- context [String.eqb k ?s] => destruct (String.eqb k s) end;
    cbn; tauto.
Qed.

(** X15. A normalized status is always a canonical one: [success],
    [failed] or [pending] from the Vima normalizer, these or [processing]
    or [refunded] from the PayShack normalizers, whatever the source
    sent. *)
Theorem normalized_status_canonical rt raw n :
  (VimaNormalizer.normalize rt raw = Ok n ->
   In (n_status n) ["success"; "failed"; "pending"]) /\
  (PayShackNormalizer.normalize_payin rt raw = Ok n \/
   PayShackNormalizer.normalize_payout rt raw = Ok n ->
   In (n_status n) ["success"; "failed"; "pending"; "processing"; "refunded"]).
Proof.
  split.
  - intros H. unfold VimaNormalizer.normalize in H. peel H. injection H as <-.
    cbn [n_status]. apply vima_status_values.
  - intros [H|H].
    + unfold PayShackNormalizer.normalize_payin in H. peel H. injection H as <-.
      cbn [n_status]. apply payshack_status_values.
    + unfold PayShackNormalizer.normalize_payout in H. peel H. injection H as <-.
      cbn [n_status]. apply payshack_status_values.
Qed.

Lemma vima_normalize_key rt raw n :
  VimaNormalizer.normalize rt raw = Ok n ->
  exists c,
    py_get raw "client_operation_id" PNone = Ok c /\
    (truthy c = true -> n_client_operation_id n = c) /\
    (truthy c = false ->
     exists identifiers c_id,
       create_params_identifiers raw = Ok identifiers /\
       py_get identifiers "c_id" (PStr "") = Ok c_id /\
       n_client_operation_id n = py_or (PStr (py_str rt c_id)) PNone) /\
    n_order_id n = PNone.
Proof.
  intros H. unfold VimaNormalizer.normalize in H.
  apply bind_ok in H as (create_params & Hcp & H).
  apply bind_ok in H as (params & Hpa & H).
  apply bind_ok in H as (payment & Hpay & H).
  apply bind_ok in H as (payer & _ & H).
  apply bind_ok in H as (person & _ & H).
  apply bind_ok in H as (amount_data & _ & H).
  apply bind_ok in H as (client_data & _ & H).
  apply bind_ok in H as (identifiers & Hid & H).
  do 11 (apply bind_ok in H as (? & _ & H)).
  apply bind_ok in H as (c & Hc & H).
  apply bind_ok in H as (key & Hkey & H).
  peel H. injection H as <-. cbn [n_client_operation_id n_order_id].
  exists c. split; [exact Hc|]. split; [|split; [|reflexivity]]; intros Ht; rewrite Ht in Hkey.
  - now injection Hkey as <-.
  - apply bind_ok in Hkey as (c_id & Hcid & Hkey). injection Hkey as <-.
    exists identifiers, c_id. split.
    + unfold create_params_identifiers. rewrite Hcp. cbn [bind]. rewrite Hpa.
      cbn [bind]. rewrite Hpay. cbn [bind]. exact Hid.
    + split; [exact Hcid | reflexivity].
Qed.

(** X16. The matching key of a normalized Vima record is None or a
    non-empty value, never the empty string, and its [order_id] is None;
    so a stored Vima row has a NULL [order_id] and a
    [client_operation_id] that is NULL or not empty. *)
Theorem vima_key_null_or_nonempty rt raw n :
  VimaNormalizer.normalize rt raw = Ok n ->
  (n_client_operation_id n = PNone \/ truthy (n_client_operation_id n) = true) /\
  n_order_id n = PNone /\
  (forall i now row, Columns.to_row i now n = Ok row ->
     order_id row = None /\
     (client_operation_id row = None \/ str_truthy (client_operation_id row) = true)).
Proof.
  intros H. destruct (vima_normalize_key _ _ _ H) as (c & _ & Htrue & Hfalse & Hord).
  assert (Hkey : n_client_operation_id n = PNone \/ truthy (n_client_operation_id n) = true).
  { destruct (truthy c) eqn:Ht.
    - right. now rewrite (Htrue eq_refl).
    - destruct (Hfalse eq_refl) as (identifiers & c_id & _ & _ & ->).
      unfold py_or. destruct (truthy (PStr (py_str rt c_id))) eqn:E; auto. }
  split; [exact Hkey|]. split; [exact Hord|].
  intros i now row Hrow. unfold Columns.to_row in Hrow.
  do 4 (apply bind_ok in Hrow as (? & _ & Hrow)).
  apply bind_ok in Hrow as (ref & _ & Hrow).
  apply bind_ok in Hrow as (cop & Hcop & Hrow).
  apply bind_ok in Hrow as (ord & Hordc & Hrow).
  peel Hrow. injection Hrow as <-. cbn [order_id client_operation_id].
  rewrite Hord in Hordc. injection Hordc as <-. split; [reflexivity|].
  unfold Columns.as_varchar, Columns.data_error in Hcop.
  destruct Hkey as [E|E].
  - rewrite E in Hcop. injection Hcop as <-. now left.
  - destruct (n_client_operation_id n) as [| | | |s| |]; try discriminate.
    destruct (_ <=? _)%nat; [|discriminate]. injection Hcop as <-. right. exact E.
Qed.

(** X17. When a Vima operation has no [client_operation_id] of its own,
    the key comes from the text of the nested [c_id]: a JSON null there
    becomes the key "None", while an empty string leaves the record
    without a key. *)
Theorem vima_null_c_id_gives_text_none rt raw n c identifiers :
  VimaNormalizer.normalize rt raw = Ok n ->
  py_get raw "client_operation_id" PNone = Ok c -> truthy c = false ->
  create_params_identifiers raw = Ok identifiers ->
  (py_get identifiers "c_id" (PStr "") = Ok PNone ->
   n_client_operation_id n = PStr "None") /\
  (py_get identifiers "c_id" (PStr "") = Ok (PStr "") ->
   n_client_operation_id n = PNone).
Proof.
  intros H Hc Ht Hid.
  destruct (vima_normalize_key _ _ _ H) as (c' & Hc' & _ & Hfalse & _).
  rewrite Hc in Hc'. injection Hc' as <-.
  destruct (Hfalse Ht) as (identifiers' & c_id & Hid' & Hcid & ->).
  rewrite Hid in Hid'. injection Hid' as <-.
  split; intros E; rewrite E in Hcid; injection Hcid as <-; reflexivity.
Qed.

Lemma normalize_not_dict rt raw :
  is_dict raw = false ->
  (exists m, VimaNormalizer.normalize rt raw = Raise (AttributeError m)) /\
  (exists m, PayShackNormalizer.normalize_payin rt raw = Raise (AttributeError m)) /\
  (exists m, PayShackNormalizer.normalize_payout rt raw = Raise (AttributeError m)).
Proof.
  intros H. destruct raw; try discriminate;
    (split; [|split]); eexists; reflexivity.
Qed.

(** X18. A Vima operation whose [create_params] is present but is not
    an object (a JSON null, for instance) cannot be normalized: the
    normalizer raises an AttributeError, whatever else the operation
    holds. *)
Theorem vima_create_params_not_object_raises rt raw v :
  py_get raw "create_params" (PDict []) = Ok v -> is_dict v = false ->
  exists m, VimaNormalizer.normalize rt raw = Raise (AttributeError m).
Proof.
  intros Hv Hd. unfold VimaNormalizer.normalize. rewrite Hv. cbn [bind].
  destruct v; try discriminate; cbn; eauto.
Qed.

Lemma normalize_each_dicts f id_key records :
  Forall (fun r => is_dict r = true) records ->
  exists errs,
    normalize_each f id_key records
      = Ok (omap (fun r => match f r with Ok n => Some n | Raise _ => None end) records,
            errs) /\
    map snd errs
      = omap (fun r => match f r with Ok _ => None | Raise e => Some e end) records.
Proof.
  induction 1 as [|r records Hr _ (errs & IH & IHe)]; [exists []; split; reflexivity|].
  cbn [normalize_each omap list_omap]. destruct (f r) as [n|e].
  - rewrite IH. cbn. exists errs. split; [reflexivity | exact IHe].
  - destruct r; try discriminate. cbn [py_get bind]. rewrite IH. cbn.
    eexists. split; [reflexivity|]. cbn. now rewrite IHe.
Qed.

Lemma normalize_each_aborts f id_key records :
  (forall r, is_dict r = false -> exists m, f r = Raise (AttributeError m)) ->
  Exists (fun r => is_dict r = false) records ->
  exists m, normalize_each f id_key records = Raise (AttributeError m).
Proof.
  intros Hf. induction 1 as [r records Hr|r records _ (m & IH)]; cbn [normalize_each].
  - destruct (Hf r Hr) as (m & ->). destruct r; try discriminate; cbn; eauto.
  - rewrite IH. destruct (f r) as [n|e]; [cbn; eauto|].
    destruct r; cbn; eauto.
Qed.

Lemma omap_partition_length {A B C} (f : A -> result B) (g : exn -> C) (l : list A) :
  (length (omap (fun r => match f r with Ok n => Some n | Raise _ => None end) l)
   + length (omap (fun r => match f r with Ok _ => None | Raise e => Some (g e) end) l)
   = length l)%nat.
Proof.
  induction l as [|a l IH]; [reflexivity|].
  cbn [omap list_omap]. destruct (f a); cbn [length]; lia.
Qed.

(** X19. The normalization loops of the sync services.  On a batch of
    JSON objects the loop never raises: the records that normalize are
    kept in order, each of the others is skipped with its exception, and
    kept and skipped together are the whole batch.  A record that is not
    an object makes the handler itself raise an AttributeError, which ends
    the loop. *)
Theorem normalize_loop_skips_or_aborts rt f id_key records :
  In (f, id_key)
     [(VimaNormalizer.normalize rt, "operation_id");
      (PayShackNormalizer.normalize_payin rt, "txnId");
      (PayShackNormalizer.normalize_payout rt, "txnId")] ->
  (Forall (fun r => is_dict r = true) records ->
   exists errs,
     normalize_each f id_key records
       = Ok (omap (fun r => match f r with Ok n => Some n | Raise _ => None end) records,
             errs) /\
     map snd errs
       = omap (fun r => match f r with Ok _ => None | Raise e => Some e end) records /\
     (length (omap (fun r => match f r with Ok n => Some n | Raise _ => None end) records)
      + length errs = length records)%nat) /\
  (Exists (fun r => is_dict r = false) records ->
   exists m, normalize_each f id_key records = Raise (AttributeError m)).
Proof.
  intros Hin. split.
  - intros Hall. destruct (normalize_each_dicts f id_key records Hall) as (errs & H & He).
    exists errs. split; [exact H|]. split; [exact He|].
    rewrite <- (length_map snd errs), He.
    apply (omap_partition_length f (fun e => e)).
  - apply normalize_each_aborts. intros r Hr.
    destruct (normalize_not_dict rt r Hr) as (Hv & Hpi & Hpo).
    destruct Hin as [[= <- _]|[[= <- _]|[[= <- _]|[]]]]; assumption.
Qed.

Lemma normalize_each_last f id_key records : forall ns errs r n,
  normalize_each f id_key records = Ok (ns, errs) ->
  last records = Some r -> f r = Ok n -> last ns = Some n.
Proof.
  induction records as [|r0 records IH]; intros ns errs r n H Hl Hf; [discriminate|].
  cbn [normalize_each] in H.
  destruct records as [|r1 records].
  - cbn in Hl. injection Hl as ->. rewrite Hf in H. cbn in H. now injection H as <- _.
  - assert (Hl' : last (r1 :: records) = Some r) by exact Hl.
    destruct (f r0) as [n0|e0].
    + apply bind_ok in H as ([ns' errs'] & H' & H). injection H as <- _.
      specialize (IH _ _ _ _ H' Hl' Hf). cbn [fst].
      destruct ns' as [|n1 ns']; [discriminate|]. exact IH.
    + apply bind_ok in H as (ident & _ & H).
      apply bind_ok in H as ([ns' errs'] & H' & H). injection H as <- _.
      exact (IH _ _ _ _ H' Hl' Hf).
Qed.

(** X20. The cursor that the sync stores is the cursor that the client
    pages with: when the last operation of a batch normalizes, it is the
    last normalized record, and its [source_create_cursor] is the
    [operation_create_id] that [get_all_operations] takes from the
    batch. *)
Theorem stored_cursor_is_paging_cursor rt operations ns errs op n :
  normalize_each (VimaNormalizer.normalize rt) "operation_id" operations = Ok (ns, errs) ->
  last operations = Some op ->
  VimaNormalizer.normalize rt op = Ok n ->
  last ns = Some n /\
  VimaClient.last_create_id (PList operations) = Ok (n_source_create_cursor n).
Proof.
  intros H Hl Hn. split; [eapply normalize_each_last; eauto|].
  unfold VimaClient.last_create_id. rewrite Hl.
  unfold VimaNormalizer.normalize in Hn.
  do 34 (apply bind_ok in Hn as (? & _ & Hn)).
  apply bind_ok in Hn as (cur & Hcur & Hn).
  peel Hn. injection Hn as <-. exact Hcur.
Qed.


(** ** Conversion to USD *)

Lemma round_half_even_bound c k :
  0 <= c -> 0 <= k ->
  let q := round_half_even c k in
  0 <= q /\ q <= c / 10 ^ k + 1 /\ 2 * Z.abs (q * 10 ^ k - c) <= 10 ^ k.
Proof.
  intros Hc Hk. cbn zeta. unfold round_half_even.
  assert (Hp : 0 < 10 ^ k) by (apply Z.pow_pos_nonneg; lia).
  pose proof (Z.div_mod c (10 ^ k) ltac:(lia)) as Hdm.
  pose proof (Z.mod_pos_bound c (10 ^ k) Hp) as Hr.
  assert (Hq : 0 <= c / 10 ^ k) by (apply Z.div_pos; lia).
  set (p := 10 ^ k) in *. set (q := c / p) in *. set (r := c mod p) in *.
  destruct (2 * r <? p) eqn:E1; [apply Z.ltb_lt in E1; nia|].
  apply Z.ltb_ge in E1.
  destruct (p <? 2 * r) eqn:E2; [apply Z.ltb_lt in E2; nia|].
  apply Z.ltb_ge in E2.
  destruct (Z.even q); nia.
Qed.

(** X21. [convert_sync] on an INR amount of at most 18 digits with a
    non-positive exponent returns the amount times 0.012 at four decimal
    places: exactly when the product has at most four places, and within
    half a unit of the fourth place otherwise. *)
Theorem convert_sync_rounds_to_nearest c e :
  Z.abs c < 10 ^ 18 -> e <= 0 ->
  exists q,
    CurrencyService.convert_sync_inr (Fin c e) = Ok (Fin q (-4)) /\
    (-1 <= e -> q = 12 * c * 10 ^ (e + 1)) /\
    (e <= -2 -> 2 * Z.abs (q * 10 ^ (- e - 1) - 12 * c) <= 10 ^ (- e - 1)).
Proof.
  intros Hc He. unfold CurrencyService.convert_sync_inr.
  assert (H18 : 10 ^ 18 = 1000000000000000000) by reflexivity.
  assert (H20 : 10 ^ 20 = 100000000000000000000) by reflexivity.
  assert (H28 : 10 ^ 28 = 10000000000000000000000000000) by reflexivity.
  change (DecParse.of_string CurrencyService.inr_rate_str) with (Ok (Fin 12 (-3))).
  cbn [bind]. unfold mul.
  rewrite fix_small by lia. cbn [bind]. unfold quantize.
  destruct (c * 12 =? 0) eqn:Hz.
  { apply Z.eqb_eq in Hz. assert (c = 0) by lia. subst c.
    exists 0. split; [reflexivity|]. split; intros; [lia|].
    rewrite Z.mul_0_l. cbn. assert (0 < 10 ^ (- e - 1)) by (apply Z.pow_pos_nonneg; lia). lia. }
  apply Z.eqb_neq in Hz.
  assert (Hd : ndigits (Z.abs (c * 12)) <= 20).
  { unfold ndigits. apply (ndigits_from_le _ 1 _ 20); lia. }
  destruct (prec <? ndigits (Z.abs (c * 12)) + (e + -3) - -4) eqn:Hpre.
  { apply Z.ltb_lt in Hpre. unfold prec in Hpre. lia. }
  destruct (-4 <=? e + -3) eqn:Hexact.
  - apply Z.leb_le in Hexact. eexists. split; [reflexivity|]. split; intros; [|lia].
    replace (e + -3 - -4) with (e + 1) by lia. lia.
  - apply Z.leb_gt in Hexact.
    replace (-4 - (e + -3)) with (- e - 1) by lia.
    destruct (round_half_even_bound (Z.abs (c * 12)) (- e - 1)) as (Hq0 & Hq1 & Hq2);
      [lia | lia |].
    set (q := round_half_even (Z.abs (c * 12)) (- e - 1)) in *.
    assert (Hp : 0 < 10 ^ (- e - 1)) by (apply Z.pow_pos_nonneg; lia).
    assert (Hqle : q < 10 ^ 28).
    { assert (Z.abs (c * 12) / 10 ^ (- e - 1) <= Z.abs (c * 12)).
      { apply Z.div_le_upper_bound; [lia|]. nia. }
      lia. }
    destruct (prec <? ndigits q) eqn:Hnd.
    { apply Z.ltb_lt in Hnd. pose proof (ndigits_bounds q Hqle). unfold prec in Hnd. lia. }
    rewrite fix_small by (destruct (Z.sgn_spec (c * 12)) as [[? ->]|[[? ->]|[? ->]]]; lia).
    eexists. split; [reflexivity|]. split; intros; [lia|].
    destruct (Z.sgn_spec (c * 12)) as [[Hs ->]|[[Hs ->]|[Hs ->]]]; [|lia|].
    + lia.
    + lia.
Qed.

Lemma convert_sync_rounds_to_nearest_witness :
  exists q,
    CurrencyService.convert_sync_inr (Fin 1234567 (-4)) = Ok (Fin q (-4)) /\
    (-1 <= -4 -> q = 12 * 1234567 * 10 ^ (-4 + 1)) /\
    (-4 <= -2 -> 2 * Z.abs (q * 10 ^ (- -4 - 1) - 12 * 1234567) <= 10 ^ (- -4 - 1)).
Proof.
  apply (convert_sync_rounds_to_nearest 1234567 (-4)); lia.
Defined.


(** ** The clients, request by request *)

Lemma vima_once_no_transport srv filters count descending cursor c e :
  (VimaClient.get_operations_once srv filters count descending cursor c).2 = Raise e ->
  is_transport e = false.
Proof.
  unfold VimaClient.get_operations_once.
  destruct (respond srv _ _) as [code body|code text| | |]; cbn [checked_body].
  - destruct ((200 <=? code) && (code <? 300)).
    + destruct body; discriminate.
    + cbn. intros [= <-]. reflexivity.
  - destruct ((200 <=? code) && (code <? 300)); cbn; intros [= <-]; reflexivity.
  - cbn. intros [= <-]. reflexivity.
  - cbn. intros [= <-]. reflexivity.
  - cbn. intros [= <-]. reflexivity.
Qed.

Lemma vima_get_operations_once srv filters count descending cursor c :
  VimaClient.get_operations srv filters count descending cursor c
  = VimaClient.get_operations_once srv filters count descending cursor c.
Proof. apply retrying_once. apply vima_once_no_transport. Qed.

Lemma vima_get_operations_sent srv filters count descending cursor c :
  VimaClient.sent (VimaClient.get_operations srv filters count descending cursor c).1
  = (VimaClient.sent c
     ++ [VimaClient.operations_request c filters count descending cursor])%list.
Proof.
  rewrite vima_get_operations_once. unfold VimaClient.get_operations_once.
  destruct (checked_body _) as [[]|[]]; reflexivity.
Qed.

(** X22. [get_operations] of the Vima client sends exactly one request,
    whatever the answer: its body turns a timeout or a connection error
    into a VimaAPIError, so the retry decorator never sees one.  A 2xx
    answer with a JSON body is returned (the list, the [operations] of an
    object, else the empty list); a 2xx answer whose body is not JSON
    raises the decoding error of [response.json()], which no handler
    catches; any other status raises a VimaAPIError with that status, a
    transport failure one without a status. *)
Theorem vima_get_operations_single_request srv filters count descending cursor c :
  let req := VimaClient.operations_request c filters count descending cursor in
  let out := VimaClient.get_operations srv filters count descending cursor c in
  VimaClient.sent out.1 = (VimaClient.sent c ++ [req])%list /\
  match respond srv (VimaClient.sent c) req with
  | Reply code body =>
      if (200 <=? code) && (code <? 300)
      then out.2 = Ok (match body with
                       | PList l => PList l
                       | PDict kv => default (PList []) (assoc "operations" kv)
                       | _ => PList []
                       end)
      else exists m, out.2 = Raise (VimaAPIError m (Some code))
  | ReplyText code _ =>
      if (200 <=? code) && (code <? 300)
      then exists m, out.2 = Raise (JSONDecodeError m)
      else exists m, out.2 = Raise (VimaAPIError m (Some code))
  | NetTimeout | NetConnectError | NetOtherError =>
      exists m, out.2 = Raise (VimaAPIError m None)
  end.
Proof.
  cbn zeta. split; [apply vima_get_operations_sent|].
  rewrite vima_get_operations_once. unfold VimaClient.get_operations_once.
  destruct (respond srv _ _) as [code body|code text| | |]; cbn [checked_body].
  - destruct ((200 <=? code) && (code <? 300)).
    + destruct body as [| | | | | |kv]; reflexivity.
    + cbn. eauto.
  - destruct ((200 <=? code) && (code <? 300)); cbn; eauto.
  - cbn. eauto.
  - cbn. eauto.
  - cbn. eauto.
Qed.

Lemma operations_loop_chain budget : forall srv filters batch_size cursor c,
  let r := VimaClient.operations_loop budget srv filters batch_size cursor c in
  let out := r.2 in
  (forall cur ops, trace out !! 0%nat = Some (cur, ops) -> cur = cursor) /\
  (forall i cur ops cur' ops',
     trace out !! i = Some (cur, ops) -> trace out !! S i = Some (cur', ops') ->
     VimaClient.last_create_id ops = Ok cur' /\ truthy cur' = true /\
     py_eqb cur' cur = false) /\
  yielded out = filter (fun ops => truthy ops = true) (map snd (trace out)) /\
  length (VimaClient.sent r.1) = (length (VimaClient.sent c) + calls out)%nat.
Proof.
  induction budget as [|budget IH]; intros srv filters batch_size cursor c;
    cbn [VimaClient.operations_loop].
  { cbn. split; [|split; [|split; [reflexivity | lia]]]; intros; discriminate. }
  pose proof (vima_get_operations_sent srv filters batch_size false cursor c) as Hsent.
  destruct (VimaClient.get_operations srv filters batch_size false cursor c)
    as [c1 [operations|e]]; cbn [fst] in Hsent.
  2:{ cbn. rewrite Hsent, length_app. cbn.
      split; [|split; [|split; [reflexivity | lia]]]; intros; discriminate. }
  assert (Hlen : length (VimaClient.sent c1) = (length (VimaClient.sent c) + 1)%nat).
  { rewrite Hsent, length_app. cbn. lia. }
  destruct (truthy operations) eqn:Hops; cbn [negb].
  2:{ cbn [trace yielded calls map snd fst]. rewrite filter_cons. cbn [snd].
      destruct (decide (truthy operations = true)); [congruence|].
      split; [|split; [|split; [reflexivity | lia]]].
      - intros cur ops [= <- _]. reflexivity.
      - intros [|i] ? ? ? ? ? Hd; discriminate Hd. }
  assert (Hsingle : forall st,
    let out := mkPagination [operations] [(cursor, operations)] 1 st in
    (forall cur ops, trace out !! 0%nat = Some (cur, ops) -> cur = cursor) /\
    (forall i cur ops cur' ops',
       trace out !! i = Some (cur, ops) -> trace out !! S i = Some (cur', ops') ->
       VimaClient.last_create_id ops = Ok cur' /\ truthy cur' = true /\
       py_eqb cur' cur = false) /\
    yielded out = filter (fun ops => truthy ops = true) (map snd (trace out)) /\
    length (VimaClient.sent c1) = (length (VimaClient.sent c) + calls out)%nat).
  { intros st. cbn [trace yielded calls map snd fst]. rewrite filter_cons. cbn [snd].
    destruct (decide (truthy operations = true)); [|congruence].
    split; [|split; [|split; [reflexivity | lia]]].
    - intros cur ops [= <- _]. reflexivity.
    - intros [|i] ? ? ? ? ? Hd; discriminate Hd. }
  destruct (VimaClient.last_create_id operations) as [new_cursor|e] eqn:Hlast.
  2:{ apply Hsingle. }
  destruct (negb (truthy new_cursor) || py_eqb new_cursor cursor) eqn:Hstall.
  { apply Hsingle. }
  apply orb_false_iff in Hstall as [Ht He]. apply negb_false_iff in Ht.
  specialize (IH srv filters batch_size new_cursor c1).
  destruct (VimaClient.operations_loop budget srv filters batch_size new_cursor c1)
    as [c2 rest]. cbn [fst snd] in *.
  destruct IH as (Hfirst & Hchain & Hy & Hs).
  cbn [after_page trace yielded calls map snd]. rewrite filter_cons. cbn [snd].
  destruct (decide (truthy operations = true)); [|congruence].
  split; [|split; [|split]].
  - intros cur ops [= <- _]. reflexivity.
  - intros [|i] cur ops cur' ops' H H'; cbn in H, H'.
    + injection H as <- <-. apply Hfirst in H'. subst cur'. auto.
    + eapply Hchain; eauto.
  - now rewrite Hy.
  - lia.
Qed.

(** X23. The pages of [get_all_operations] are chained by the cursor:
    the first page is asked with the given cursor, each later one with
    the [operation_create_id] of the last operation of the page before,
    which is not empty and differs from the cursor of that page; the
    batches yielded are the non-empty pages fetched, and one request is
    sent for each call. *)
Theorem vima_pagination_cursor_chain srv cursor batch_size max_batches filters c :
  let r := VimaClient.get_all_operations srv cursor batch_size max_batches filters c in
  let out := r.2 in
  (forall cur ops, trace out !! 0%nat = Some (cur, ops) -> cur = cursor) /\
  (forall i cur ops cur' ops',
     trace out !! i = Some (cur, ops) -> trace out !! S i = Some (cur', ops') ->
     VimaClient.last_create_id ops = Ok cur' /\ truthy cur' = true /\
     py_eqb cur' cur = false) /\
  yielded out = filter (fun ops => truthy ops = true) (map snd (trace out)) /\
  length (VimaClient.sent r.1) = (length (VimaClient.sent c) + calls out)%nat.
Proof.
  unfold VimaClient.get_all_operations. apply operations_loop_chain.
Qed.

Lemma login_once_sent srv c :
  sent (login_once srv c).1 = (sent c ++ [login_request c])%list.
Proof.
  unfold login_once, send.
  destruct (checked_body _) as [data|e]; cbn [fst].
  - destruct (py_get data "success" PNone) as [success|e]; [|reflexivity].
    destruct (negb (truthy success)); [reflexivity|].
    destruct (py_get data "data" (PDict [])) as [auth_data|e]; [|reflexivity].
    destruct (py_get auth_data "token" PNone), (py_get auth_data "clientId" PNone),
      (py_get auth_data "refreshToken" PNone); reflexivity.
  - destruct e; reflexivity.
Qed.

(** X24. [login] of the PayShack client sends exactly one request.  On
    success the token, the client id and the refresh token are those of
    the answer and the expiry is 30 minutes after the clock reading; on
    failure the stored credentials are as before, and the exception is
    not a transport error. *)
Theorem login_outcome srv c :
  let out := login srv c in
  sent out.1 = (sent c ++ [login_request c])%list /\
  match out.2 with
  | Ok auth_data =>
      py_get auth_data "token" PNone = Ok (_token out.1) /\
      py_get auth_data "clientId" PNone = Ok (_client_id out.1) /\
      py_get auth_data "refreshToken" PNone = Ok (_refresh_token out.1) /\
      _token_expires_at out.1 = Some (clock srv (sent out.1) + minutes 30) /\
      exists code body,
        respond srv (sent c) (login_request c) = Reply code body /\ 200 <= code < 300
  | Raise e =>
      _token out.1 = _token c /\ _client_id out.1 = _client_id c /\
      _refresh_token out.1 = _refresh_token c /\
      _token_expires_at out.1 = _token_expires_at c /\
      is_transport e = false
  end.
Proof.
  cbn zeta. rewrite login_is_login_once. split; [apply login_once_sent|].
  pose proof (login_once_no_transport srv c) as Hnt.
  unfold login_once, send in *.
  destruct (respond srv (sent c) (login_request c)) as [code body|code text| | |];
    cbn [checked_body] in *.
  3-5: cbn in *; repeat split; apply Hnt; reflexivity.
  2:{ destruct ((200 <=? code) && (code <? 300)); cbn in *; repeat split. }
  destruct ((200 <=? code) && (code <? 300)) eqn:Hc.
  2:{ cbn in *. repeat split. }
  assert (200 <= code < 300) by lia.
  destruct (py_get body "success" PNone) as [success|e]; [|cbn in *; repeat split; now apply Hnt].
  destruct (negb (truthy success)); [cbn in *; repeat split|].
  destruct (py_get body "data" (PDict [])) as [auth_data|e];
    [|cbn in *; repeat split; now apply Hnt].
  destruct auth_data; cbn in *; try (repeat split; now apply Hnt).
  repeat split; eauto.
Qed.


Lemma login_once_raises srv c e :
  (login_once srv c).2 = Raise e -> fetch_error e.
Proof.
  unfold login_once, send. cbn [fst snd].
  destruct (respond srv (sent c) (login_request c)) as [code body|code text| | |];
    cbn [checked_body].
  - destruct ((200 <=? code) && (code <? 300)); cbn.
    + destruct body; cbn; try (intros [= <-]; exact I).
      destruct (negb _); cbn; [intros [= <-]; exact I|].
      destruct (default (PDict []) (assoc "data" kv)); cbn;
        try (intros [= <-]; exact I); discriminate.
    + intros [= <-]. exact I.
  - destruct ((200 <=? code) && (code <? 300)); cbn; intros [= <-]; exact I.
  - cbn. intros [= <-]. exact I.
  - cbn. intros [= <-]. exact I.
  - cbn. intros [= <-]. exact I.
Qed.

Lemma ensure_auth_raises srv c e :
  (_ensure_auth srv c).2 = Raise e -> fetch_error e.
Proof.
  unfold _ensure_auth. destruct (_ || _); [|discriminate].
  rewrite login_is_login_once.
  pose proof (login_once_raises srv c) as H.
  destruct (login_once srv c) as [c' [a|e']]; cbn in *; [discriminate|].
  intros [= <-]. now apply H.
Qed.

Lemma fetch_page_raises depth srv ep q : forall c e,
  (fetch_page depth srv ep q c).2 = Raise e -> fetch_error e.
Proof.
  induction depth as [|depth IH]; intros c e.
  { cbn. intros [= <-]. exact I. }
  rewrite fetch_page_body. unfold fetch_body.
  pose proof (ensure_auth_raises srv c) as Hauth.
  destruct (_ensure_auth srv c) as [c1 [[]|e1]]; cbn [snd] in Hauth;
    [|intros [= <-]; now apply Hauth].
  unfold send.
  destruct (respond srv (sent c1) (page_request ep c1 q)) as [code body|code text| | |];
    cbn [checked_body]; try (cbn; intros [= <-]; exact I).
  all: destruct ((200 <=? code) && (code <? 300)); cbn [bind].
  - pose proof (page_result_raises ep body) as Hp.
    destruct (page_result ep body) as [res|e2]; [discriminate|].
    specialize (Hp e2 eq_refl).
    destruct e2; try contradiction; cbn; intros [= <-]; exact I.
  - destruct ((code =? 401) || (code =? 403)); [|cbn; intros [= <-]; exact I].
    match goal with |- context [_ensure_auth srv ?c3] =>
      pose proof (ensure_auth_raises srv c3) as Hauth3;
      destruct (_ensure_auth srv c3) as [c4 [[]|e4]] end; cbn [snd] in Hauth3.
    + apply IH.
    + intros [= <-]. now apply Hauth3.
  - cbn. intros [= <-]. exact I.
  - destruct ((code =? 401) || (code =? 403)); [|cbn; intros [= <-]; exact I].
    match goal with |- context [_ensure_auth srv ?c3] =>
      pose proof (ensure_auth_raises srv c3) as Hauth3;
      destruct (_ensure_auth srv c3) as [c4 [[]|e4]] end; cbn [snd] in Hauth3.
    + apply IH.
    + intros [= <-]. now apply Hauth3.
Qed.

(** X25. What a PayShack page fetch ends with: a result whose
    [transactions] has a length, or a PayShackAPIError, an AttributeError
    or a TypeError from the shape of the body, the decoding error of a 2xx
    body that is not JSON, or the recursion error; never a bare transport
    or HTTP status exception. *)
Theorem fetch_page_error_kinds depth srv ep q c :
  match (fetch_page depth srv ep q c).2 with
  | Ok res =>
      exists transactions,
        py_get res "transactions" (PList []) = Ok transactions /\
        is_ok (py_len transactions) = true
  | Raise e => fetch_error e /\ is_transport e = false
  end.
Proof.
  destruct (fetch_page depth srv ep q c).2 as [res|e] eqn:H.
  2:{ split; [eapply fetch_page_raises | eapply fetch_page_no_transport]; eauto. }
  revert c H. induction depth as [|depth IH]; intros c H; [discriminate|].
  rewrite fetch_page_body in H. unfold fetch_body in H.
  destruct (_ensure_auth srv c) as [c1 [[]|e1]]; [|discriminate].
  unfold send in H.
  destruct (respond srv (sent c1) (page_request ep c1 q)) as [code body|code text| | |];
    cbn [checked_body] in H; try discriminate.
  all: destruct ((200 <=? code) && (code <? 300)); cbn [bind] in H.
  - destruct (page_result ep body) as [res'|e2] eqn:Hp.
    + cbn in H. injection H as <-. unfold page_result in Hp. peel Hp.
      destruct (negb (truthy x)); [discriminate|]. peel Hp. injection Hp as <-.
      exists x1. split; [assumption|]. now rewrite Hx2.
    + pose proof (page_result_raises ep body e2 Hp) as Hk.
      destruct e2; try contradiction; discriminate.
  - destruct ((code =? 401) || (code =? 403)); [|discriminate].
    match type of H with context [_ensure_auth srv ?c3] =>
      destruct (_ensure_auth srv c3) as [c4 [[]|e4]] end; [|discriminate].
    eapply IH; eauto.
  - discriminate.
  - destruct ((code =? 401) || (code =? 403)); [|discriminate].
    match type of H with context [_ensure_auth srv ?c3] =>
      destruct (_ensure_auth srv c3) as [c4 [[]|e4]] end; [|discriminate].
    eapply IH; eauto.
Qed.

(** X26. A page request that fails for another reason than
    authentication (a status other than 2xx, 401 and 403, with a JSON body
    or not, or a transport failure) is reported at once as a
    PayShackAPIError, with the status when there is one: the request is
    sent once, and neither the retry decorator nor a new login follows. *)
Theorem failed_page_request_reported_once srv ep q depth c c1 :
  _ensure_auth srv c = (c1, Ok tt) ->
  let req := page_request ep c1 q in
  let reply := respond srv (sent c1) req in
  (forall code body, reply = Reply code body ->
     ~ 200 <= code < 300 /\ code <> 401 /\ code <> 403) ->
  (forall code text, reply = ReplyText code text ->
     ~ 200 <= code < 300 /\ code <> 401 /\ code <> 403) ->
  exists m status,
    fetch_page (S depth) srv ep q c
      = (set_sent c1 (sent c1 ++ [req])%list, Raise (PayShackAPIError m status)) /\
    (forall code body, reply = Reply code body -> status = Some code) /\
    (forall code text, reply = ReplyText code text -> status = Some code) /\
    (reply = NetTimeout \/ reply = NetConnectError \/ reply = NetOtherError ->
     status = None).
Proof.
  intros Hauth req reply Hbad Hbad'.
  rewrite fetch_page_body. unfold fetch_body. rewrite Hauth. unfold send.
  fold req. fold reply.
  destruct reply as [code body|code text| | |] eqn:Hr; cbn [checked_body].
  - destruct (Hbad code body eq_refl) as (H2 & H401 & H403).
    assert (E1 : (200 <=? code) && (code <? 300) = false) by lia.
    assert (E2 : (code =? 401) || (code =? 403) = false) by lia.
    rewrite E1. cbn [bind]. rewrite E2.
    eexists. eexists. split; [reflexivity|]. split; [|split].
    + intros code' body' [= <- _]. reflexivity.
    + discriminate.
    + intros [?|[?|?]]; discriminate.
  - destruct (Hbad' code text eq_refl) as (H2 & H401 & H403).
    assert (E1 : (200 <=? code) && (code <? 300) = false) by lia.
    assert (E2 : (code =? 401) || (code =? 403) = false) by lia.
    rewrite E1. cbn [bind]. rewrite E2.
    eexists. eexists. split; [reflexivity|]. split; [|split].
    + discriminate.
    + intros code' text' [= <- _]. reflexivity.
    + intros [?|[?|?]]; discriminate.
  - cbn. eexists. eexists. split; [reflexivity|].
    split; [discriminate|]. split; [discriminate | reflexivity].
  - cbn. eexists. eexists. split; [reflexivity|].
    split; [discriminate|]. split; [discriminate | reflexivity].
  - cbn. eexists. eexists. split; [reflexivity|].
    split; [discriminate|]. split; [discriminate | reflexivity].
Qed.




Lemma pages_loop_batches budget : forall depth srv ep filters max_pages page c,
  let out := (pages_loop budget depth srv ep filters max_pages page c).2 in
  yielded out = omap (fun entry => page_batch entry.2) (trace out) /\
  (forall i p res, trace out !! i = Some (p, res) ->
     p = page + Z.of_nat i /\ p <= max_pages).
Proof.
  induction budget as [|budget IH]; intros depth srv ep filters max_pages page c;
    cbn [pages_loop].
  { cbn. split; [reflexivity|]. intros; discriminate. }
  destruct (page <=? max_pages) eqn:Hle; cbn [negb].
  2:{ cbn. split; [reflexivity|]. intros; discriminate. }
  apply Z.leb_le in Hle.
  destruct (fetch_page depth srv ep (with_page filters page) c) as [c1 [res0|e]].
  2:{ cbn. split; [reflexivity|]. intros; discriminate. }
  assert (Hone : forall i p res,
            [(page, res0)] !! i = Some (p, res) -> p = page + Z.of_nat i /\ p <= max_pages).
  { intros [|i] p res Hi; [|discriminate]. injection Hi as <- <-. lia. }
  unfold page_batch.
  destruct (py_get res0 "transactions" (PList [])) as [transactions|e] eqn:Htx.
  2:{ cbn [snd trace yielded omap list_omap]. rewrite Htx. split; [reflexivity | exact Hone]. }
  destruct (truthy transactions) eqn:Htruthy; cbn [negb].
  2:{ cbn [snd trace yielded omap list_omap]. rewrite Htx, Htruthy.
      split; [reflexivity | exact Hone]. }
  destruct (let* total_pages := py_get res0 "totalPages" (PInt 1) in
            int_ge page total_pages) as [[|]|e].
  1,3: cbn [snd trace yielded omap list_omap]; rewrite Htx, Htruthy;
       (split; [reflexivity | exact Hone]).
  specialize (IH depth srv ep filters max_pages (page + 1) c1).
  destruct (pages_loop budget depth srv ep filters max_pages (page + 1) c1) as [c2 rest].
  cbn [snd] in *. destruct IH as (Hy & Hnum).
  cbn [snd trace yielded omap list_omap]. rewrite Htx, Htruthy. split.
  - cbn. f_equal. exact Hy.
  - intros [|i] p res Hi; cbn in Hi.
    + injection Hi as <- <-. lia.
    + apply Hnum in Hi. lia.
Qed.

(** X28. The pages of [get_all_payin_transactions] and
    [get_all_payout_transactions] are numbered consecutively from the
    start page and never exceed [max_pages]; the batches yielded are the
    non-empty [transactions] of the pages fetched, in order. *)
Theorem payshack_pages_consecutive depth srv ep start_page max_pages filters c :
  let out := (get_all_transactions depth srv ep start_page max_pages filters c).2 in
  yielded out = omap (fun entry => page_batch entry.2) (trace out) /\
  (forall i p res, trace out !! i = Some (p, res) ->
     p = start_page + Z.of_nat i /\ p <= max_pages).
Proof.
  unfold get_all_transactions. apply pages_loop_batches.
Qed.


Lemma normalized_status_canonical_witness :
  exists n, VimaNormalizer.normalize sample_rt vima_minor = Ok n /\
            In (n_status n) ["success"; "failed"; "pending"].
Proof.
  assert (H : exists n, VimaNormalizer.normalize sample_rt vima_minor = Ok n)
    by (eexists; vm_compute; reflexivity).
  destruct H as (n & H). exists n. split; [exact H|].
  exact (proj1 (normalized_status_canonical sample_rt vima_minor n) H).
Defined.

Lemma vima_key_null_or_nonempty_witness :
  exists n, VimaNormalizer.normalize sample_rt vima_minor = Ok n /\
    (n_client_operation_id n = PNone \/ truthy (n_client_operation_id n) = true) /\
    n_order_id n = PNone /\
    (forall i now row, Columns.to_row i now n = Ok row ->
       order_id row = None /\
       (client_operation_id row = None \/ str_truthy (client_operation_id row) = true)).
Proof.
  assert (H : exists n, VimaNormalizer.normalize sample_rt vima_minor = Ok n)
    by (eexists; vm_compute; reflexivity).
  destruct H as (n & H). exists n. split; [exact H|].
  exact (vima_key_null_or_nonempty sample_rt vima_minor n H).
Defined.

Lemma vima_null_c_id_gives_text_none_witness :
  let identifiers := PDict [("c_id", PNone)] in
  let raw :=
    PDict [("operation_id", PStr "op-9");
           ("create_params",
            PDict [("params", PDict [("payment", PDict [("identifiers", identifiers)])])])] in
  exists n, VimaNormalizer.normalize sample_rt raw = Ok n /\
    (py_get identifiers "c_id" (PStr "") = Ok PNone ->
     n_client_operation_id n = PStr "None") /\
    (py_get identifiers "c_id" (PStr "") = Ok (PStr "") ->
     n_client_operation_id n = PNone).
Proof.
  intros identifiers raw.
  assert (H : exists n, VimaNormalizer.normalize sample_rt raw = Ok n)
    by (eexists; vm_compute; reflexivity).
  destruct H as (n & H). exists n. split; [exact H|].
  apply (vima_null_c_id_gives_text_none sample_rt raw n PNone identifiers H);
    reflexivity.
Defined.

Lemma vima_create_params_not_object_raises_witness :
  exists m,
    VimaNormalizer.normalize sample_rt
      (PDict [("operation_id", PStr "op-3"); ("complete_amount", PStr "10.00");
              ("create_params", PNone)])
    = Raise (AttributeError m).
Proof.
  apply (vima_create_params_not_object_raises sample_rt _ PNone); reflexivity.
Defined.

Lemma normalize_loop_skips_or_aborts_witness :
  let f := VimaNormalizer.normalize sample_rt in
  let records := [vima_minor; PDict [("create_params", PNone)]; vima_major] in
  (Forall (fun r => is_dict r = true) records ->
   exists errs,
     normalize_each f "operation_id" records
       = Ok (omap (fun r => match f r with Ok n => Some n | Raise _ => None end) records,
             errs) /\
     map snd errs
       = omap (fun r => match f r with Ok _ => None | Raise e => Some e end) records /\
     (length (omap (fun r => match f r with Ok n => Some n | Raise _ => None end) records)
      + length errs = length records)%nat) /\
  (Exists (fun r => is_dict r = false) records ->
   exists m, normalize_each f "operation_id" records = Raise (AttributeError m)).
Proof.
  intros f records.
  apply (normalize_loop_skips_or_aborts sample_rt f "operation_id" records).
  left. reflexivity.
Defined.

Lemma stored_cursor_is_paging_cursor_witness :
  exists n,
    VimaNormalizer.normalize sample_rt vima_minor = Ok n /\
    last n_minor = Some n /\
    VimaClient.last_create_id (PList [vima_minor]) = Ok (n_source_create_cursor n).
Proof.
  assert (H : exists n, VimaNormalizer.normalize sample_rt vima_minor = Ok n)
    by (eexists; vm_compute; reflexivity).
  destruct H as (n & H). exists n. split; [exact H|].
  apply (stored_cursor_is_paging_cursor sample_rt [vima_minor] n_minor [] vima_minor n);
    [|reflexivity | exact H].
  cbn [normalize_each]. unfold n_minor. rewrite H. reflexivity.
Defined.

Lemma failed_page_request_reported_once_witness :
  let srv :=
    {| respond := fun _ req =>
         if String.eqb (method req) "POST" then Reply 200 login_ok_body
         else ReplyText 502 "<html>Bad Gateway</html>";
       clock := fun _ => 0 |} in
  let c1 := (_ensure_auth srv fresh_client).1 in
  let req := page_request PayIn c1 first_page in
  let reply := respond srv (sent c1) req in
  exists m status,
    fetch_page 10 srv PayIn first_page fresh_client
      = (set_sent c1 (sent c1 ++ [req])%list, Raise (PayShackAPIError m status)) /\
    (forall code body, reply = Reply code body -> status = Some code) /\
    (forall code text, reply = ReplyText code text -> status = Some code) /\
    (reply = NetTimeout \/ reply = NetConnectError \/ reply = NetOtherError ->
     status = None).
Proof.
  intros srv c1.
  apply (failed_page_request_reported_once srv PayIn first_page 9 fresh_client c1).
  - vm_compute. reflexivity.
  - intros code body H. vm_compute in H. discriminate H.
  - intros code text H. vm_compute in H. injection H as <- _. lia.
Defined.


Lemma index_last_wins_witness :
  let ps := [p_100_1; p_100_11] in
  let k := "ord-1" in
  build_index ps !! k = last (filter (fun t => index_key t = Some k) ps) /\
  build_index ps !! "" = None.
Proof. intros ps k. exact (index_last_wins ps k). Defined.

Lemma vima_upsert_succeeds_iff_witness :
  let dflt := sample_defaults in
  let table : gmap string Transaction := ∅ in
  let batch := n_minor in
  (exists table', VimaSyncService._upsert_transactions dflt table batch = Ok table') <->
  Forall (fun n => exists row, Columns.to_row 0 0 n = Ok row) batch /\
  NoDup (map n_data_hash batch).
Proof. intros dflt table batch. exact (vima_upsert_succeeds_iff dflt table batch). Defined.

Lemma payshack_upsert_succeeds_iff_witness :
  let dflt := sample_defaults in
  let table : gmap string Transaction := ∅ in
  let batch := match PayShackNormalizer.normalize_payin sample_rt payin_raw with
               | Ok n => [n; n] | Raise _ => [] end in
  (exists out, PayShackSyncService._upsert_transactions dflt table batch = Ok out) <->
  Forall (fun n => exists row, Columns.to_row 0 0 n = Ok row) batch.
Proof. intros dflt table batch. exact (payshack_upsert_succeeds_iff dflt table batch). Defined.

Lemma vima_get_operations_single_request_witness :
  let srv := stuck_feed in
  let filters := no_filters in
  let c := vima_client in
  let req := VimaClient.operations_request c filters 100 false PNone in
  let out := VimaClient.get_operations srv filters 100 false PNone c in
  VimaClient.sent out.1 = (VimaClient.sent c ++ [req])%list /\
  match respond srv (VimaClient.sent c) req with
  | Reply code body =>
      if (200 <=? code) && (code <? 300)
      then out.2 = Ok (match body with
                       | PList l => PList l
                       | PDict kv => default (PList []) (assoc "operations" kv)
                       | _ => PList []
                       end)
      else exists m, out.2 = Raise (VimaAPIError m (Some code))
  | ReplyText code _ =>
      if (200 <=? code) && (code <? 300)
      then exists m, out.2 = Raise (JSONDecodeError m)
      else exists m, out.2 = Raise (VimaAPIError m (Some code))
  | NetTimeout | NetConnectError | NetOtherError =>
      exists m, out.2 = Raise (VimaAPIError m None)
  end.
Proof.
  intros srv filters c.
  exact (vima_get_operations_single_request srv filters 100 false PNone c).
Defined.

Lemma vima_pagination_cursor_chain_witness :
  let srv := endless_feed in
  let cursor := PNone in
  let c := vima_client in
  let r := VimaClient.get_all_operations srv cursor 100 5 no_filters c in
  let out := r.2 in
  (forall cur ops, trace out !! 0%nat = Some (cur, ops) -> cur = cursor) /\
  (forall i cur ops cur' ops',
     trace out !! i = Some (cur, ops) -> trace out !! S i = Some (cur', ops') ->
     VimaClient.last_create_id ops = Ok cur' /\ truthy cur' = true /\
     py_eqb cur' cur = false) /\
  yielded out = filter (fun ops => truthy ops = true) (map snd (trace out)) /\
  length (VimaClient.sent r.1) = (length (VimaClient.sent c) + calls out)%nat.
Proof.
  intros srv cursor c.
  exact (vima_pagination_cursor_chain srv cursor 100 5 no_filters c).
Defined.

Lemma login_outcome_witness :
  let srv := flaky_server 0 in
  let c := fresh_client in
  let out := login srv c in
  sent out.1 = (sent c ++ [login_request c])%list /\
  match out.2 with
  | Ok auth_data =>
      py_get auth_data "token" PNone = Ok (_token out.1) /\
      py_get auth_data "clientId" PNone = Ok (_client_id out.1) /\
      py_get auth_data "refreshToken" PNone = Ok (_refresh_token out.1) /\
      _token_expires_at out.1 = Some (clock srv (sent out.1) + minutes 30) /\
      exists code body,
        respond srv (sent c) (login_request c) = Reply code body /\ 200 <= code < 300
  | Raise e =>
      _token out.1 = _token c /\ _client_id out.1 = _client_id c /\
      _refresh_token out.1 = _refresh_token c /\
      _token_expires_at out.1 = _token_expires_at c /\
      is_transport e = false
  end.
Proof. intros srv c. exact (login_outcome srv c). Defined.

Lemma fetch_page_error_kinds_witness :
  match (fetch_page 10 (flaky_server 2) PayIn first_page fresh_client).2 with
  | Ok res =>
      exists transactions,
        py_get res "transactions" (PList []) = Ok transactions /\
        is_ok (py_len transactions) = true
  | Raise e => fetch_error e /\ is_transport e = false
  end.
Proof. exact (fetch_page_error_kinds 10 (flaky_server 2) PayIn first_page fresh_client). Defined.

Lemma payshack_pages_consecutive_witness :
  let out := (get_all_transactions 10 endless_pages PayIn 1 3 first_page fresh_client).2 in
  yielded out = omap (fun entry => page_batch entry.2) (trace out) /\
  (forall i p res, trace out !! i = Some (p, res) ->
     p = 1 + Z.of_nat i /\ p <= 3).
Proof.
  exact (payshack_pages_consecutive 10 endless_pages PayIn 1 3 first_page fresh_client).
Defined.
